(** * testa: template selection, structural scan and placeholder substitution

    A shallow embedding of the reviewable core of the testa command-line
    tool (its entry file with the commands, and src/analyzer.ts): the
    file-finding traversal, the pages-directory route derivation, the
    websocket scan loop, the test templates, the naming of generated test
    files and the placeholder substitution of project templates; then
    the scans for API endpoints and for UI components and routes, the
    framework detection, the set-up of a project and the command line of
    the test command.

    JavaScript strings are modelled as [string]: a sequence of code units,
    restricted to code units below 256 (ASCII and Latin-1).  Within that
    range [toLowerCase], the regular-expression classes [\s] and [\w] and
    case-insensitive matching are modelled exactly. *)

From Stdlib Require Import Ascii String List Bool Arith Lia NArith.
From Stdlib Require Import DecimalString DecimalN.
From stdpp Require Import gmap strings.

#[local] Arguments String.append : simpl nomatch.

(** ** JavaScript string primitives *)

Module Js.

Definition code (c : ascii) : nat := nat_of_ascii c.

(** The double quote, written by its code to keep literals simple. *)
Definition dquote : ascii := "034"%char.

(** Code units whose lower-case form differs: [A-Z], and in Latin-1 the
    range U+00C0..U+00DE without the multiplication sign U+00D7. *)
Definition isUpper (c : ascii) : bool :=
  let n := code c in
  ((65 <=? n) && (n <=? 90)) || ((192 <=? n) && (n <=? 222) && negb (n =? 215)).

Definition toLowerCaseChar (c : ascii) : ascii :=
  if isUpper c then ascii_of_nat (code c + 32) else c.

(** [String.prototype.toLowerCase]. *)
Fixpoint toLowerCase (s : string) : string :=
  match s with
  | EmptyString => EmptyString
  | String c s' => String (toLowerCaseChar c) (toLowerCase s')
  end.

(** The class [\s]: tab, line feed, vertical tab, form feed, carriage
    return, space and the no-break space. *)
Definition isSpace (c : ascii) : bool :=
  let n := code c in
  ((9 <=? n) && (n <=? 13)) || (n =? 32) || (n =? 160).

(** The class [\w]: [A-Za-z0-9_]. *)
Definition isWordChar (c : ascii) : bool :=
  let n := code c in
  ((65 <=? n) && (n <=? 90)) || ((97 <=? n) && (n <=? 122))
  || ((48 <=? n) && (n <=? 57)) || (n =? 95).

(** [s.startsWith(p)]. *)
Fixpoint startsWith (p s : string) : bool :=
  match p, s with
  | EmptyString, _ => true
  | String _ _, EmptyString => false
  | String a p', String b s' => Ascii.eqb a b && startsWith p' s'
  end.

(** [s.endsWith(suf)]: some suffix of [s] is [suf]. *)
Fixpoint endsWith (suf s : string) : bool :=
  String.eqb suf s
  || match s with
     | EmptyString => false
     | String _ s' => endsWith suf s'
     end.

(** [hay.includes(needle)]. *)
Fixpoint includes (needle hay : string) : bool :=
  startsWith needle hay
  || match hay with
     | EmptyString => false
     | String _ hay' => includes needle hay'
     end.

(** Every code unit of [s] satisfies [P]. *)
Fixpoint every (P : ascii -> bool) (s : string) : bool :=
  match s with
  | EmptyString => true
  | String c s' => P c && every P s'
  end.

(** [s.slice(n)]. *)
Fixpoint drop (n : nat) (s : string) : string :=
  match n, s with
  | 0, _ => s
  | S _, EmptyString => EmptyString
  | S k, String _ s' => drop k s'
  end.

(** Number of (possibly overlapping) positions of [hay] where [needle]
    starts; used to count the tests of a template. *)
Fixpoint occurrences (needle hay : string) : nat :=
  (if startsWith needle hay then 1 else 0)
  + match hay with
    | EmptyString => 0
    | String _ hay' => occurrences needle hay'
    end.

(** JavaScript truthiness of an optional string: [undefined] and the empty
    string are falsy. *)
Definition truthy (o : option string) : bool :=
  match o with
  | Some (String _ _) => true
  | _ => false
  end.

(** [o || ''] for an optional string. *)
Definition orEmpty (o : option string) : string :=
  match o with
  | Some s => s
  | None => EmptyString
  end.

(** [o || d]. *)
Definition orElse (o : option string) (d : string) : string :=
  if truthy o then orEmpty o else d.

(** An optional string inside a template literal. *)
Definition interpolate (o : option string) : string :=
  match o with
  | Some s => s
  | None => "undefined"
  end.

(** *** [String.prototype.replace] with a global regular expression

    [replace] with a [g]-flagged pattern runs [exec] from [lastIndex]
    until it fails, then rebuilds the subject: the text between matches is
    kept, each match is replaced.  The patterns of this program never
    match the empty string, so the scan below is exact for them: at each
    position outside a previous match the pattern is tried; [matchAt
    before rest] gives the length of the match starting there (at least
    one) and the text that replaces it, [before] being the part of the
    subject to the left of the position.  [pending] counts the code units
    of the current match that are still to be skipped. *)
Section ReplaceGlobal.
Variable matchAt : string -> string -> option (nat * string).

Fixpoint replaceFrom (pending : nat) (before s : string) : string :=
  match s with
  | EmptyString => EmptyString
  | String c s' =>
      let before' := before +:+ String c EmptyString in
      match pending with
      | S k => replaceFrom k before' s'
      | 0 =>
          match matchAt before s with
          | Some (len, r) => r +:+ replaceFrom (len - 1) before' s'
          | None => String c (replaceFrom 0 before' s')
          end
      end
  end.

Definition replaceGlobal (s : string) : string :=
  replaceFrom 0 EmptyString s.
End ReplaceGlobal.

(** The same for a pattern whose matches do not depend on the text
    before them. *)
Definition scan (m : string -> option (nat * string)) (s : string)
  : string :=
  replaceGlobal (fun _ => m) s.

(** [GetSubstitution] for a pattern without capture groups: in the
    replacement text [$$] stands for a dollar sign, [$&] for the matched
    text, [$`] for the subject before the match and [$'] for the subject
    after it; [$1] .. [$99] and [$<] refer to groups the pattern does not
    have and are kept as they are. *)
Fixpoint GetSubstitution (matched before after repl : string) : string :=
  match repl with
  | EmptyString => EmptyString
  | String "$" (String "$" r) =>
      String "$" (GetSubstitution matched before after r)
  | String "$" (String "&" r) =>
      matched +:+ GetSubstitution matched before after r
  | String "$" (String "`" r) =>
      before +:+ GetSubstitution matched before after r
  | String "$" (String "'" r) =>
      after +:+ GetSubstitution matched before after r
  | String c r => String c (GetSubstitution matched before after r)
  end.

(** [s.replace(new RegExp(pat, 'g'), repl)] for a pattern text [pat] that
    the regular-expression grammar reads as a literal (the placeholder
    tokens are: braces that open no quantifier, and letters). *)
Definition literalAt (pat repl : string) (before rest : string)
  : option (nat * string) :=
  if startsWith pat rest
  then Some (String.length pat,
             GetSubstitution pat before (drop (String.length pat) rest) repl)
  else None.

Definition replaceLiteral (pat repl s : string) : string :=
  replaceGlobal (literalAt pat repl) s.

End Js.

(** ** Structural scanner (src/analyzer.ts) *)

Module Scanner.
Import Js.

(** *** Directory traversal *)

(** An entry of [fs.readdirSync(dir, { withFileTypes: true })], with the
    listing of a directory attached to it.  [OtherEnt] is an entry for
    which both [isDirectory()] and [isFile()] are false (a symbolic link,
    a socket). *)
#[warnings="-register-all"]
Inductive Dirent : Type :=
| FileEnt (name : string)
| DirEnt (name : string) (entries : list Dirent)
| OtherEnt (name : string).

(** [path.join(dir, name)] for a directory path and an entry name. *)
Definition pathJoin (dir name : string) : string :=
  dir +:+ "/" +:+ name.

(** The directories [findFiles] does not enter. *)
Definition skippedDir (name : string) : bool :=
  String.eqb name "node_modules" || String.eqb name ".git"
  || String.eqb name "dist" || String.eqb name "build".

(** [extensions.some(ext => entry.name.endsWith(ext))]. *)
Definition hasExtension (extensions : list string) (name : string) : bool :=
  existsb (fun ext => endsWith ext name) extensions.

(** One turn of the loop of [findFiles] over the entries of [dir]: what the
    entry adds to [result]. *)
Fixpoint findFilesEntry (dir : string) (extensions : list string)
    (entry : Dirent) : list string :=
  match entry with
  | DirEnt name entries =>
      if skippedDir name then []
      else flat_map (findFilesEntry (pathJoin dir name) extensions) entries
  | FileEnt name =>
      if hasExtension extensions name then [pathJoin dir name] else []
  | OtherEnt _ => []
  end.

(** [findFiles(dir, extensions)]; [listing] is [None] when [dir] does not
    exist and the entries of [dir] otherwise. *)
Definition findFiles (dir : string) (listing : option (list Dirent))
    (extensions : list string) : list string :=
  match listing with
  | None => []
  | Some entries => flat_map (findFilesEntry dir extensions) entries
  end.

(** The names [findFiles] is documented to stay out of. *)
Definition excludedNames : list string :=
  ["node_modules"; ".git"; "dist"; "build"].

(** [FileAt entries dirNames name]: below [entries], the chain of
    directories [dirNames] leads to a file entry [name]. *)
Inductive FileAt : list Dirent -> list string -> string -> Prop :=
| FileHere entries name :
    In (FileEnt name) entries -> FileAt entries [] name
| FileBelow entries d sub dirNames name :
    In (DirEnt d sub) entries ->
    FileAt sub dirNames name ->
    FileAt entries (d :: dirNames) name.

(** The path of that file: the directory names and the file name joined
    to [dir] one after the other. *)
Definition pathOf (dir : string) (dirNames : list string) (name : string)
  : string :=
  pathJoin (fold_left pathJoin dirNames dir) name.

(** The path of the file relative to [dir]. *)
Fixpoint relativeOf (dirNames : list string) (name : string) : string :=
  match dirNames with
  | [] => name
  | d :: dirNames' => d +:+ "/" +:+ relativeOf dirNames' name
  end.

(** The segments of a path: the texts between its separators. *)
Fixpoint segments (path : string) : list string :=
  match path with
  | EmptyString => [EmptyString]
  | String c rest =>
      if Ascii.eqb c "/" then EmptyString :: segments rest
      else match segments rest with
           | seg :: segs => String c seg :: segs
           | [] => [String c EmptyString]
           end
  end.

(** A name as a directory holds it: without a separator. *)
Definition plainName (name : string) : bool :=
  every (fun c => negb (Ascii.eqb c "/")) name.

Fixpoint plainNames (entry : Dirent) : bool :=
  match entry with
  | FileEnt name => plainName name
  | OtherEnt name => plainName name
  | DirEnt name entries => plainName name && forallb plainNames entries
  end.

(** A small project tree: an excluded directory at the top and one
    deeper down. *)
Definition sampleTree : list Dirent :=
  [DirEnt "node_modules" [FileEnt "index.js"];
   DirEnt "src" [DirEnt "dist" [FileEnt "out.js"]; FileEnt "app.ts"]].

(** *** Routes of a pages directory *)

Record Route : Type := { routePath : string; routeFile : string }.

(** [s.replace(/X$/, '')]: the leftmost position from which the rest of
    the subject is matched by [X] up to its end is cut off. *)
Fixpoint replaceAtEnd (X : string -> bool) (s : string) : string :=
  if X s then EmptyString
  else match s with
       | EmptyString => EmptyString
       | String c s' => String c (replaceAtEnd X s')
       end.

(** [\.(js|jsx|ts|tsx)] up to the end of the subject. *)
Definition pageExtension (s : string) : bool :=
  String.eqb s ".js" || String.eqb s ".jsx"
  || String.eqb s ".ts" || String.eqb s ".tsx".

(** The longest prefix without a closing bracket: the greedy [[^\]]+]. *)
Fixpoint untilBracket (s : string) : string :=
  match s with
  | EmptyString => EmptyString
  | String c s' =>
      if Ascii.eqb c "]" then EmptyString else String c (untilBracket s')
  end.

(** [/\[([^\]]+)\]/g] with the replacement [':$1']. *)
Definition bracketParamAt (before rest : string) : option (nat * string) :=
  match rest with
  | String "[" r =>
      let param := untilBracket r in
      if negb (String.eqb param EmptyString)
         && startsWith "]" (drop (String.length param) r)
      then Some (String.length param + 2, ":" +:+ param)
      else None
  | _ => None
  end.

(** The route of a page file, from its path relative to the pages
    directory. *)
Definition pageRoute (relativePath : string) : string :=
  "/" +:+ replaceGlobal bracketParamAt
            (replaceAtEnd (String.eqb "/index")
               (replaceAtEnd pageExtension relativePath)).

(** [path.relative(from, file)] for a file found below [from]. *)
Definition pathRelative (from file : string) : string :=
  if startsWith (from +:+ "/") file
  then drop (String.length from + 1) file
  else file.

(** The loop over [pageFiles] in [analyzeUiStructure]: the routes pushed
    to [appInfo.routes]. *)
Fixpoint pageRoutes (pagesDir : string) (pageFiles : list string)
  : list Route :=
  match pageFiles with
  | [] => []
  | file :: rest =>
      let route := pageRoute (pathRelative pagesDir file) in
      (if negb (String.eqb route "/")
       then [{| routePath := route; routeFile := file |}]
       else [])
      ++ pageRoutes pagesDir rest
  end.

(** The pages pass: [findFiles(pagesDir, ['.js', '.jsx', '.ts', '.tsx'])]
    followed by the loop. *)
Definition scanPages (pagesDir : string) (listing : option (list Dirent))
  : list Route :=
  pageRoutes pagesDir
    (findFiles pagesDir listing [".js"; ".jsx"; ".ts"; ".tsx"]).

(** *** Websocket scan *)

(** A regular expression object as the scan uses it: [matchAt prev rest]
    tries the pattern at one position, [prev] being the code unit before
    the position and [rest] the subject from the position on, and gives
    the length of the match and the text of group 1; [global] is the [g]
    flag. *)
Record RegExp : Type := {
  matchAt : option ascii -> string -> option (nat * string);
  global : bool
}.

Definition headChar (s : string) : option ascii :=
  match s with
  | EmptyString => None
  | String c _ => Some c
  end.

(** The code unit of [s] at index [i - 1], if any. *)
Fixpoint charBefore (i : nat) (s : string) : option ascii :=
  match i, s with
  | 0, _ => None
  | S _, EmptyString => None
  | 1, String c _ => Some c
  | S k, String _ s' => charBefore k s'
  end.

(** [s.slice(0, n)]. *)
Fixpoint take (n : nat) (s : string) : string :=
  match n, s with
  | 0, _ => EmptyString
  | S _, EmptyString => EmptyString
  | S k, String c s' => String c (take k s')
  end.

(** [p] read as literal text at the start of [s]: the rest after it. *)
Fixpoint literal (p s : string) : option string :=
  match p, s with
  | EmptyString, _ => Some s
  | String _ _, EmptyString => None
  | String a p', String b s' =>
      if Ascii.eqb a b then literal p' s' else None
  end.

(** The same under the [i] flag: code units are compared by their case
    folding (for the letters of these patterns, the two ASCII cases). *)
Fixpoint literalNoCase (p s : string) : option string :=
  match p, s with
  | EmptyString, _ => Some s
  | String _ _, EmptyString => None
  | String a p', String b s' =>
      if Ascii.eqb (toLowerCaseChar a) (toLowerCaseChar b)
      then literalNoCase p' s' else None
  end.

(** [\s*], greedy: what is left after the leading white space. *)
Fixpoint skipSpaces (s : string) : string :=
  match s with
  | EmptyString => EmptyString
  | String c s' => if isSpace c then skipSpaces s' else s
  end.

(** [\s+]. *)
Definition someSpaces (s : string) : option string :=
  match s with
  | String c s' => if isSpace c then Some (skipSpaces s') else None
  | EmptyString => None
  end.

Definition isQuote (c : ascii) : bool :=
  Ascii.eqb c dquote || Ascii.eqb c "'".

(** One quote of either kind. *)
Definition quote (s : string) : option string :=
  match s with
  | String c s' => if isQuote c then Some s' else None
  | EmptyString => None
  end.

(** The greedy group 1 of the URL patterns: the text up to the next quote
    of either kind, and the rest from that quote on. *)
Fixpoint untilQuote (s : string) : string * string :=
  match s with
  | EmptyString => (EmptyString, EmptyString)
  | String c s' =>
      if isQuote c then (EmptyString, s)
      else let '(u, r) := untilQuote s' in (String c u, r)
  end.

(** The common tail of the three URL patterns, after the name of the
    callee: an opening parenthesis and a quoted string between optional
    white space.  The result is what follows the closing quote, and the
    quoted text. *)
Definition quotedArgument (s : string) : option (string * string) :=
  r1 ← literal "(" (skipSpaces s);
  r2 ← quote (skipSpaces r1);
  let '(url, r3) := untilQuote r2 in
  r4 ← quote r3;
  Some (r4, url).

Definition matchLength (rest after : string) : nat :=
  String.length rest - String.length after.

(** Word boundary between two neighbouring positions. *)
Definition isWord (o : option ascii) : bool :=
  match o with
  | Some c => isWordChar c
  | None => false
  end.

Definition wordBoundary (prev next : option ascii) : bool :=
  xorb (isWord prev) (isWord next).

(** The alternatives of the presence pattern, in the order the pattern
    lists them. *)
Definition socketWords : list string :=
  ["WebSocket"; "ws"; "socket.io"; "socketio"; "sock"].

(** The first alternative that matches at the start of [rest] and ends at
    a word boundary. *)
Fixpoint firstWord (words : list string) (rest : string)
  : option (nat * string) :=
  match words with
  | [] => None
  | w :: ws =>
      match literalNoCase w rest with
      | Some after =>
          let n := String.length w in
          if wordBoundary (charBefore n rest) (headChar after)
          then Some (n, take n rest)
          else firstWord ws rest
      | None => firstWord ws rest
      end
  end.

(** [/\b(WebSocket|ws|socket\.io|socketio|sock)\b/i]: no [g] flag. *)
Definition presencePattern : RegExp := {|
  matchAt prev rest :=
    if wordBoundary prev (headChar rest)
    then firstWord socketWords rest else None;
  global := false
|}.

(** The pattern [new\s+WebSocket\s*\(\s*Q(U)Q] with the [g] flag, where
    [Q] stands for the class of the two quote characters and the group
    [U] for any number of code units outside that class. *)
Definition newWebSocketPattern : RegExp := {|
  matchAt _ rest :=
    r1 ← literal "new" rest;
    r2 ← someSpaces r1;
    r3 ← literal "WebSocket" r2;
    '(after, url) ← quotedArgument r3;
    Some (matchLength rest after, url);
  global := true
|}.

(** The pattern [io\s*\(\s*Q(U)Q] with the [g] flag. *)
Definition ioPattern : RegExp := {|
  matchAt _ rest :=
    r1 ← literal "io" rest;
    '(after, url) ← quotedArgument r1;
    Some (matchLength rest after, url);
  global := true
|}.

(** The pattern [socket\.connect\s*\(\s*Q(U)Q] with the [g] flag. *)
Definition socketConnectPattern : RegExp := {|
  matchAt _ rest :=
    r1 ← literal "socket.connect" rest;
    '(after, url) ← quotedArgument r1;
    Some (matchLength rest after, url);
  global := true
|}.

Definition socketPatterns : list RegExp :=
  [presencePattern; newWebSocketPattern; ioPattern; socketConnectPattern].

(** A pattern whose matches are never empty and lie inside the subject. *)
Definition progressing (r : RegExp) : Prop :=
  forall prev rest len g1,
    matchAt r prev rest = Some (len, g1) ->
    1 <= len <= String.length rest.

(** The search of [exec]: the pattern is tried at [idx] and then at each
    later position, up to and including the end of the subject.  The
    result is the index of the match, its length and group 1. *)
Fixpoint searchFrom (r : RegExp) (prev : option ascii) (rest : string)
    (idx : nat) : option (nat * nat * string) :=
  match matchAt r prev rest with
  | Some (len, g1) => Some (idx, len, g1)
  | None =>
      match rest with
      | EmptyString => None
      | String c rest' => searchFrom r (Some c) rest' (S idx)
      end
  end.

(** [pattern.exec(content)] on a pattern whose [lastIndex] is
    [lastIndex]: group 1 of the match, or [None] for [null], and the new
    [lastIndex].  Without the [g] flag the search starts at index 0 and
    [lastIndex] is left alone; with it the search starts at [lastIndex],
    which then moves to the end of the match, or back to 0 on failure. *)
Definition exec (r : RegExp) (content : string) (lastIndex : nat)
  : option string * nat :=
  if global r then
    if String.length content <? lastIndex then (None, 0)
    else
      match searchFrom r (charBefore lastIndex content)
              (drop lastIndex content) lastIndex with
      | Some (idx, len, g1) => (Some g1, idx + len)
      | None => (None, 0)
      end
  else
    match searchFrom r None content 0 with
    | Some (_, _, g1) => (Some g1, lastIndex)
    | None => (None, lastIndex)
    end.

(** [pattern.test(content)] on a pattern without the [g] flag. *)
Definition test (r : RegExp) (content : string) : bool :=
  match searchFrom r None content 0 with
  | Some _ => true
  | None => false
  end.

Record SocketImplementation : Type := {
  implFile : string;
  implUrl : option string
}.

(** What the scan loop changes: [appInfo.hasWebSockets] and the local
    list [socketImplementations]. *)
Record SocketScan : Type := {
  hasWebSockets : bool;
  socketImplementations : list SocketImplementation
}.

(** [typeof pattern.exec === 'function']: every [RegExp] has the method. *)
Definition hasExecMethod (_ : RegExp) : bool := true.

(** The loop [while ((match = pattern.exec(content)) !== null)] with its
    body; [fuel] bounds the number of calls of [exec], and [None] says the
    bound was reached with the loop still running. *)
Fixpoint execLoop (fuel : nat) (pattern : RegExp) (file content : string)
    (lastIndex : nat) (impls : list SocketImplementation)
  : option (list SocketImplementation) :=
  match fuel with
  | 0 => None
  | S fuel' =>
      match exec pattern content lastIndex with
      | (None, _) => Some impls
      | (Some g1, lastIndex') =>
          execLoop fuel' pattern file content lastIndex'
            (if truthy (Some g1)
             then impls ++ [{| implFile := file; implUrl := Some g1 |}]
             else impls)
      end
  end.

(** The body of [for (const pattern of socketPatterns)] for one file.
    Every [exec] loop ends with [lastIndex] back at 0, so each one starts
    there. *)
Definition scanPattern (fuel : nat) (file content : string)
    (st : SocketScan) (pattern : RegExp) : option SocketScan :=
  if hasExecMethod pattern then
    impls ← execLoop fuel pattern file content 0 (socketImplementations st);
    Some {| hasWebSockets := hasWebSockets st;
            socketImplementations := impls |}
  else if test pattern content then
    Some {| hasWebSockets := true;
            socketImplementations :=
              socketImplementations st
              ++ [{| implFile := file; implUrl := None |}] |}
  else Some st.

Fixpoint scanPatterns (fuel : nat) (file content : string)
    (patterns : list RegExp) (st : SocketScan) : option SocketScan :=
  match patterns with
  | [] => Some st
  | pattern :: rest =>
      st' ← scanPattern fuel file content st pattern;
      scanPatterns fuel file content rest st'
  end.

(** The loop [for (const file of files)] of [analyzeWebSockets]; each file
    comes with the content [fs.readFileSync] reads from it.  The scan
    starts from the value [analyzeApplication] gives [hasWebSockets] and
    from the empty list. *)
Fixpoint scanFiles (fuel : nat) (files : list (string * string))
    (st : SocketScan) : option SocketScan :=
  match files with
  | [] => Some st
  | (file, content) :: rest =>
      st' ← scanPatterns fuel file content socketPatterns st;
      scanFiles fuel rest st'
  end.

Definition analyzeWebSockets (fuel : nat) (files : list (string * string))
  : option SocketScan :=
  scanFiles fuel files
    {| hasWebSockets := false; socketImplementations := [] |}.

(** A bound that is enough for the loops over the three URL patterns:
    two more than the length of the longest content. *)
Definition scanFuel (files : list (string * string)) : nat :=
  2 + fold_right (fun file n => Nat.max (String.length (snd file)) n) 0 files.

End Scanner.

(** ** Template selector (generateTestContent, src/analyzer.ts) *)

Module Templates.
Import Js.

Definition dq : string := String dquote EmptyString.

Record Endpoint : Type := {
  endpointMethod : string;
  endpointPath : string;
  endpointFile : option string
}.

Record Component : Type := { componentName : string; componentFile : string }.

(** The fields of [options.appInfo] that [generateTestContent] reads; a
    field that was never assigned is [None]. *)
Record AppInfo : Type := {
  selectedEndpoint : option Endpoint;
  testTarget : option string;
  selectedRoute : option Scanner.Route;
  selectedComponent : option Component;
  formPath : option string;
  testUrl : option string;
  socketUrl : option string
}.

(** [/:/g] with the replacement ['[^/]+']. *)
Definition colonAt (before rest : string) : option (nat * string) :=
  match rest with
  | String ":" _ => Some (1, "[^/]+")
  | _ => None
  end.

(** [generateApiTestForMethod]: the body of the success-path test, by a
    [switch] over the lower-cased method name. *)
Definition generateApiTestForMethod (method path : string) : string :=
  if String.eqb method "get" then
    "const response = await axios.get(`${baseUrl}" +:+
    path +:+
    "`);
    
    expect(response.status).toBe(200);
    expect(response.data).toBeDefined();"
  else if String.eqb method "post" then
    "const payload = {
      // Add appropriate request body
      name: 'Test Name',
      email: 'test@example.com'
    };
    
    const response = await axios.post(`${baseUrl}" +:+
    path +:+
    "`, payload);
    
    expect(response.status).toBe(201); // or 200 depending on your API
    expect(response.data).toBeDefined();"
  else if String.eqb method "put" then
    "const payload = {
      // Add appropriate request body
      id: 1,
      name: 'Updated Name',
      email: 'updated@example.com'
    };
    
    const response = await axios.put(`${baseUrl}" +:+
    path +:+
    "`, payload);
    
    expect(response.status).toBe(200);
    expect(response.data).toBeDefined();"
  else if String.eqb method "delete" then
    "const response = await axios.delete(`${baseUrl}" +:+
    path +:+
    "`);
    
    expect(response.status).toBe(200); // or 204 for No Content
    expect(response.data).toBeDefined();"
  else if String.eqb method "patch" then
    "const payload = {
      // Add partial data to update
      name: 'Patched Name'
    };
    
    const response = await axios.patch(`${baseUrl}" +:+
    path +:+
    "`, payload);
    
    expect(response.status).toBe(200);
    expect(response.data).toBeDefined();"
  else
    "const response = await axios.get(`${baseUrl}" +:+
    path +:+
    "`);
    
    expect(response.status).toBe(200);
    expect(response.data).toBeDefined();".

(** [generateApiErrorTestForMethod]: the request of the error-path test. *)
Definition generateApiErrorTestForMethod (method path : string) : string :=
  if String.eqb method "get" then
    "await axios.get(`${baseUrl}" +:+
    path +:+
    "?invalid=true`);"
  else if String.eqb method "post" then
    "await axios.post(`${baseUrl}" +:+
    path +:+
    "`, {
        // Send invalid data
        invalid_field: true
      });"
  else if String.eqb method "put" then
    "await axios.put(`${baseUrl}" +:+
    path +:+
    "`, {
        // Send invalid data
        invalid_field: true
      });"
  else if String.eqb method "delete" then
    "await axios.delete(`${baseUrl}" +:+
    path +:+
    "/999999`); // Non-existent ID"
  else if String.eqb method "patch" then
    "await axios.patch(`${baseUrl}" +:+
    path +:+
    "`, {
        // Send invalid data
        invalid_field: true
      });"
  else
    "await axios.get(`${baseUrl}" +:+
    path +:+
    "/invalid`);".

(** [generateGenericUITest]: the generic UI test. *)
Definition generateGenericUITest (testName : string) : string :=
  "import { test, expect } from '@playwright/test';

test.describe('" +:+
  testName +:+
  "', () => {
  test.beforeEach(async ({ page }) => {
    await page.goto('/');
  });
  
  test('should display the correct title', async ({ page }) => {
    await expect(page).toHaveTitle(/Expected Title/);
  });
  
  test('should allow basic interaction', async ({ page }) => {
    // Replace with appropriate selector for your application
    const button = page.locator('button:visible').first();
    await button.click();
    
    // Add assertions based on expected behavior after clicking
  });
  
  test('should navigate correctly', async ({ page }) => {
    // Find a navigation element (like a menu item or link)
    const navLink = page.locator('nav a').first();
    await navLink.click();
    
    // Verify navigation worked
    await expect(page).not.toHaveURL('/');
  });
});".

(** [case 'api'] with a selected endpoint; [method] is
    [endpoint.method.toLowerCase()]. *)
Definition apiEndpointTemplate (testName : string) (endpoint : Endpoint)
  : string :=
  let method := toLowerCase (endpointMethod endpoint) in
  "import { test, expect } from '@playwright/test';
import axios from 'axios';

test.describe('" +:+
  testName +:+
  "', () => {
  const baseUrl = process.env.API_URL || 'http://localhost:3000';
  
  test('should successfully " +:+
  method +:+
  " to " +:+
  endpointPath endpoint +:+
  "', async () => {
    " +:+
  generateApiTestForMethod method (endpointPath endpoint) +:+
  "
  });
  
  test('should handle errors correctly', async () => {
    try {
      // Simulate an error condition (e.g., invalid parameters, unauthorized)
      " +:+
  generateApiErrorTestForMethod method (endpointPath endpoint) +:+
  "
      // If we get here, the request was successful when it should fail
      expect(false).toBe(true);
    } catch (error: any) {
      expect(error.response.status).toBe(400); // Adjust expected error code as needed
    }
  });
});".

(** [case 'api'] without a selected endpoint. *)
Definition apiGenericTemplate (testName : string) : string :=
  "import { test, expect } from '@playwright/test';
import axios from 'axios';

test.describe('" +:+
  testName +:+
  "', () => {
  const baseUrl = process.env.API_URL || 'http://localhost:3000/api';
  
  test('should return successful response', async () => {
    const response = await axios.get(`${baseUrl}/endpoint`);
    
    expect(response.status).toBe(200);
    expect(response.data).toBeDefined();
  });
  
  test('should handle errors correctly', async () => {
    try {
      await axios.get(`${baseUrl}/invalid-endpoint`);
      // If we get here, the request was successful when it should fail
      expect(false).toBe(true);
    } catch (error: any) {
      expect(error.response.status).toBe(404);
    }
  });
});".

(** [case 'e2e'] for a selected route. *)
Definition routeTemplate (testName route : string) : string :=
  "import { test, expect } from '@playwright/test';

test.describe('" +:+
  testName +:+
  " - " +:+
  route +:+
  "', () => {
  test.beforeEach(async ({ page }) => {
    await page.goto('" +:+
  route +:+
  "');
  });
  
  test('should load the page successfully', async ({ page }) => {
    await expect(page).toHaveURL(new RegExp('" +:+
  replaceGlobal colonAt route +:+
  "'));
    await expect(page).not.toHaveTitle(/Error|404|Not Found/i);
  });
  
  test('should display expected elements', async ({ page }) => {
    // Check for common UI elements that should be present
    await expect(page.locator('header')).toBeVisible();
    await expect(page.locator('footer')).toBeVisible();
    
    // Add more specific element checks
  });
});".

(** [case 'e2e'] for a selected component. *)
Definition componentTemplate (testName component : string) : string :=
  "import { test, expect } from '@playwright/test';

test.describe('" +:+
  testName +:+
  " - " +:+
  component +:+
  " Component', () => {
  test.beforeEach(async ({ page }) => {
    // Navigate to a page containing the component
    await page.goto('/');
  });
  
  test('should render the " +:+
  component +:+
  " component', async ({ page }) => {
    // Assuming the component has a data-testid attribute or unique selector
    await expect(page.locator('[data-testid=" +:+
  dq +:+
  toLowerCase component +:+
  dq +:+
  "]')).toBeVisible();
    // Add more specific assertions for the component
  });
  
  test('should interact correctly', async ({ page }) => {
    // Test interactions with the component
    // Example: clicking, typing, etc.
  });
});".

(** [case 'e2e'] for a form submission. *)
Definition formTemplate (testName formPath : string) : string :=
  "import { test, expect } from '@playwright/test';

test.describe('" +:+
  testName +:+
  " - Form Submission', () => {
  test.beforeEach(async ({ page }) => {
    await page.goto('" +:+
  formPath +:+
  "');
  });
  
  test('should display the form', async ({ page }) => {
    await expect(page.locator('form')).toBeVisible();
    await expect(page.locator('button[type=" +:+
  dq +:+
  "submit" +:+
  dq +:+
  "]')).toBeVisible();
  });
  
  test('should submit the form successfully', async ({ page }) => {
    // Fill out the form fields
    // Add appropriate selectors and values for your form
    await page.fill('input[name=" +:+
  dq +:+
  "username" +:+
  dq +:+
  "]', 'testuser');
    await page.fill('input[name=" +:+
  dq +:+
  "password" +:+
  dq +:+
  "]', 'password123');
    
    // Submit the form
    await page.click('button[type=" +:+
  dq +:+
  "submit" +:+
  dq +:+
  "]');
    
    // Verify submission was successful
    // This depends on your application's behavior after submission
    await expect(page.locator('.success-message')).toBeVisible();
  });
  
  test('should validate form inputs', async ({ page }) => {
    // Submit form without filling required fields
    await page.click('button[type=" +:+
  dq +:+
  "submit" +:+
  dq +:+
  "]');
    
    // Check for validation messages
    await expect(page.locator('.error-message')).toBeVisible();
  });
});".

(** [case 'e2e'] for a URL entered by hand. *)
Definition urlTemplate (testName url : string) : string :=
  "import { test, expect } from '@playwright/test';

test.describe('" +:+
  testName +:+
  "', () => {
  test.beforeEach(async ({ page }) => {
    await page.goto('" +:+
  url +:+
  "');
  });
  
  test('should load page successfully', async ({ page }) => {
    await expect(page).toHaveURL(new RegExp('" +:+
  url +:+
  "'));
    await expect(page).not.toHaveTitle(/Error|404|Not Found/i);
  });
  
  test('should display key UI elements', async ({ page }) => {
    // Check for common UI elements that should be present
    await expect(page.locator('header')).toBeVisible();
    await expect(page.locator('main')).toBeVisible();
    
    // Add specific element checks based on the URL
  });
});".

(** [case 'websocket'] with a socket URL. *)
Definition socketUrlTemplate (testName socketUrl : string) : string :=
  "import { test, expect } from '@playwright/test';
import WebSocket from 'ws';

test.describe('" +:+
  testName +:+
  "', () => {
  let client: WebSocket;
  
  test.beforeEach(() => {
    client = new WebSocket('" +:+
  socketUrl +:+
  "');
  });
  
  test.afterEach(() => {
    client.close();
  });
  
  test('should establish connection', async () => {
    return new Promise<void>((resolve) => {
      client.on('open', () => {
        expect(client.readyState).toBe(WebSocket.OPEN);
        resolve();
      });
    });
  });
  
  test('should send and receive message', async () => {
    return new Promise<void>((resolve, reject) => {
      client.on('open', () => {
        client.send(JSON.stringify({ type: 'test', content: 'message' }));
      });
      
      client.on('message', (data) => {
        try {
          const message = JSON.parse(data.toString());
          expect(message).toBeDefined();
          resolve();
        } catch (error) {
          reject(error);
        }
      });
      
      // Add timeout for test failure
      setTimeout(() => {
        reject(new Error('Timed out waiting for response'));
      }, 5000);
    });
  });
  
  test('should handle disconnection properly', async () => {
    return new Promise<void>((resolve) => {
      client.on('open', () => {
        client.close();
      });
      
      client.on('close', () => {
        expect(client.readyState).toBe(WebSocket.CLOSED);
        resolve();
      });
    });
  });
});".

(** [case 'websocket'] without a socket URL: the default WebSocket test. *)
Definition socketDefaultTemplate (testName : string) : string :=
  "import { test, expect } from '@playwright/test';
import WebSocket from 'ws';

test.describe('" +:+
  testName +:+
  "', () => {
  let client: WebSocket;
  
  test.beforeEach(() => {
    client = new WebSocket('ws://localhost:3000/ws');
  });
  
  test.afterEach(() => {
    client.close();
  });
  
  test('should establish connection', async () => {
    return new Promise<void>((resolve) => {
      client.on('open', () => {
        expect(client.readyState).toBe(WebSocket.OPEN);
        resolve();
      });
    });
  });
  
  test('should send and receive message', async () => {
    return new Promise<void>((resolve) => {
      client.on('open', () => {
        client.send(JSON.stringify({ type: 'test', content: 'message' }));
      });
      
      client.on('message', (data) => {
        const message = JSON.parse(data.toString());
        expect(message).toBeDefined();
        resolve();
      });
    });
  });
});".

(** [case 'performance']. *)
Definition performanceTemplate (testName : string) : string :=
  "import { test, expect } from '@playwright/test';

test.describe('" +:+
  testName +:+
  "', () => {
  test('should load page in less than 3 seconds', async ({ page }) => {
    const startTime = Date.now();
    
    await page.goto('/');
    
    const loadTime = Date.now() - startTime;
    console.log(`Load time: ${loadTime}ms`);
    
    expect(loadTime).toBeLessThan(3000);
  });
  
  test('should have good performance score', async ({ page }) => {
    // This test is a placeholder. To implement it fully,
    // consider using Lighthouse or similar tools
    await page.goto('/');
    
    // Simulate performance check
    const performanceMetrics = await page.evaluate(() => {
      return {
        score: 90,
        firstContentfulPaint: 800,
        timeToInteractive: 1500
      };
    });
    
    expect(performanceMetrics.score).toBeGreaterThan(80);
  });
});".

(** [case 'visual']. *)
Definition visualTemplate (testName : string) : string :=
  "import { test, expect } from '@playwright/test';

test.describe('" +:+
  testName +:+
  "', () => {
  test('should have correct appearance on desktop', async ({ page }) => {
    await page.setViewportSize({ width: 1280, height: 720 });
    await page.goto('/');
    
    // Take screenshot and compare with baseline
    expect(await page.screenshot()).toMatchSnapshot('desktop.png');
  });
  
  test('should have correct appearance on mobile', async ({ page }) => {
    await page.setViewportSize({ width: 375, height: 667 });
    await page.goto('/');
    
    // Take screenshot and compare with baseline
    expect(await page.screenshot()).toMatchSnapshot('mobile.png');
  });
});".

(** The [default] case. *)
Definition fallbackTemplate (testName : string) : string :=
  "import { test, expect } from '@playwright/test';

test.describe('" +:+
  testName +:+
  "', () => {
  test('basic test', async ({ page }) => {
    await page.goto('/');
    expect(await page.title()).not.toBe('');
  });
});".

(** *** What the templates are documented to hold *)

(** The status code the method table documents for a method. *)
Definition expectedStatus (method : string) : string :=
  if String.eqb method "post" then "201" else "200".

(** The methods the method table gives a request payload. *)
Definition sendsPayload (method : string) : bool :=
  String.eqb method "post" || String.eqb method "put"
  || String.eqb method "patch".

(** The text up to the next apostrophe. *)
Fixpoint untilApostrophe (s : string) : string :=
  match s with
  | EmptyString => EmptyString
  | String c s' =>
      if Ascii.eqb c "'" then EmptyString else String c (untilApostrophe s')
  end.

(** The titles of the tests a generated text declares: what follows each
    [test('] up to the closing apostrophe. *)
Fixpoint testTitles (s : string) : list string :=
  (if startsWith "test('" s then [untilApostrophe (drop 6 s)] else [])
  ++ match s with
     | EmptyString => []
     | String _ s' => testTitles s'
     end.

(** The URL of the default WebSocket test. *)
Definition defaultSocketUrl : string := "ws://localhost:3000/ws".

(** [testTarget === target]. *)
Definition targetIs (appInfo : AppInfo) (target : string) : bool :=
  match testTarget appInfo with
  | Some t => String.eqb t target
  | None => false
  end.

(** The [switch] of [generateTestContent]: the text it writes to the test
    file. *)
Definition testTemplate (testType testName : string)
    (appInfo : option AppInfo) : string :=
  let type := toLowerCase testType in
  if String.eqb type "api" then
    match appInfo ≫= selectedEndpoint with
    | Some endpoint => apiEndpointTemplate testName endpoint
    | None => apiGenericTemplate testName
    end
  else if String.eqb type "e2e" || String.eqb type "ui" then
    match appInfo with
    | Some info =>
        match (if targetIs info "route" then selectedRoute info else None) with
        | Some route => routeTemplate testName (Scanner.routePath route)
        | None =>
            match (if targetIs info "component"
                   then selectedComponent info else None) with
            | Some component =>
                componentTemplate testName (componentName component)
            | None =>
                if targetIs info "form"
                then formTemplate testName (orElse (formPath info) "/")
                else if truthy (testUrl info)
                then urlTemplate testName (orEmpty (testUrl info))
                else generateGenericUITest testName
            end
        end
    | None => generateGenericUITest testName
    end
  else if String.eqb type "websocket" || String.eqb type "ws" then
    if truthy (appInfo ≫= socketUrl)
    then socketUrlTemplate testName (orEmpty (appInfo ≫= socketUrl))
    else socketDefaultTemplate testName
  else if String.eqb type "performance" || String.eqb type "perf" then
    performanceTemplate testName
  else if String.eqb type "visual" then visualTemplate testName
  else fallbackTemplate testName.

End Templates.

(** ** Naming and writing of generated tests (generateTest) *)

Module Generate.
Import Js Templates.

(** The file system as the program sees it from [process.cwd()]: the
    directories that exist and the files with their contents, each by
    the path [path.relative] gives it from the working directory.  The
    working directory and the directories above it exist and are not
    listed.  Paths are POSIX paths, and names are the same when their
    code units are. *)
Record FileSystem : Type := {
  dirs : gset string;
  files : gmap string string
}.

(** [fs.existsSync] of the path with the relative form [path], for a
    path below the working directory that no separator ends. *)
Definition existsSync (fs : FileSystem) (path : string) : bool :=
  bool_decide (path ∈ dirs fs) || bool_decide (is_Some (files fs !! path)).

(** The file system after a write to [path] that succeeds: the file is
    created or overwritten. *)
Definition written (path data : string) (fs : FileSystem) : FileSystem :=
  {| dirs := dirs fs; files := <[path := data]> (files fs) |}.

(** *** Paths *)

(** An absolute path as [path.join] returns it: the names from the root
    down, and whether a separator ends it. *)
Record Path : Type := {
  names : list string;
  trailingSeparator : bool
}.

(** [process.cwd()], given by the names of its directories from the
    root down. *)
Definition workingDirectory (cwd : list string) : Path :=
  {| names := cwd; trailingSeparator := false |}.

(** One segment of an argument of [path.join], on top of the names met
    so far, the innermost first: an empty segment and [.] change
    nothing, [..] leaves the innermost directory, and stays at the root
    when there is none. *)
Definition enter (stack : list string) (segment : string) : list string :=
  if String.eqb segment EmptyString || String.eqb segment "." then stack
  else if String.eqb segment ".." then tl stack
  else segment :: stack.

Definition resolve (from : list string) (argument : string) : list string :=
  rev (fold_left enter (Scanner.segments argument) (rev from)).

(** [path.join(dir, argument)] for an absolute [dir] that [path.join]
    returned: an empty argument is skipped, and the separator at the end
    of the argument is kept unless the result is the root. *)
Definition pathJoin (dir : Path) (argument : string) : Path :=
  match argument with
  | EmptyString => dir
  | String _ _ =>
      let below := resolve (names dir) argument in
      {| names := below;
         trailingSeparator :=
           endsWith "/" argument
           && match below with [] => false | _ :: _ => true end |}
  end.

(** [path.relative(process.cwd(), path)] in two parts: how many
    directories up from the working directory, and the names from there
    down. *)
Fixpoint relativeTo (cwd below : list string) : nat * list string :=
  match cwd, below with
  | c :: cwd', n :: below' =>
      if String.eqb c n then relativeTo cwd' below'
      else (List.length cwd, below)
  | _, _ => (List.length cwd, below)
  end.

Fixpoint joinNames (segments : list string) : string :=
  match segments with
  | [] => EmptyString
  | [name] => name
  | name :: rest => name +:+ "/" +:+ joinNames rest
  end.

(** The relative form of a path: the key of its entry in the file
    system. *)
Definition keyOf (cwd : list string) (path : Path) : string :=
  let '(up, down) := relativeTo cwd (names path) in
  joinNames (repeat ".." up ++ down).

(** The path is a directory: the working directory or one above it, or
    a directory of the file system. *)
Definition isDirectory (cwd : list string) (fs : FileSystem) (path : Path)
  : bool :=
  match snd (relativeTo cwd (names path)) with
  | [] => true
  | _ :: _ => bool_decide (keyOf cwd path ∈ dirs fs)
  end.

(** The path is a file: a path that a separator ends is none. *)
Definition isFile (cwd : list string) (fs : FileSystem) (path : Path)
  : bool :=
  match snd (relativeTo cwd (names path)) with
  | [] => false
  | _ :: _ =>
      negb (trailingSeparator path)
      && bool_decide (is_Some (files fs !! keyOf cwd path))
  end.

(** [fs.existsSync(path)]. *)
Definition existsPath (cwd : list string) (fs : FileSystem) (path : Path)
  : bool :=
  isDirectory cwd fs path || isFile cwd fs path.

(** The keys of the directories from the place where the path leaves
    the working directory, or a directory above it, down to the path
    itself. *)
Definition keysDown (cwd : list string) (path : Path) : list string :=
  let '(up, down) := relativeTo cwd (names path) in
  map (fun k => joinNames (repeat ".." up ++ firstn k down))
    (seq 1 (List.length down)).

(** [fs.mkdirSync(path, { recursive: true })]: every directory on the
    way that is missing is made; [None] is the exception thrown when a
    file is in the way. *)
Definition mkdirSync (cwd : list string) (path : Path) (fs : FileSystem)
  : option FileSystem :=
  if existsb (fun key => bool_decide (is_Some (files fs !! key)))
       (keysDown cwd path)
  then None
  else Some {| dirs := list_to_set (keysDown cwd path) ∪ dirs fs;
               files := files fs |}.

(** The directory that holds the path. *)
Definition parent (path : Path) : Path :=
  {| names := removelast (names path); trailingSeparator := false |}.

(** [fs.writeFileSync(path, data)]: the file is created or overwritten;
    [None] is the exception thrown when the path is a directory or ends
    with a separator, or when the directory that is to hold the file is
    missing or is no directory. *)
Definition writeFileSync (cwd : list string) (path : Path) (data : string)
    (fs : FileSystem) : option FileSystem :=
  if trailingSeparator path || isDirectory cwd fs path then None
  else if isDirectory cwd fs (parent path)
  then Some (written (keyOf cwd path) data fs)
  else None.

(** [generateTestContent(testPath, testType, testName, options)]. *)
Definition generateTestContent (cwd : list string) (testPath : Path)
    (testType testName : string) (appInfo : option AppInfo)
    (fs : FileSystem) : option FileSystem :=
  writeFileSync cwd testPath (testTemplate testType testName appInfo) fs.

(** *** Names *)

(** The first [switch] of [generateTest]: the directory of the category. *)
Definition targetDirOf (testType : string) : string :=
  let type := toLowerCase testType in
  if String.eqb type "api" then "api"
  else if String.eqb type "e2e" || String.eqb type "ui" then "e2e"
  else if String.eqb type "websocket" || String.eqb type "ws"
  then "websocket"
  else if String.eqb type "performance" || String.eqb type "perf"
  then "performance"
  else if String.eqb type "visual" then "visual"
  else testType.

(** The length of the white space at the start of [s]. *)
Fixpoint spaceRun (s : string) : nat :=
  match s with
  | EmptyString => 0
  | String c s' => if isSpace c then S (spaceRun s') else 0
  end.

(** [/\s+/g] with the replacement ['-']. *)
Definition spacesAt (before rest : string) : option (nat * string) :=
  match spaceRun rest with
  | 0 => None
  | n => Some (n, "-")
  end.

(** [testName.replace(/\s+/g, '-').toLowerCase()]. *)
Definition slug (testName : string) : string :=
  toLowerCase (replaceGlobal spacesAt testName).

(** A time stamp [Date.now()] in a template literal: its decimal digits. *)
Definition decimal (n : N) : string :=
  NilEmpty.string_of_uint (N.to_uint n).

Definition fileNameOf (testName : string) : string :=
  if includes ".spec." testName then testName
  else slug testName +:+ ".spec.ts".

Definition altFileNameOf (now : N) (testName : string) : string :=
  slug testName +:+ "-" +:+ decimal now +:+ ".spec.ts".

(** The name of a directory entry: not empty, without a separator, and
    neither [.] nor [..]. *)
Definition isName (name : string) : bool :=
  Scanner.plainName name
  && negb (String.eqb name EmptyString || String.eqb name "."
           || String.eqb name "..").

(** *** generateTest *)

(** The test directory structure [generateTest] detects: [None] when
    neither [src/e2e] nor [tests/e2e] exists. *)
Definition basePathOf (cwd : list string) (fs : FileSystem)
  : option string :=
  if existsPath cwd fs (pathJoin (workingDirectory cwd) "src/e2e")
  then Some "src"
  else if existsPath cwd fs (pathJoin (workingDirectory cwd) "tests/e2e")
  then Some "tests"
  else None.

(** How a run of [generateTest] ends: with [process.exit(1)], with an
    exception of the file system, or by returning; the last two with the
    file system they leave. *)
Inductive Run : Type :=
| Exits
| Throws (fs : FileSystem)
| Returns (fs : FileSystem).

(** [generateTest(testType, testName, options)] in the working directory
    [cwd] at time [now]. *)
Definition generateTest (cwd : list string) (now : N)
    (testType testName : string) (appInfo : option AppInfo)
    (fs : FileSystem) : Run :=
  match basePathOf cwd fs with
  | None => Exits
  | Some basePath =>
      let testDir :=
        pathJoin (pathJoin (workingDirectory cwd) basePath)
          (targetDirOf testType) in
      match (if existsPath cwd fs testDir then Some fs
             else mkdirSync cwd testDir fs) with
      | None => Throws fs
      | Some fs =>
          let fileName := fileNameOf testName in
          let testPath := pathJoin testDir fileName in
          let target :=
            if existsPath cwd fs testPath
            then pathJoin testDir (altFileNameOf now testName)
            else testPath in
          match generateTestContent cwd target testType testName appInfo fs
          with
          | None => Throws fs
          | Some fs' => Returns fs'
          end
      end
  end.

(** Sample states: a working directory; an initialised project, the
    same after a first generation of [My Login Flow] in the e2e category
    that a later run at time [1700000000000] collides with, a state where
    the time-stamped name is taken too, and one with a test file that was
    named in full. *)
Definition projectDirectory : list string := ["home"; "dev"; "shop"].

Definition freshProject : FileSystem :=
  {| dirs := {["src"; "src/e2e"]}; files := ∅ |}.

Definition onceGenerated : FileSystem :=
  {| dirs := {["src"; "src/e2e"]};
     files := {["src/e2e/my-login-flow.spec.ts" := "first version"]} |}.

Definition twiceGenerated : FileSystem :=
  {| dirs := {["src"; "src/e2e"]};
     files :=
       <["src/e2e/my-login-flow-1700000000000.spec.ts" := "second version"]>
         {["src/e2e/my-login-flow.spec.ts" := "first version"]} |}.

Definition namedInFull : FileSystem :=
  {| dirs := {["src"; "src/e2e"]};
     files := {["src/e2e/Login Flow.spec.ts" := "first version"]} |}.

End Generate.

(** ** Placeholder substitution (createProject) *)

Module Placeholders.
Import Js.

Module PLACEHOLDERS.
Definition PROJECT_NAME : string := "{{projectName}}".
Definition BASE_URL : string := "{{baseUrl}}".
Definition API_URL : string := "{{apiUrl}}".
Definition ADMIN_EMAIL : string := "{{adminEmail}}".
Definition ADMIN_PASSWORD : string := "{{adminPassword}}".
Definition USER_EMAIL : string := "{{userEmail}}".
Definition USER_PASSWORD : string := "{{userPassword}}".
End PLACEHOLDERS.

(** The answers [createProject] reads from [options]; the credentials may
    be missing. *)
Record Options : Type := {
  baseUrl : string;
  apiUrl : string;
  adminEmail : option string;
  adminPassword : option string;
  userEmail : option string;
  userPassword : option string
}.

(** The files whose content is processed. *)
Definition processed (file : string) : bool :=
  endsWith ".json" file || endsWith ".js" file || endsWith ".ts" file
  || endsWith ".md" file || endsWith ".example" file
  || endsWith ".txt" file || endsWith ".html" file.

(** The chain of seven [replace] calls. *)
Definition replacePlaceholders (projectName : string) (options : Options)
    (content : string) : string :=
  replaceLiteral PLACEHOLDERS.USER_PASSWORD (orEmpty (userPassword options))
    (replaceLiteral PLACEHOLDERS.USER_EMAIL (orEmpty (userEmail options))
      (replaceLiteral PLACEHOLDERS.ADMIN_PASSWORD
         (orEmpty (adminPassword options))
        (replaceLiteral PLACEHOLDERS.ADMIN_EMAIL
           (orEmpty (adminEmail options))
          (replaceLiteral PLACEHOLDERS.API_URL (apiUrl options)
            (replaceLiteral PLACEHOLDERS.BASE_URL (baseUrl options)
              (replaceLiteral PLACEHOLDERS.PROJECT_NAME projectName
                 content)))))).

(** The body of the loop over [filesToProcess]: the content the file has
    afterwards. *)
Definition processFile (projectName : string) (options : Options)
    (file content : string) : string :=
  if processed file then replacePlaceholders projectName options content
  else content.

(** The text of the [.env] file [createProject] writes, a template literal
    over the same options. *)
Definition envContent (options : Options) : string :=
  "# Test Environment (local, staging, production)
TEST_ENV=local

# Admin Credentials
ADMIN_EMAIL=" +:+
  interpolate (adminEmail options) +:+
  "
ADMIN_PASSWORD=" +:+
  interpolate (adminPassword options) +:+
  "

# User Credentials
USER_EMAIL=" +:+
  interpolate (userEmail options) +:+
  "
USER_PASSWORD=" +:+
  interpolate (userPassword options) +:+
  "

# Base URLs
BASE_URL=" +:+
  baseUrl options +:+
  "
API_URL=" +:+
  apiUrl options +:+
  "

# Debug options (uncomment to enable)
# HEADLESS=false
# SLOWMO=100
".


(** *** The documented substitution

    The contract of the substitution engine, in its own words: every
    literal occurrence of each placeholder token is replaced by the
    corresponding configuration value, and all other text is left as it
    is.  [substituteAll] does that in one pass over the content, from left
    to right. *)

(** The tokens with the values the chain gives them, in its order. *)
Definition replacements (projectName : string) (options : Options)
  : list (string * string) :=
  [ (PLACEHOLDERS.PROJECT_NAME, projectName);
    (PLACEHOLDERS.BASE_URL, baseUrl options);
    (PLACEHOLDERS.API_URL, apiUrl options);
    (PLACEHOLDERS.ADMIN_EMAIL, orEmpty (adminEmail options));
    (PLACEHOLDERS.ADMIN_PASSWORD, orEmpty (adminPassword options));
    (PLACEHOLDERS.USER_EMAIL, orEmpty (userEmail options));
    (PLACEHOLDERS.USER_PASSWORD, orEmpty (userPassword options)) ].

Definition tokens : list string :=
  [ PLACEHOLDERS.PROJECT_NAME; PLACEHOLDERS.BASE_URL; PLACEHOLDERS.API_URL;
    PLACEHOLDERS.ADMIN_EMAIL; PLACEHOLDERS.ADMIN_PASSWORD;
    PLACEHOLDERS.USER_EMAIL; PLACEHOLDERS.USER_PASSWORD ].

(** The first token of the table that [rest] starts with, as a match: its
    length and its value. *)
Fixpoint tokenAt (table : list (string * string)) (rest : string)
  : option (nat * string) :=
  match table with
  | [] => None
  | (token, value) :: table' =>
      if startsWith token rest then Some (String.length token, value)
      else tokenAt table' rest
  end.

Definition substituteAll (table : list (string * string))
    (content : string) : string :=
  replaceGlobal (fun _ rest => tokenAt table rest) content.

(** The chain of [replace] calls over a table of tokens and values. *)
Definition chain (table : list (string * string)) (content : string)
  : string :=
  fold_left (fun acc '(t, v) => replaceLiteral t v acc) table content.

(** The match of one literal token when its value is inserted as it is. *)
Definition lit (t v : string) (rest : string) : option (nat * string) :=
  if startsWith t rest then Some (String.length t, v) else None.

(** A value the replacement inserts as it is and that opens no token:
    neither a dollar sign nor an opening brace occurs in it. *)
Definition plainValue (value : string) : bool :=
  every (fun c => negb (Ascii.eqb c "$") && negb (Ascii.eqb c "{")) value.

(** The beginnings of a token: its prefixes that are neither empty nor
    the whole token. *)
Fixpoint beginnings (token : string) : list string :=
  match token with
  | String c ((String _ _) as token') =>
      String c EmptyString :: map (String c) (beginnings token')
  | _ => []
  end.

Definition tokenBeginnings (toks : list string) : list string :=
  flat_map beginnings toks.

(** [before] ends with the beginning of a token. *)
Definition afterBeginning (toks : list string) (before : string) : bool :=
  existsb (fun b => endsWith b before) (tokenBeginnings toks).

(** [rest] starts with a token. *)
Definition atToken (toks : list string) (rest : string) : bool :=
  existsb (fun t => startsWith t rest) toks.

(** No token of the content stands directly behind the beginning of a
    token, as the inner token does in [{{user{{adminEmail}}Password}}] or
    in [{{{baseUrl}}]. *)
Fixpoint wellPlacedFrom (toks : list string) (before s : string) : bool :=
  match s with
  | EmptyString => true
  | String c s' =>
      negb (atToken toks s && afterBeginning toks before)
      && wellPlacedFrom toks (before +:+ String c EmptyString) s'
  end.

Definition wellPlaced (content : string) : bool :=
  wellPlacedFrom tokens EmptyString content.

(** No token starts anywhere in [s]. *)
Fixpoint tokenFree (toks : list string) (s : string) : bool :=
  negb (atToken toks s)
  && match s with
     | EmptyString => true
     | String _ s' => tokenFree toks s'
     end.

(** [a] and [b] differ at a position both have. *)
Fixpoint mismatch (a b : string) : bool :=
  match a, b with
  | String x a', String y b' => negb (Ascii.eqb x y) || mismatch a' b'
  | _, _ => false
  end.

(** No token of [done] can start inside [token], whatever follows it. *)
Fixpoint noneInside (done : list string) (token : string) : bool :=
  match token with
  | EmptyString => true
  | String _ token' =>
      forallb (fun t => mismatch t token) done && noneInside done token'
  end.

(** Each token of [rest] is clear of the tokens before it. *)
Fixpoint chainApart (done rest : list string) : bool :=
  match rest with
  | [] => true
  | token :: rest' =>
      noneInside done token && chainApart (done ++ [token]) rest'
  end.

(** Sample answers: the defaults of the prompts, and the same with a
    password that contains two dollar signs. *)
Definition defaultOptions : Options :=
  {| baseUrl := "http://localhost:3000";
     apiUrl := "http://localhost:3000/api";
     adminEmail := Some "admin@example.com";
     adminPassword := Some "admin_password";
     userEmail := Some "user@example.com";
     userPassword := Some "user_password" |}.

Definition dollarOptions : Options :=
  {| baseUrl := "http://localhost:3000";
     apiUrl := "http://localhost:3000/api";
     adminEmail := Some "admin@example.com";
     adminPassword := Some "pa$$word";
     userEmail := Some "user@example.com";
     userPassword := Some "user_password" |}.

End Placeholders.

(** ** Loops over the matches of a pattern with the [g] flag *)

Module Matching.
Import Js Scanner.

Section Groups.
(** What a match hands to the loop body: the groups the body reads. *)
Variable G : Type.

(** The pattern tried at one position, as in [RegExp]: the code unit
    before the position and the subject from it on give the length of
    the match and its groups. *)
Definition Matcher : Type := option ascii -> string -> option (nat * G).

(** The search of [exec] from index [idx] on. *)
Fixpoint search (m : Matcher) (prev : option ascii) (rest : string)
    (idx : nat) : option (nat * nat * G) :=
  match m prev rest with
  | Some (len, g) => Some (idx, len, g)
  | None =>
      match rest with
      | EmptyString => None
      | String c rest' => search m (Some c) rest' (S idx)
      end
  end.

(** [pattern.exec(content)] with the [g] flag: the groups, or [None] for
    [null], and the new [lastIndex]. *)
Definition execGlobal (m : Matcher) (content : string) (lastIndex : nat)
  : option G * nat :=
  if String.length content <? lastIndex then (None, 0)
  else
    match search m (charBefore lastIndex content)
            (drop lastIndex content) lastIndex with
    | Some (idx, len, g) => (Some g, idx + len)
    | None => (None, 0)
    end.

(** What the loop collects. *)
Variable A : Type.

(** [while ((match = pattern.exec(content)) !== null) body]; [fuel]
    bounds the number of calls of [exec]. *)
Fixpoint execWhile (fuel : nat) (m : Matcher) (body : G -> list A -> list A)
    (content : string) (lastIndex : nat) (acc : list A)
  : option (list A) :=
  match fuel with
  | 0 => None
  | S fuel' =>
      match execGlobal m content lastIndex with
      | (None, _) => Some acc
      | (Some g, lastIndex') =>
          execWhile fuel' m body content lastIndex' (body g acc)
      end
  end.

(** A pattern whose matches are never empty and lie inside the subject. *)
Definition advancing (m : Matcher) : Prop :=
  forall prev rest len g,
    m prev rest = Some (len, g) -> 1 <= len <= String.length rest.
End Groups.

(** An alternation [(a1|a2|...)] followed by the rest of the pattern [k]:
    the alternatives are tried in order, and one whose continuation
    fails gives way to the next. *)
Fixpoint firstAlternative {R : Type} (alternatives : list string)
    (rest : string) (k : string -> string -> option R) : option R :=
  match alternatives with
  | [] => None
  | a :: alternatives' =>
      match literal a rest ≫= k a with
      | Some found => Some found
      | None => firstAlternative alternatives' rest k
      end
  end.

(** The group [(\/U)] between quotes, where [U] is any number of code
    units that are no quote: the rest after the closing quote, and the
    group. *)
Definition quotedPath (s : string) : option (string * string) :=
  r1 ← quote s;
  r2 ← literal "/" r1;
  let '(tail, r3) := untilQuote r2 in
  r4 ← quote r3;
  Some (r4, "/" +:+ tail).

End Matching.

(** ** API endpoints (analyzeApiEndpoints) *)

Module ApiScan.
Import Js Scanner Templates Matching.

(** [toUpperCase] on the ASCII letters, which is all group 1 of the two
    route patterns can hold. *)
Definition toUpperCaseChar (c : ascii) : ascii :=
  let n := code c in
  if (97 <=? n) && (n <=? 122) then ascii_of_nat (n - 32) else c.

Fixpoint toUpperCase (s : string) : string :=
  match s with
  | EmptyString => EmptyString
  | String c s' => String (toUpperCaseChar c) (toUpperCase s')
  end.

(** The tail of both route patterns: [\s*\(\s*] and the quoted path. *)
Definition routeArgument (s : string) : option (string * string) :=
  r1 ← literal "(" (skipSpaces s);
  quotedPath (skipSpaces r1).

(** The pattern [app\.(get|post|put|delete|patch)\s*\(\s*Q(\/U)Q] with
    the [g] flag; the groups are the verb and the path. *)
Definition expressRoutesPattern : Matcher (string * string) :=
  fun _ rest =>
    r1 ← literal "app." rest;
    firstAlternative ["get"; "post"; "put"; "delete"; "patch"] r1
      (fun verb r2 =>
         '(after, path) ← routeArgument r2;
         Some (matchLength rest after, (verb, path))).

(** The pattern [@(Get|Post|Put|Delete|Patch)\s*\(\s*Q(\/U)Q] with the
    [g] flag. *)
Definition nestRoutesPattern : Matcher (string * string) :=
  fun _ rest =>
    r1 ← literal "@" rest;
    firstAlternative ["Get"; "Post"; "Put"; "Delete"; "Patch"] r1
      (fun verb r2 =>
         '(after, path) ← routeArgument r2;
         Some (matchLength rest after, (verb, path))).

(** The body of both loops:
    [appInfo.endpoints.push({ method, path, file })]. *)
Definition pushEndpoint (file : string) (groups : string * string)
    (endpoints : list Endpoint) : list Endpoint :=
  endpoints
  ++ [{| endpointMethod := toUpperCase (fst groups);
         endpointPath := snd groups;
         endpointFile := Some file |}].

(** The check for authentication endpoints. *)
Definition mentionsAuthentication (content : string) : bool :=
  includes "login" content || includes "signin" content
  || includes "authenticate" content || includes "auth" content.

(** What the scan changes in [appInfo]. *)
Record ApiFindings : Type := {
  endpoints : list Endpoint;
  hasAuthentication : bool
}.

(** The body of the loop over [files] for one file and its content. *)
Definition scanApiFile (fuel : nat) (found : ApiFindings)
    (file content : string) : option ApiFindings :=
  express ← execWhile _ _ fuel expressRoutesPattern (pushEndpoint file)
              content 0 (endpoints found);
  nest ← execWhile _ _ fuel nestRoutesPattern (pushEndpoint file)
           content 0 express;
  Some {| endpoints := nest;
          hasAuthentication :=
            if mentionsAuthentication content then true
            else hasAuthentication found |}.

Fixpoint scanApiFiles (fuel : nat) (files : list (string * string))
    (found : ApiFindings) : option ApiFindings :=
  match files with
  | [] => Some found
  | (file, content) :: rest =>
      found' ← scanApiFile fuel found file content;
      scanApiFiles fuel rest found'
  end.

(** The scan of [analyzeApiEndpoints], before it asks which endpoint to
    test. *)
Definition analyzeApiEndpoints (fuel : nat) (files : list (string * string))
  : option ApiFindings :=
  scanApiFiles fuel files {| endpoints := []; hasAuthentication := false |}.

(** The HTTP verbs an endpoint can carry. *)
Definition verbs : list string := ["GET"; "POST"; "PUT"; "DELETE"; "PATCH"].

(** The file of the end-to-end scenario: two routes on one path. *)
Definition usersRoutes : string :=
  "app.get('/users', listUsers);
app.post('/users', createUser);".

End ApiScan.

(** ** Framework detection (detectFramework) *)

Module Framework.
Import Js.

(** [{ ...packageJson.dependencies, ...packageJson.devDependencies }]: a
    key of both gets the value of the second. *)
Definition allDependencies (dependencies devDependencies : gmap string string)
  : gmap string string :=
  devDependencies ∪ dependencies.

(** [dependencies.name] as a condition: the key is there with a version
    that is not the empty string. *)
Definition listed (dependencies : gmap string string) (name : string)
  : bool :=
  truthy (dependencies !! name).

Definition detectFramework (dependencies : gmap string string) : string :=
  if listed dependencies "react" then "React"
  else if listed dependencies "vue" then "Vue"
  else if listed dependencies "angular" then "Angular"
  else if listed dependencies "express" then "Express"
  else if listed dependencies "next" then "Next.js"
  else if listed dependencies "nuxt" then "Nuxt.js"
  else if listed dependencies "nest" then "NestJS"
  else if listed dependencies "@nestjs/core" then "NestJS"
  else "Unknown".

End Framework.

(** ** UI components and routes (analyzeUiStructure) *)

Module UiScan.
Import Js Scanner Templates Matching.

Definition isCapital (c : ascii) : bool :=
  let n := code c in (65 <=? n) && (n <=? 90).

Definition isAlphanumeric (c : ascii) : bool :=
  let n := code c in
  ((65 <=? n) && (n <=? 90)) || ((97 <=? n) && (n <=? 122))
  || ((48 <=? n) && (n <=? 57)).

(** The greedy [[a-zA-Z0-9]*]: the run and the rest after it. *)
Fixpoint alphanumericRun (s : string) : string * string :=
  match s with
  | EmptyString => (EmptyString, EmptyString)
  | String c s' =>
      if isAlphanumeric c
      then let '(run, rest) := alphanumericRun s' in (String c run, rest)
      else (EmptyString, s)
  end.

(** [[A-Z][a-zA-Z0-9]*]: the name and the rest after it. *)
Definition capitalizedName (s : string) : option (string * string) :=
  match s with
  | String c s' =>
      if isCapital c
      then let '(run, rest) := alphanumericRun s' in Some (String c run, rest)
      else None
  | EmptyString => None
  end.

(** The names [[A-Z][a-zA-Z0-9]*] matches in full. *)
Definition capitalized (name : string) : bool :=
  match name with
  | String c tail => isCapital c && every isAlphanumeric tail
  | EmptyString => false
  end.

(** Group 2 of the component pattern: a declaration keyword, white space
    and a name (group 4), or else a name alone (group 5). *)
Definition exportedName (s : string) : option (string * string) :=
  match firstAlternative ["function"; "const"; "class"] s
          (fun _ r => someSpaces r ≫= capitalizedName) with
  | Some found => Some found
  | None => capitalizedName s
  end.

(** The pattern
    [export\s+(default\s+)?((function|const|class)\s+(N)|(N))] with the
    [g] flag, where [N] is [[A-Z][a-zA-Z0-9]*]; the loop body reads
    group 4 or else group 5, here the one group. *)
Definition componentPattern : Matcher string :=
  fun _ rest =>
    r1 ← literal "export" rest;
    r2 ← someSpaces r1;
    '(name, after) ←
      match (literal "default" r2 ≫= someSpaces) ≫= exportedName with
      | Some found => Some found
      | None => exportedName r2
      end;
    Some (matchLength rest after, name).

(** The pattern [<Route\s+path=Q(\/U)Q] with the [g] flag. *)
Definition routePattern : Matcher string :=
  fun _ rest =>
    r1 ← literal "<Route" rest;
    r2 ← someSpaces r1;
    r3 ← literal "path=" r2;
    '(after, path) ← quotedPath r3;
    Some (matchLength rest after, path).

(** The pattern [\s+path:\s*Q(\/U)Q] with the [g] flag. *)
Definition nextRoutePattern : Matcher string :=
  fun _ rest =>
    r1 ← someSpaces rest;
    r2 ← literal "path:" r1;
    '(after, path) ← quotedPath (skipSpaces r2);
    Some (matchLength rest after, path).

(** The body of the component loop: the name is pushed when it is not
    empty. *)
Definition pushComponent (file name : string) (components : list Component)
  : list Component :=
  if truthy (Some name)
  then components ++ [{| componentName := name; componentFile := file |}]
  else components.

(** The body of the two route loops. *)
Definition pushRoute (file path : string) (routes : list Route)
  : list Route :=
  routes ++ [{| routePath := path; routeFile := file |}].

(** The check for forms. *)
Definition mentionsForm (content : string) : bool :=
  includes "<form" content || includes "<Form" content
  || includes "onSubmit" content || includes "handleSubmit" content.

(** What the scan changes in [appInfo]. *)
Record UiFindings : Type := {
  components : list Component;
  routes : list Route;
  hasForms : bool
}.

(** The first loop over [componentFiles]: components and forms. *)
Fixpoint scanComponents (fuel : nat) (files : list (string * string))
    (found : UiFindings) : option UiFindings :=
  match files with
  | [] => Some found
  | (file, content) :: rest =>
      names ← execWhile _ _ fuel componentPattern (pushComponent file)
                content 0 (components found);
      scanComponents fuel rest
        {| components := names;
           routes := routes found;
           hasForms :=
             if mentionsForm content then true else hasForms found |}
  end.

(** The second loop over [componentFiles]: routes. *)
Fixpoint scanRoutes (fuel : nat) (files : list (string * string))
    (found : UiFindings) : option UiFindings :=
  match files with
  | [] => Some found
  | (file, content) :: rest =>
      router ← execWhile _ _ fuel routePattern (pushRoute file)
                 content 0 (routes found);
      config ← execWhile _ _ fuel nextRoutePattern (pushRoute file)
                 content 0 router;
      scanRoutes fuel rest
        {| components := components found;
           routes := config;
           hasForms := hasForms found |}
  end.

(** The scan of [analyzeUiStructure], before it asks what to test:
    [componentFiles] are the files [findFiles] returns for [.jsx] and
    [.tsx] with their contents, [pagesListing] is the listing of the
    pages directory, [None] when there is none. *)
Definition analyzeUiStructure (fuel : nat) (framework : string)
    (componentFiles : list (string * string))
    (pagesDir : string) (pagesListing : option (list Dirent))
  : option UiFindings :=
  let nothing := {| components := []; routes := []; hasForms := false |} in
  if String.eqb framework "React" || String.eqb framework "Next.js" then
    found ← scanComponents fuel componentFiles nothing;
    found' ← scanRoutes fuel componentFiles found;
    Some {| components := components found';
            routes := routes found' ++ scanPages pagesDir pagesListing;
            hasForms := hasForms found' |}
  else Some nothing.

End UiScan.

(** ** The URLs offered after the websocket scan (analyzeWebSockets) *)

Module SocketUrls.
Import Js Scanner.

(** [[...new Set(values)]]: each value once, in the order of the first
    occurrences; [seen] holds the values met so far. *)
Fixpoint setValues (seen values : list string) : list string :=
  match values with
  | [] => []
  | v :: values' =>
      if existsb (String.eqb v) seen then setValues seen values'
      else v :: setValues (v :: seen) values'
  end.

Definition uniqueUrls (impls : list SocketImplementation) : list string :=
  setValues []
    (map (fun impl => orEmpty (implUrl impl))
       (List.filter (fun impl => truthy (implUrl impl)) impls)).

(** The question the function asks next. *)
Inductive UrlQuestion : Type :=
| SelectUrl (choices : list string)
| EnterUrl (default : string).

Definition urlQuestion (impls : list SocketImplementation) : UrlQuestion :=
  if 0 <? List.length impls then
    if 0 <? List.length (uniqueUrls impls)
    then SelectUrl (uniqueUrls impls)
    else EnterUrl "ws://localhost:3000/ws"
  else EnterUrl "ws://localhost:3000/ws".

End SocketUrls.

(** ** Setting a project up (createProject, initTestingInExistingProject)
       and running its tests (the test command) *)

Module Project.
Import Js Generate Placeholders.
















End Project.

(** * Properties *)

(** ** Strings *)

Module StringFacts.
Import Js.

Lemma append_nil_r s : s +:+ EmptyString = s.
Proof. induction s as [|c s IH]; simpl; congruence. Qed.

Lemma append_assoc a b c : (a +:+ b) +:+ c = a +:+ (b +:+ c).
Proof. induction a as [|x a IH]; simpl; congruence. Qed.

Lemma length_append a b :
  String.length (a +:+ b) = String.length a + String.length b.
Proof. induction a as [|x a IH]; simpl; congruence. Qed.

Lemma append_cancel_l a b c : a +:+ b = a +:+ c -> b = c.
Proof.
  induction a as [|x a IH]; simpl; [auto|].
  intros H. injection H as H. auto.
Qed.

Lemma startsWith_append p s : startsWith p (p +:+ s) = true.
Proof.
  induction p as [|c p IH]; simpl; [reflexivity|].
  now rewrite Ascii.eqb_refl.
Qed.

Lemma startsWith_split p s :
  startsWith p s = true -> s = p +:+ drop (String.length p) s.
Proof.
  revert s. induction p as [|c p IH]; intros [|d s]; simpl; try easy.
  intros H. apply andb_prop in H as [Hc Hp].
  apply Ascii.eqb_eq in Hc as ->. now rewrite <- IH.
Qed.

Lemma drop_append x s : drop (String.length x) (x +:+ s) = s.
Proof. induction x as [|c x IH]; simpl; auto. Qed.

Lemma length_of_drop n s : String.length (drop n s) = String.length s - n.
Proof.
  revert n. induction s as [|c s IH]; intros [|n]; simpl; auto.
Qed.

Lemma endsWith_spec suf s :
  endsWith suf s = true <-> exists pre, s = pre +:+ suf.
Proof.
  split.
  - induction s as [|c s IH]; simpl; intros H.
    + rewrite orb_false_r in H. apply String.eqb_eq in H as ->.
      now exists EmptyString.
    + apply orb_prop in H as [H | H].
      * apply String.eqb_eq in H as ->. now exists EmptyString.
      * destruct (IH H) as [pre ->]. now exists (String c pre).
  - intros [pre ->]. induction pre as [|c pre IH]; simpl.
    + destruct suf; simpl; [reflexivity|].
      now rewrite Ascii.eqb_refl, String.eqb_refl.
    + rewrite IH. apply orb_true_r.
Qed.

Lemma endsWith_extend p before c :
  endsWith p before = true ->
  endsWith (p +:+ String c EmptyString) (before +:+ String c EmptyString)
  = true.
Proof.
  intros H. apply endsWith_spec in H as [pre ->].
  apply endsWith_spec. exists pre. now rewrite append_assoc.
Qed.

Lemma endsWith_last before c :
  endsWith (String c EmptyString) (before +:+ String c EmptyString) = true.
Proof. apply endsWith_spec. now exists before. Qed.

(** [whole] has [part] somewhere inside. *)
Lemma inside_here part tail :
  exists head tail', part +:+ tail = head +:+ part +:+ tail'.
Proof. now exists EmptyString, tail. Qed.

Lemma inside_later part a whole :
  (exists head tail, whole = head +:+ part +:+ tail) ->
  exists head tail, a +:+ whole = head +:+ part +:+ tail.
Proof.
  intros (head & tail & ->). exists (a +:+ head), tail.
  now rewrite append_assoc.
Qed.

End StringFacts.

(** ** Directory traversal *)

Module ScannerFacts.
Import Js Scanner StringFacts.

(** Induction over a directory tree: a directory entry may assume the
    property of all its entries. *)
Lemma Dirent_tree_ind (P : Dirent -> Prop) :
  (forall name, P (FileEnt name)) ->
  (forall name, P (OtherEnt name)) ->
  (forall name entries, Forall P entries -> P (DirEnt name entries)) ->
  forall e, P e.
Proof.
  intros file_case other_case dir_case.
  fix tree 1. intros [name | name entries | name].
  - apply file_case.
  - apply dir_case. induction entries as [|e entries IH].
    + constructor.
    + constructor; [apply tree | exact IH].
  - apply other_case.
Qed.

Lemma skippedDir_excluded name :
  skippedDir name = false <-> ~ In name excludedNames.
Proof.
  unfold skippedDir, excludedNames. simpl.
  rewrite !orb_false_iff, !String.eqb_neq. intuition congruence.
Qed.

Lemma FileAt_weaken e entries dirNames name :
  In e entries -> FileAt [e] dirNames name -> FileAt entries dirNames name.
Proof.
  intros He Hat.
  inversion Hat as [? ? Hin | ? ? ? ? ? Hin Hsub]; subst;
    destruct Hin as [Heq | []]; subst e.
  - now constructor.
  - econstructor; eauto.
Qed.

(** What one entry contributes is a file of the tree, reached through
    directories [findFiles] enters, with one of the extensions. *)
Lemma findFilesEntry_sound extensions e :
  forall dir p,
    In p (findFilesEntry dir extensions e) ->
    exists dirNames name,
      FileAt [e] dirNames name
      /\ Forall (fun d => ~ In d excludedNames) dirNames
      /\ hasExtension extensions name = true
      /\ p = pathOf dir dirNames name.
Proof.
  induction e as [name | name | name entries IH] using Dirent_tree_ind;
    intros dir p Hp; simpl in Hp.
  - destruct (hasExtension extensions name) eqn:Hext; [|contradiction].
    destruct Hp as [<- | []].
    exists [], name. repeat split; auto.
    constructor. now left.
  - contradiction.
  - destruct (skippedDir name) eqn:Hskip; [contradiction|].
    apply in_flat_map in Hp as (e & He & Hp).
    rewrite List.Forall_forall in IH.
    destruct (IH e He _ _ Hp) as (ds & f & Hat & Hds & Hext & ->).
    exists (name :: ds), f. repeat split; auto.
    + econstructor; [now left|].
      eapply FileAt_weaken; eauto.
    + constructor; [now apply skippedDir_excluded | assumption].
Qed.

(** The path of a file is the root, a separator and the relative path. *)
Lemma pathOf_relative dirNames :
  forall dir name,
    pathOf dir dirNames name = pathJoin dir (relativeOf dirNames name).
Proof.
  unfold pathOf.
  induction dirNames as [|d dirNames IH]; intros dir name; [reflexivity|].
  cbn [fold_left relativeOf]. rewrite IH. unfold pathJoin.
  now rewrite !append_assoc.
Qed.

Lemma pathRelative_pathJoin dir rel : pathRelative dir (pathJoin dir rel) = rel.
Proof.
  unfold pathRelative, pathJoin.
  rewrite <- append_assoc, startsWith_append.
  replace (String.length dir + 1) with (String.length (dir +:+ "/"))
    by (rewrite length_append; reflexivity).
  apply drop_append.
Qed.

Lemma segments_plain name : plainName name = true -> segments name = [name].
Proof.
  unfold plainName. induction name as [|c name IH]; [reflexivity|].
  cbn [every segments]. intros H. apply andb_prop in H as [Hc Hn].
  apply negb_true_iff in Hc. now rewrite Hc, (IH Hn).
Qed.

Lemma segments_join name rest :
  plainName name = true ->
  segments (name +:+ "/" +:+ rest) = name :: segments rest.
Proof.
  unfold plainName. induction name as [|c name IH]; [reflexivity|].
  cbn [every]. intros H. apply andb_prop in H as [Hc Hn].
  apply negb_true_iff in Hc.
  change (String c name +:+ "/" +:+ rest)
    with (String c (name +:+ "/" +:+ rest)).
  cbn [segments]. now rewrite Hc, (IH Hn).
Qed.

Lemma segments_relativeOf dirNames name :
  Forall (fun d => plainName d = true) dirNames ->
  plainName name = true ->
  segments (relativeOf dirNames name) = dirNames ++ [name].
Proof.
  intros Hds Hname. induction Hds as [|d dirNames Hd Hds IH].
  - now apply segments_plain.
  - cbn [relativeOf]. rewrite (segments_join _ _ Hd), IH. reflexivity.
Qed.

Lemma FileAt_plain entries dirNames name :
  FileAt entries dirNames name ->
  forallb plainNames entries = true ->
  Forall (fun d => plainName d = true) dirNames /\ plainName name = true.
Proof.
  induction 1 as [entries name Hin | entries d sub ds name Hin Hat IH];
    intros Hplain; rewrite forallb_forall in Hplain;
    apply Hplain in Hin; cbn [plainNames] in Hin.
  - split; [constructor | exact Hin].
  - apply andb_prop in Hin as [Hd Hsub].
    destruct (IH Hsub) as [Hds Hname]. split; [constructor|]; assumption.
Qed.

(** C8.  Every path [findFiles] returns is the path of a file of the tree
    whose enclosing directories, at every depth below the root, are named
    neither [node_modules] nor [.git] nor [dist] nor [build]: the
    traversal returns nothing from such a directory or its subtree.
    When the names of the tree hold no separator, these directories are
    the directory segments of the returned path relative to the root, so
    no segment of it is one of the four names. *)
Theorem findFiles_never_below_excluded dir listing extensions p :
  In p (findFiles dir listing extensions) ->
  exists entries dirNames name,
    listing = Some entries
    /\ FileAt entries dirNames name
    /\ Forall (fun d => ~ In d excludedNames) dirNames
    /\ hasExtension extensions name = true
    /\ p = pathOf dir dirNames name
    /\ (forallb plainNames entries = true ->
        segments (pathRelative dir p) = dirNames ++ [name]).
Proof.
  destruct listing as [entries|]; simpl; [|contradiction].
  intros Hp. apply in_flat_map in Hp as (e & He & Hp).
  destruct (findFilesEntry_sound _ _ _ _ Hp) as (ds & f & Hat & Hds & Hext & ->).
  apply (FileAt_weaken _ entries) in Hat; [|exact He].
  exists entries, ds, f. repeat split; auto.
  intros Hplain. destruct (FileAt_plain _ _ _ Hat Hplain) as [Hpd Hpf].
  rewrite pathOf_relative, pathRelative_pathJoin.
  now apply segments_relativeOf.
Qed.

(** On the sample tree the one file returned lies under neither of the
    two excluded directories. *)
Lemma findFiles_never_below_excluded_witness :
  findFiles "/app" (Some sampleTree) [".js"; ".ts"] = ["/app/src/app.ts"]
  /\ segments (pathRelative "/app" "/app/src/app.ts") = ["src"; "app.ts"]
  /\ exists entries dirNames name,
       Some sampleTree = Some entries
       /\ FileAt entries dirNames name
       /\ Forall (fun d => ~ In d excludedNames) dirNames
       /\ hasExtension [".js"; ".ts"] name = true
       /\ "/app/src/app.ts" = pathOf "/app" dirNames name
       /\ (forallb plainNames entries = true ->
           segments (pathRelative "/app" "/app/src/app.ts")
           = dirNames ++ [name]).
Proof.
  split; [reflexivity|]. split; [reflexivity|].
  apply (findFiles_never_below_excluded "/app" _ [".js"; ".ts"]).
  simpl. left. reflexivity.
Defined.

(** The converse: a file with one of the extensions that is reached
    through directories outside the excluded names is returned. *)
Lemma findFiles_complete dir entries extensions dirNames name :
  FileAt entries dirNames name ->
  Forall (fun d => ~ In d excludedNames) dirNames ->
  hasExtension extensions name = true ->
  In (pathOf dir dirNames name) (findFiles dir (Some entries) extensions).
Proof.
  intros Hat. revert dir.
  induction Hat as [entries name Hin | entries d sub ds name Hin Hat IH];
    intros dir Hds Hext; simpl; apply in_flat_map.
  - exists (FileEnt name). split; [assumption|].
    simpl. rewrite Hext. now left.
  - exists (DirEnt d sub). split; [assumption|].
    inversion Hds as [|? ? Hd Hds']; subst.
    simpl. apply skippedDir_excluded in Hd. rewrite Hd.
    apply (IH (pathJoin dir d) Hds' Hext).
Qed.

End ScannerFacts.

(** ** Routes of a pages directory *)

Module PagesFacts.
Import Js Scanner.

(** C2, at the page [pages/index.tsx].  The parameter segment of
    [pages/users/[id].tsx] is rewritten as documented, but the index page
    at the top of the pages directory is not collapsed to the root: its
    relative path [index.tsx] has no separator before [index], so the
    pattern [/index] at the end does not match, the derived route is
    [/index], it differs from [/], and the scan keeps it in the route
    list.  An index page one level down is collapsed. *)
Theorem top_level_index_page_is_not_excluded :
  pageRoute "users/[id].tsx" = "/users/:id"
  /\ pageRoute "users/index.tsx" = "/users"
  /\ pageRoute "index.tsx" = "/index"
  /\ scanPages "pages"
       (Some [FileEnt "index.tsx"; DirEnt "users" [FileEnt "[id].tsx"]])
     = [ {| routePath := "/index"; routeFile := "pages/index.tsx" |};
         {| routePath := "/users/:id";
            routeFile := "pages/users/[id].tsx" |} ].
Proof. repeat split; reflexivity. Qed.

(** The same for every extension the pages pass looks for. *)
Lemma top_level_index_route ext :
  In ext [".js"; ".jsx"; ".ts"; ".tsx"] ->
  pageRoute ("index" +:+ ext) = "/index".
Proof.
  simpl. intros [<- | [<- | [<- | [<- | []]]]]; reflexivity.
Qed.

Lemma replaceAtEnd_empty X s :
  replaceAtEnd X s = EmptyString -> s = EmptyString \/ X s = true.
Proof.
  destruct s as [|c s]; [now left|]. cbn [replaceAtEnd].
  destruct (X (String c s)); [now right | discriminate].
Qed.

Lemma bracket_rewrite_empty s :
  replaceGlobal bracketParamAt s = EmptyString -> s = EmptyString.
Proof.
  destruct s as [|c s]; [reflexivity|].
  unfold replaceGlobal. cbn [replaceFrom].
  destruct (bracketParamAt EmptyString (String c s)) as [[len r]|] eqn:E;
    [|discriminate].
  unfold bracketParamAt in E.
  destruct (Ascii.eqb c "[") eqn:Hc.
  - apply Ascii.eqb_eq in Hc as ->.
    destruct (negb (String.eqb (untilBracket s) EmptyString)
              && startsWith "]" (drop (String.length (untilBracket s)) s));
      [|discriminate].
    injection E as <- <-. discriminate.
  - destruct c as [[] [] [] [] [] [] [] []]; try discriminate E.
    discriminate Hc.
Qed.

(** No page at the top of the pages directory is taken for the root
    route, whatever its name is, unless the name is an extension and
    nothing else. *)
Lemma top_level_page_is_never_root name :
  name <> EmptyString ->
  plainName name = true ->
  pageExtension name = false ->
  pageRoute name <> "/".
Proof.
  intros Hne Hplain Hext Hroute. unfold pageRoute in Hroute.
  injection Hroute as Hroute. apply bracket_rewrite_empty in Hroute.
  destruct (replaceAtEnd_empty (String.eqb "/index") _ Hroute)
    as [Hcut | Hindex]; clear Hroute.
  - destruct (replaceAtEnd_empty pageExtension _ Hcut); congruence.
  - apply (proj1 (String.eqb_eq _ _)) in Hindex. rename Hindex into Hroute.
    assert (forall s, plainName s = true ->
                      plainName (replaceAtEnd pageExtension s) = true) as Hkeep.
    { unfold plainName. induction s as [|c s IH]; cbn [replaceAtEnd every].
      - now destruct (pageExtension EmptyString).
      - destruct (pageExtension (String c s)); [reflexivity|].
        intros H. apply andb_prop in H as [Hc Hs]. cbn [every].
        now rewrite Hc, (IH Hs). }
    specialize (Hkeep name Hplain). rewrite <- Hroute in Hkeep.
    discriminate Hkeep.
Qed.

End PagesFacts.

(** ** Websocket scan *)

Module WebSocketFacts.
Import Js Scanner StringFacts.

(** Without the [g] flag [exec] neither reads nor moves [lastIndex]: a
    call that finds a match finds the same match again. *)
Lemma exec_presence_stationary content lastIndex :
  test presencePattern content = true ->
  exists g1,
    exec presencePattern content lastIndex = (Some g1, lastIndex).
Proof.
  unfold test, exec. simpl global.
  destruct (searchFrom presencePattern None content 0)
    as [[[idx len] g1]|]; [|discriminate].
  intros _. now exists g1.
Qed.

(** So the [while] loop over the presence pattern is still running after
    any number of calls. *)
Lemma execLoop_presence_runs_on fuel file content :
  test presencePattern content = true ->
  forall lastIndex impls,
    execLoop fuel presencePattern file content lastIndex impls = None.
Proof.
  intros Hm. induction fuel as [|fuel IH]; intros lastIndex impls;
    [reflexivity|].
  destruct (exec_presence_stationary content lastIndex Hm) as [g1 Hex].
  simpl. rewrite Hex. apply IH.
Qed.

Lemma scanPatterns_presence_runs_on fuel file content st :
  test presencePattern content = true ->
  scanPatterns fuel file content socketPatterns st = None.
Proof.
  intros Hm. unfold socketPatterns. cbn [scanPatterns].
  assert (scanPattern fuel file content st presencePattern = None) as ->;
    [|reflexivity].
  unfold scanPattern. cbn [hasExecMethod].
  now rewrite (execLoop_presence_runs_on fuel file content Hm).
Qed.

(** C3, at a file that matches the presence pattern.  Whatever bound
    [fuel] is put on the number of [exec] calls of a loop, the scan of a
    list of files one of which contains [WebSocket], [ws], [socket.io],
    [socketio] or [sock] as a whole word has not returned: the loop over
    the first of the four patterns does not terminate. *)
Theorem analyzeWebSockets_never_returns fuel files file content :
  In (file, content) files ->
  test presencePattern content = true ->
  analyzeWebSockets fuel files = None.
Proof.
  intros Hin Hm. unfold analyzeWebSockets.
  generalize {| hasWebSockets := false; socketImplementations := [] |}.
  induction files as [|[f c] files IH]; intros st; [contradiction|].
  cbn [scanFiles]. destruct Hin as [Heq | Hin].
  - injection Heq as -> ->.
    now rewrite scanPatterns_presence_runs_on.
  - destruct (scanPatterns fuel f c socketPatterns st); simpl; auto.
Qed.

(** A server file that constructs a socket: the scan is still running
    after a thousand calls. *)
Lemma analyzeWebSockets_never_returns_witness :
  test presencePattern "const socket = new WebSocket('ws://localhost:8080');"
  = true
  /\ analyzeWebSockets 1000
       [("server.js", "const socket = new WebSocket('ws://localhost:8080');")]
     = None.
Proof.
  split; [reflexivity|].
  apply (analyzeWebSockets_never_returns 1000 _ "server.js"
           "const socket = new WebSocket('ws://localhost:8080');");
    [left|]; reflexivity.
Defined.

(** *** The loops over the URL patterns end *)

Lemma literal_length p :
  forall s r,
    literal p s = Some r ->
    String.length s = String.length p + String.length r.
Proof.
  induction p as [|a p IH]; intros [|b s] r; simpl; try easy.
  - now intros [= <-].
  - now intros [= <-].
  - destruct (Ascii.eqb a b); [|discriminate].
    intros H. now rewrite (IH _ _ H).
Qed.

Lemma skipSpaces_length s : String.length (skipSpaces s) <= String.length s.
Proof.
  induction s as [|c s IH]; simpl; [lia|].
  destruct (isSpace c); simpl; lia.
Qed.

Lemma quote_length s r : quote s = Some r -> String.length r < String.length s.
Proof.
  destruct s as [|c s]; simpl; [discriminate|].
  destruct (isQuote c); [|discriminate]. intros [= <-]. lia.
Qed.

Lemma untilQuote_length s :
  String.length (snd (untilQuote s)) <= String.length s.
Proof.
  induction s as [|c s IH]; simpl; [lia|].
  destruct (isQuote c); simpl; [lia|].
  destruct (untilQuote s) as [u r]. simpl in *. lia.
Qed.

Lemma quotedArgument_length s after url :
  quotedArgument s = Some (after, url) ->
  String.length after < String.length s.
Proof.
  unfold quotedArgument.
  destruct (literal "(" (skipSpaces s)) as [r1|] eqn:H1; [|discriminate].
  cbn [mbind option_bind].
  destruct (quote (skipSpaces r1)) as [r2|] eqn:H2; [|discriminate].
  cbn [mbind option_bind].
  pose proof (untilQuote_length r2) as H3.
  destruct (untilQuote r2) as [u r3]. simpl in H3.
  destruct (quote r3) as [r4|] eqn:H4; [|discriminate].
  cbn [mbind option_bind]. intros [= <- <-].
  apply literal_length in H1. apply quote_length in H2, H4.
  pose proof (skipSpaces_length s). pose proof (skipSpaces_length r1).
  simpl in H1. lia.
Qed.

Lemma matchLength_progress rest after :
  String.length after < String.length rest ->
  1 <= matchLength rest after <= String.length rest.
Proof. unfold matchLength. lia. Qed.

Lemma newWebSocketPattern_progressing : progressing newWebSocketPattern.
Proof.
  intros prev rest len g1. cbn [matchAt newWebSocketPattern].
  destruct (literal "new" rest) as [r1|] eqn:H1; [|discriminate].
  cbn [mbind option_bind].
  destruct (someSpaces r1) as [r2|] eqn:H2; [|discriminate].
  cbn [mbind option_bind].
  destruct (literal "WebSocket" r2) as [r3|] eqn:H3; [|discriminate].
  cbn [mbind option_bind].
  destruct (quotedArgument r3) as [[after url]|] eqn:H4; [|discriminate].
  cbn [mbind option_bind]. intros [= <- <-].
  apply matchLength_progress.
  apply literal_length in H1, H3. apply quotedArgument_length in H4.
  simpl in H1, H3.
  assert (String.length r2 <= String.length r1).
  { unfold someSpaces in H2. destruct r1 as [|c r1]; [discriminate|].
    destruct (isSpace c); [|discriminate]. injection H2 as <-.
    pose proof (skipSpaces_length r1). simpl. lia. }
  lia.
Qed.

Lemma ioPattern_progressing : progressing ioPattern.
Proof.
  intros prev rest len g1. cbn [matchAt ioPattern].
  destruct (literal "io" rest) as [r1|] eqn:H1; [|discriminate].
  cbn [mbind option_bind].
  destruct (quotedArgument r1) as [[after url]|] eqn:H4; [|discriminate].
  cbn [mbind option_bind]. intros [= <- <-].
  apply matchLength_progress.
  apply literal_length in H1. apply quotedArgument_length in H4.
  simpl in H1. lia.
Qed.

Lemma socketConnectPattern_progressing : progressing socketConnectPattern.
Proof.
  intros prev rest len g1. cbn [matchAt socketConnectPattern].
  destruct (literal "socket.connect" rest) as [r1|] eqn:H1; [|discriminate].
  cbn [mbind option_bind].
  destruct (quotedArgument r1) as [[after url]|] eqn:H4; [|discriminate].
  cbn [mbind option_bind]. intros [= <- <-].
  apply matchLength_progress.
  apply literal_length in H1. apply quotedArgument_length in H4.
  simpl in H1. lia.
Qed.

Lemma searchFrom_bounds r :
  progressing r ->
  forall rest prev idx i len g1,
    searchFrom r prev rest idx = Some (i, len, g1) ->
    idx < i + len <= idx + String.length rest.
Proof.
  intros Hr. induction rest as [|c rest IH]; intros prev idx i len g1;
    cbn [searchFrom].
  - destruct (matchAt r prev EmptyString) as [[l g]|] eqn:Hm; [|discriminate].
    intros [= <- <- <-]. apply Hr in Hm. simpl in *. lia.
  - destruct (matchAt r prev (String c rest)) as [[l g]|] eqn:Hm.
    + intros [= <- <- <-]. apply Hr in Hm. simpl in *. lia.
    + intros H. apply IH in H. simpl. lia.
Qed.

(** With the [g] flag a successful [exec] moves [lastIndex] forward and
    not beyond the end of the content. *)
Lemma exec_global_advances r content lastIndex g1 lastIndex' :
  progressing r ->
  global r = true ->
  exec r content lastIndex = (Some g1, lastIndex') ->
  lastIndex < lastIndex' <= String.length content.
Proof.
  intros Hr Hg. unfold exec. rewrite Hg.
  destruct (String.length content <? lastIndex) eqn:Hlen; [discriminate|].
  apply Nat.ltb_ge in Hlen.
  destruct (searchFrom r (charBefore lastIndex content)
              (drop lastIndex content) lastIndex)
    as [[[i len] g]|] eqn:Hs; [|discriminate].
  intros [= <- <-]. apply (searchFrom_bounds r Hr) in Hs.
  rewrite length_of_drop in Hs. lia.
Qed.

(** So the loop over such a pattern returns once [fuel] exceeds what is
    left of the content. *)
Lemma execLoop_global_returns r file content :
  progressing r ->
  global r = true ->
  forall fuel lastIndex impls,
    S (String.length content) - lastIndex < fuel ->
    exists impls',
      execLoop fuel r file content lastIndex impls = Some impls'.
Proof.
  intros Hr Hg. induction fuel as [|fuel IH]; intros lastIndex impls Hfuel;
    [lia|].
  cbn [execLoop].
  destruct (exec r content lastIndex) as [[g1|] lastIndex'] eqn:He.
  - apply (exec_global_advances r content lastIndex g1 lastIndex' Hr Hg)
      in He.
    apply IH. lia.
  - now exists impls.
Qed.

(** The loop over the presence pattern returns at once when the content
    has none of its words. *)
Lemma execLoop_presence_returns fuel file content impls :
  test presencePattern content = false ->
  execLoop (S fuel) presencePattern file content 0 impls = Some impls.
Proof.
  unfold test. cbn [execLoop]. unfold exec. cbn [global presencePattern].
  destruct (searchFrom presencePattern None content 0) as [[[i len] g]|];
    [discriminate|reflexivity].
Qed.

Lemma scanPatterns_returns fuel file content st :
  test presencePattern content = false ->
  String.length content + 2 <= fuel ->
  exists st', scanPatterns fuel file content socketPatterns st = Some st'.
Proof.
  intros Hno Hfuel. unfold socketPatterns. cbn [scanPatterns].
  unfold scanPattern. cbn [hasExecMethod].
  destruct fuel as [|fuel]; [lia|].
  rewrite (execLoop_presence_returns fuel file content _ Hno).
  cbn [mbind option_bind socketImplementations].
  destruct (execLoop_global_returns newWebSocketPattern file content
              newWebSocketPattern_progressing eq_refl (S fuel) 0
              (socketImplementations st)) as [i1 ->]; [lia|].
  cbn [mbind option_bind socketImplementations].
  destruct (execLoop_global_returns ioPattern file content
              ioPattern_progressing eq_refl (S fuel) 0 i1) as [i2 ->];
    [lia|].
  cbn [mbind option_bind socketImplementations].
  destruct (execLoop_global_returns socketConnectPattern file content
              socketConnectPattern_progressing eq_refl (S fuel) 0 i2)
    as [i3 ->]; [lia|].
  cbn [mbind option_bind]. eauto.
Qed.

Lemma scanFiles_returns fuel files :
  (forall file content,
      In (file, content) files ->
      test presencePattern content = false
      /\ String.length content + 2 <= fuel) ->
  forall st, exists st', scanFiles fuel files st = Some st'.
Proof.
  induction files as [|[f c] files IH]; intros Hall st; cbn [scanFiles].
  - eauto.
  - destruct (Hall f c (or_introl eq_refl)) as [Hno Hfuel].
    destruct (scanPatterns_returns fuel f c st Hno Hfuel) as [st1 ->].
    cbn [mbind option_bind]. apply IH.
    intros file content Hin. apply (Hall file content). now right.
Qed.

Lemma scanFuel_enough files file content :
  In (file, content) files -> String.length content + 2 <= scanFuel files.
Proof.
  unfold scanFuel. induction files as [|[f c] files IH]; [contradiction|].
  intros [[= -> ->] | Hin]; cbn [fold_right snd].
  - lia.
  - specialize (IH Hin). lia.
Qed.

(** The scan does return when no file has one of the presence words: the
    never-ending loop is the one over the presence pattern alone. *)
Theorem analyzeWebSockets_returns_without_presence files :
  (forall file content,
      In (file, content) files -> test presencePattern content = false) ->
  exists result, analyzeWebSockets (scanFuel files) files = Some result.
Proof.
  intros Hno. apply scanFiles_returns.
  intros file content Hin. split.
  - apply (Hno file content Hin).
  - apply (scanFuel_enough files file content Hin).
Qed.

(** The only assignment to [hasWebSockets] is in a branch the scan never
    takes. *)
Lemma scanPattern_keeps_flag fuel file content st pattern st' :
  scanPattern fuel file content st pattern = Some st' ->
  hasWebSockets st' = hasWebSockets st.
Proof.
  unfold scanPattern. simpl hasExecMethod. cbv iota.
  destruct (execLoop fuel pattern file content 0 (socketImplementations st));
    simpl; [|discriminate].
  now intros [= <-].
Qed.

Lemma scanPatterns_keeps_flag fuel file content patterns :
  forall st st',
    scanPatterns fuel file content patterns st = Some st' ->
    hasWebSockets st' = hasWebSockets st.
Proof.
  induction patterns as [|pattern patterns IH]; intros st st'; simpl.
  - now intros [= <-].
  - destruct (scanPattern fuel file content st pattern) as [st1|] eqn:H1;
      simpl; [|discriminate].
    intros H2. rewrite (IH _ _ H2).
    eapply scanPattern_keeps_flag; eauto.
Qed.

Lemma scanFiles_keeps_flag fuel files :
  forall st st',
    scanFiles fuel files st = Some st' ->
    hasWebSockets st' = hasWebSockets st.
Proof.
  induction files as [|[f c] files IH]; intros st st'; cbn [scanFiles].
  - now intros [= <-].
  - destruct (scanPatterns fuel f c socketPatterns st) as [st1|] eqn:H1;
      simpl; [|discriminate].
    intros H2. rewrite (IH _ _ H2).
    eapply scanPatterns_keeps_flag; eauto.
Qed.

(** C4, the flag.  A scan that returns leaves [hasWebSockets] at the
    value [false] it started from, whatever the files contain: the branch
    that sets it is guarded by [typeof pattern.exec === 'function'] being
    false.  As a scan of a file that matches the presence pattern does
    not return at all, no scan returns a result with the flag set. *)
Theorem hasWebSockets_is_never_set fuel files result :
  analyzeWebSockets fuel files = Some result ->
  hasWebSockets result = false.
Proof.
  intros H. apply scanFiles_keeps_flag in H. exact H.
Qed.

(** A client file the URL patterns match and the presence pattern does
    not: the scan returns the URL, with the flag unset. *)
Lemma hasWebSockets_is_never_set_witness :
  analyzeWebSockets 3 [("client.js", "const s = io('http://localhost:3000');")]
  = Some {| hasWebSockets := false;
            socketImplementations :=
              [{| implFile := "client.js";
                  implUrl := Some "http://localhost:3000" |}] |}
  /\ hasWebSockets
       {| hasWebSockets := false;
          socketImplementations :=
            [{| implFile := "client.js";
                implUrl := Some "http://localhost:3000" |}] |} = false.
Proof.
  split; [reflexivity|].
  apply (hasWebSockets_is_never_set 3
           [("client.js", "const s = io('http://localhost:3000');")]).
  reflexivity.
Defined.

End WebSocketFacts.

(** ** Templates *)

Module TemplateFacts.
Import Js Templates StringFacts.

Ltac find_inside :=
  first [ apply inside_here | apply inside_later; find_inside ].

Ltac split_template :=
  lazy beta iota zeta delta
    [generateApiTestForMethod socketDefaultTemplate socketUrlTemplate
     String.eqb Ascii.eqb Bool.eqb];
  reflexivity.

(** The body of the success-path test is part of the text written for a
    selected endpoint. *)
Lemma apiEndpointTemplate_body testName endpoint :
  exists head tail,
    apiEndpointTemplate testName endpoint
    = head
      +:+ generateApiTestForMethod (toLowerCase (endpointMethod endpoint))
            (endpointPath endpoint)
      +:+ tail.
Proof. unfold apiEndpointTemplate. cbv zeta. find_inside. Qed.

(** C1.  For each of the methods get, post, put, patch and delete: the
    text generated in the api category for a selected endpoint with that
    method contains the body [generateApiTestForMethod] builds, and that
    body is a fixed text around the path of the endpoint.  The fixed text
    asserts the status of the method table once, 201 for post and 200
    for the others, and declares and sends a payload object exactly for
    post, put and patch. *)
Theorem api_success_body_by_method method :
  In method ["get"; "post"; "put"; "patch"; "delete"] ->
  (forall testName endpoint info,
      selectedEndpoint info = Some endpoint ->
      toLowerCase (endpointMethod endpoint) = method ->
      exists head tail,
        testTemplate "api" testName (Some info)
        = head +:+ generateApiTestForMethod method (endpointPath endpoint)
          +:+ tail)
  /\ exists pre post,
      (forall path,
          generateApiTestForMethod method path = pre +:+ path +:+ post)
      /\ includes
           ("expect(response.status).toBe(" +:+ expectedStatus method +:+ ");")
           post = true
      /\ occurrences "expect(response.status).toBe(" (pre +:+ post) = 1
      /\ includes "const payload = {" pre = sendsPayload method
      /\ includes ", payload);" post = sendsPayload method
      /\ includes "payload" (pre +:+ post) = sendsPayload method.
Proof.
  intros Hm. split.
  - intros testName endpoint info Hsel <-.
    unfold testTemplate. cbn [toLowerCase]. simpl String.eqb. cbv iota.
    simpl mbind. rewrite Hsel. apply apiEndpointTemplate_body.
  - simpl in Hm.
    destruct Hm as [<- | [<- | [<- | [<- | [<- | []]]]]];
      (eexists; eexists; split;
       [ intros path; split_template
       | vm_compute; repeat split ]).
Qed.

(** The POST endpoint of the end-to-end scenario. *)
Lemma api_success_body_by_method_witness :
  In "post" ["get"; "post"; "put"; "patch"; "delete"]
  /\ ((forall testName endpoint info,
         selectedEndpoint info = Some endpoint ->
         toLowerCase (endpointMethod endpoint) = "post" ->
         exists head tail,
           testTemplate "api" testName (Some info)
           = head +:+ generateApiTestForMethod "post" (endpointPath endpoint)
             +:+ tail)
      /\ exists pre post,
          (forall path,
              generateApiTestForMethod "post" path = pre +:+ path +:+ post)
          /\ includes
               ("expect(response.status).toBe(" +:+ expectedStatus "post"
                +:+ ");")
               post = true
          /\ occurrences "expect(response.status).toBe(" (pre +:+ post) = 1
          /\ includes "const payload = {" pre = sendsPayload "post"
          /\ includes ", payload);" post = sendsPayload "post"
          /\ includes "payload" (pre +:+ post) = sendsPayload "post").
Proof.
  split; [simpl; tauto|].
  apply (api_success_body_by_method "post"). simpl. tauto.
Defined.

(** With a socket URL the websocket category declares three tests, the
    second with the five-second timeout. *)
Lemma socket_url_template_tests :
  exists pre mid post,
    (forall testName socketUrl,
        socketUrlTemplate testName socketUrl
        = pre +:+ testName +:+ mid +:+ socketUrl +:+ post)
    /\ testTitles (pre +:+ mid +:+ post)
       = ["should establish connection";
          "should send and receive message";
          "should handle disconnection properly"]
    /\ includes "reject(new Error('Timed out waiting for response'));
      }, 5000);" post = true.
Proof.
  eexists; eexists; eexists; split;
    [ intros testName socketUrl; split_template
    | vm_compute; repeat split ].
Qed.

(** C5 as stated fails: without a socket URL the text is not the
    three-test text at the default URL; the disconnection test and the
    timeout are missing. *)
Lemma default_socket_template_differs :
  testTemplate "websocket" "notifications" None
  <> socketUrlTemplate "notifications" defaultSocketUrl
  /\ testTitles (testTemplate "websocket" "notifications" None)
     = ["should establish connection"; "should send and receive message"]
  /\ testTitles (socketUrlTemplate "notifications" defaultSocketUrl)
     = ["should establish connection";
        "should send and receive message";
        "should handle disconnection properly"]
  /\ includes "5000" (testTemplate "websocket" "notifications" None) = false.
Proof.
  split; [|repeat split; vm_compute; reflexivity].
  intros H.
  apply (f_equal (includes "should handle disconnection properly")) in H.
  vm_compute in H. discriminate.
Qed.

(** C5, amended.  In the websocket category, under either of its names
    and in any letter case, a request without a socket URL (no analysis,
    no URL chosen, or an empty one) gets a fixed text around the test
    name: two tests, connection establishment and send-and-receive,
    against the default URL [ws://localhost:3000/ws], with no timeout and
    no disconnection test. *)
Theorem default_socket_template_tests :
  exists pre post,
    (forall testType testName appInfo,
        In (toLowerCase testType) ["websocket"; "ws"] ->
        truthy (appInfo ≫= socketUrl) = false ->
        testTemplate testType testName appInfo = pre +:+ testName +:+ post)
    /\ testTitles (pre +:+ post)
       = ["should establish connection"; "should send and receive message"]
    /\ includes ("client = new WebSocket('" +:+ defaultSocketUrl +:+ "');")
         post = true
    /\ occurrences "new WebSocket(" (pre +:+ post) = 1
    /\ includes "setTimeout" (pre +:+ post) = false
    /\ includes "5000" (pre +:+ post) = false
    /\ includes "disconnection" (pre +:+ post) = false.
Proof.
  eexists; eexists; split.
  - intros testType testName appInfo Hty Hurl.
    unfold testTemplate. cbv zeta.
    simpl in Hty. destruct Hty as [<- | [<- | []]];
      simpl String.eqb; cbv iota; simpl orb; cbv iota;
      rewrite Hurl; split_template.
  - vm_compute; repeat split.
Qed.

End TemplateFacts.

(** ** Naming of generated test files *)

Module GenerateFacts.
Import Js Templates Generate StringFacts.

(** *** Paths of names *)

Lemma plainName_segments name :
  Scanner.plainName name = true -> Scanner.segments name = [name].
Proof.
  unfold Scanner.plainName. induction name as [|c name IH]; [reflexivity|].
  cbn [every Scanner.segments]. intros H. apply andb_prop in H as [Hc Hn].
  apply negb_true_iff in Hc. rewrite Hc, (IH Hn). reflexivity.
Qed.

Lemma plainName_no_end name :
  Scanner.plainName name = true -> endsWith "/" name = false.
Proof.
  intros H. destruct (endsWith "/" name) eqn:E; [|reflexivity].
  apply endsWith_spec in E as [pre ->]. exfalso. revert H.
  unfold Scanner.plainName. induction pre as [|c pre IH]; [discriminate|].
  cbn [String.append every]. intros H. apply andb_prop in H as [_ H].
  now apply IH.
Qed.

Lemma isName_parts name :
  isName name = true ->
  Scanner.plainName name = true
  /\ String.eqb name EmptyString = false
  /\ String.eqb name "." = false
  /\ String.eqb name ".." = false.
Proof.
  unfold isName. intros H. apply andb_prop in H as [Hp Hn].
  apply negb_true_iff in Hn.
  apply orb_false_elim in Hn as [Hn H2]. apply orb_false_elim in Hn as [H0 H1].
  auto.
Qed.

(** Joining a name to a directory adds the name. *)
Lemma pathJoin_name dir name :
  isName name = true ->
  pathJoin dir name
  = {| names := names dir ++ [name]; trailingSeparator := false |}.
Proof.
  intros H. apply isName_parts in H as (Hp & H0 & H1 & H2).
  unfold pathJoin. destruct name as [|c name]; [discriminate|].
  unfold resolve. rewrite (plainName_segments _ Hp). cbn [fold_left].
  unfold enter. rewrite H0, H1, H2. cbn [orb rev].
  rewrite rev_involutive, (plainName_no_end _ Hp). reflexivity.
Qed.

Lemma relativeTo_below cwd :
  forall below, relativeTo cwd (cwd ++ below) = (0, below).
Proof.
  induction cwd as [|c cwd IH]; intros below.
  - now destruct below.
  - cbn [app relativeTo]. now rewrite String.eqb_refl.
Qed.

Lemma keyOf_below cwd below trailing :
  keyOf cwd {| names := cwd ++ below; trailingSeparator := trailing |}
  = joinNames below.
Proof. unfold keyOf. cbn [names]. now rewrite relativeTo_below. Qed.

(** Below the working directory a path exists when its key does. *)
Lemma existsPath_below cwd fs name below :
  existsPath cwd fs
    {| names := cwd ++ name :: below; trailingSeparator := false |}
  = existsSync fs (joinNames (name :: below)).
Proof.
  unfold existsPath, isDirectory, isFile, existsSync.
  rewrite keyOf_below. cbn [names trailingSeparator].
  now rewrite relativeTo_below.
Qed.

Lemma isDirectory_below cwd fs name below trailing :
  isDirectory cwd fs
    {| names := cwd ++ name :: below; trailingSeparator := trailing |}
  = bool_decide (joinNames (name :: below) ∈ dirs fs).
Proof.
  unfold isDirectory. rewrite keyOf_below. cbn [names].
  now rewrite relativeTo_below.
Qed.

Lemma basePathOf_keys cwd fs :
  basePathOf cwd fs
  = if existsSync fs "src/e2e" then Some "src"
    else if existsSync fs "tests/e2e" then Some "tests"
    else None.
Proof.
  unfold basePathOf, pathJoin, workingDirectory, resolve. cbn [names].
  cbn [Scanner.segments Ascii.eqb Bool.eqb fold_left].
  unfold enter. cbn [String.eqb Ascii.eqb Bool.eqb orb rev endsWith].
  rewrite !rev_involutive, <- !app_assoc. cbn [app].
  now rewrite !existsPath_below.
Qed.

Lemma basePathOf_name cwd fs basePath :
  basePathOf cwd fs = Some basePath ->
  (basePath = "src" \/ basePath = "tests") /\ isName basePath = true.
Proof.
  rewrite basePathOf_keys.
  destruct (existsSync fs "src/e2e"); [intros [= <-]; auto|].
  destruct (existsSync fs "tests/e2e"); [intros [= <-]; auto|].
  discriminate.
Qed.

(** *** Names of test files *)

Lemma plainName_append a b :
  Scanner.plainName (a +:+ b)
  = Scanner.plainName a && Scanner.plainName b.
Proof.
  unfold Scanner.plainName. induction a as [|c a IH]; [reflexivity|].
  cbn [String.append every]. now rewrite IH, andb_assoc.
Qed.

Lemma toLowerCaseChar_separator c :
  Ascii.eqb (toLowerCaseChar c) "/" = Ascii.eqb c "/".
Proof. destruct c as [[] [] [] [] [] [] [] []]; reflexivity. Qed.

Lemma plainName_toLowerCase s :
  Scanner.plainName (toLowerCase s) = Scanner.plainName s.
Proof.
  unfold Scanner.plainName. induction s as [|c s IH]; [reflexivity|].
  cbn [toLowerCase every]. now rewrite toLowerCaseChar_separator, IH.
Qed.

Lemma plainName_replace_spaces s :
  Scanner.plainName s = true ->
  forall pending before,
    Scanner.plainName (replaceFrom spacesAt pending before s) = true.
Proof.
  unfold Scanner.plainName. induction s as [|c s IH]; intros Hs pending before;
    [reflexivity|].
  cbn [every] in Hs. apply andb_prop in Hs as [Hc Hs].
  cbn [replaceFrom]. destruct pending as [|k]; [|now apply IH].
  unfold spacesAt. destruct (spaceRun (String c s)).
  - cbn [every]. now rewrite Hc, IH.
  - change ("-" +:+ ?x) with (String "-" x). cbn [every]. now rewrite IH.
Qed.

Lemma plainName_slug testName :
  Scanner.plainName testName = true ->
  Scanner.plainName (slug testName) = true.
Proof.
  intros H. unfold slug. rewrite plainName_toLowerCase.
  now apply plainName_replace_spaces.
Qed.

Lemma plainName_decimal n : Scanner.plainName (decimal n) = true.
Proof.
  unfold decimal. generalize (N.to_uint n). intros d.
  unfold Scanner.plainName. induction d; cbn [NilEmpty.string_of_uint every];
    try reflexivity; exact IHd.
Qed.

(** A plain name that ends in [.spec.ts] is the name of an entry. *)
Lemma isName_spec_ts stem :
  Scanner.plainName stem = true -> isName (stem +:+ ".spec.ts") = true.
Proof.
  intros H. unfold isName. rewrite plainName_append, H. cbn [andb].
  replace (Scanner.plainName ".spec.ts") with true by reflexivity.
  cbn [andb]. apply negb_true_iff.
  assert (8 <= String.length (stem +:+ ".spec.ts")) as Hlen.
  { rewrite length_append. simpl. lia. }
  destruct (String.eqb_spec (stem +:+ ".spec.ts") EmptyString) as [E|_];
    [rewrite E in Hlen; simpl in Hlen; lia|].
  destruct (String.eqb_spec (stem +:+ ".spec.ts") ".") as [E|_];
    [rewrite E in Hlen; simpl in Hlen; lia|].
  destruct (String.eqb_spec (stem +:+ ".spec.ts") "..") as [E|_];
    [rewrite E in Hlen; simpl in Hlen; lia|].
  reflexivity.
Qed.

Lemma isName_altFileNameOf now testName :
  Scanner.plainName testName = true ->
  isName (altFileNameOf now testName) = true.
Proof.
  intros H. unfold altFileNameOf.
  replace (slug testName +:+ "-" +:+ decimal now +:+ ".spec.ts")
    with ((slug testName +:+ "-" +:+ decimal now) +:+ ".spec.ts")
    by now rewrite !append_assoc.
  apply isName_spec_ts. rewrite !plainName_append, plainName_slug by exact H.
  now rewrite plainName_decimal.
Qed.

Lemma includes_length needle hay :
  includes needle hay = true -> String.length needle <= String.length hay.
Proof.
  induction hay as [|c hay IH]; cbn [includes]; intros H;
    apply orb_prop in H as [H | H]; try discriminate.
  - apply startsWith_split in H. apply (f_equal String.length) in H.
    rewrite length_append in H. lia.
  - apply startsWith_split in H. apply (f_equal String.length) in H.
    rewrite length_append in H. lia.
  - specialize (IH H). simpl. lia.
Qed.

Lemma isName_fileNameOf testName :
  Scanner.plainName testName = true -> isName (fileNameOf testName) = true.
Proof.
  intros H. unfold fileNameOf.
  destruct (includes ".spec." testName) eqn:E.
  - unfold isName. rewrite H. cbn [andb]. apply negb_true_iff.
    apply includes_length in E. simpl in E.
    destruct (String.eqb_spec testName EmptyString) as [E0|_];
      [rewrite E0 in E; simpl in E; lia|].
    destruct (String.eqb_spec testName ".") as [E0|_];
      [rewrite E0 in E; simpl in E; lia|].
    destruct (String.eqb_spec testName "..") as [E0|_];
      [rewrite E0 in E; simpl in E; lia|].
    reflexivity.
  - apply isName_spec_ts. now apply plainName_slug.
Qed.

(** The time-stamped name differs from the plain one. *)
Lemma alt_name_fresh now testName :
  slug testName +:+ ".spec.ts" <> altFileNameOf now testName.
Proof.
  unfold altFileNameOf. intros H. apply append_cancel_l in H. discriminate.
Qed.

(** Lower case changes neither a white-space code unit nor what is one. *)
Lemma isSpace_toLowerCaseChar c : isSpace (toLowerCaseChar c) = isSpace c.
Proof. destruct c as [[] [] [] [] [] [] [] []]; reflexivity. Qed.

Lemma spaceRun_toLowerCase s : spaceRun (toLowerCase s) = spaceRun s.
Proof.
  induction s as [|c s IH]; [reflexivity|].
  cbn [toLowerCase spaceRun]. rewrite isSpace_toLowerCaseChar.
  destruct (isSpace c); congruence.
Qed.

Lemma toLowerCase_replace_spaces s :
  forall pending before before',
    toLowerCase (replaceFrom spacesAt pending before s)
    = replaceFrom spacesAt pending before' (toLowerCase s).
Proof.
  induction s as [|c s IH]; intros pending before before'; [reflexivity|].
  cbn [toLowerCase replaceFrom]. destruct pending as [|k]; [|apply IH].
  unfold spacesAt.
  change (String (toLowerCaseChar c) (toLowerCase s))
    with (toLowerCase (String c s)).
  rewrite spaceRun_toLowerCase.
  destruct (spaceRun (String c s)) as [|n].
  - cbn [toLowerCase]. f_equal. apply IH.
  - change ("-" +:+ ?x) with (String "-" x). cbn [toLowerCase].
    f_equal. apply IH.
Qed.

(** The two readings of the slug agree: hyphens first and lower case
    after, as the code has it, or lower case first. *)
Lemma slug_lower_case_first testName :
  slug testName = replaceGlobal spacesAt (toLowerCase testName).
Proof. apply toLowerCase_replace_spaces. Qed.

(** *** The run for a name without separator *)

Lemma joinNames_longer dir name rest :
  joinNames (dir :: name :: rest) <> dir.
Proof.
  cbn [joinNames]. intros H. apply (f_equal String.length) in H.
  rewrite !length_append in H. simpl in H. lia.
Qed.

Lemma joinNames_three_inj base dir a b :
  joinNames [base; dir; a] = joinNames [base; dir; b] -> a = b.
Proof.
  cbn [joinNames]. intros H.
  apply append_cancel_l in H. apply (append_cancel_l "/") in H.
  apply append_cancel_l in H. now apply (append_cancel_l "/") in H.
Qed.

Lemma joinNames_three_not_two base dir name :
  joinNames [base; dir; name] <> joinNames [base; dir].
Proof.
  cbn [joinNames]. intros H. apply (f_equal String.length) in H.
  rewrite !length_append in H. simpl in H. lia.
Qed.

(** The directory of the category after the step that makes it when it
    is missing. *)
Lemma category_directory_made cwd fs basePath dir :
  files fs !! basePath = None ->
  files fs !! joinNames [basePath; dir] = None ->
  (if existsSync fs (joinNames [basePath; dir]) then Some fs
   else mkdirSync cwd
          {| names := cwd ++ [basePath; dir]; trailingSeparator := false |}
          fs)
  = Some (if existsSync fs (joinNames [basePath; dir]) then fs
          else {| dirs := {[basePath; joinNames [basePath; dir]]} ∪ dirs fs;
                  files := files fs |}).
Proof.
  intros Hfb Hfd.
  destruct (existsSync fs (joinNames [basePath; dir])); [reflexivity|].
  unfold mkdirSync, keysDown. cbn [names].
  rewrite relativeTo_below.
  cbn [List.length seq map repeat app firstn existsb].
  change (joinNames [basePath]) with basePath.
  rewrite (bool_decide_eq_false_2 (is_Some (files fs !! basePath)));
    [|rewrite Hfb; intros [? ?]; discriminate].
  rewrite (bool_decide_eq_false_2
             (is_Some (files fs !! joinNames [basePath; dir])));
    [|rewrite Hfd; intros [? ?]; discriminate].
  cbn [orb]. do 2 f_equal.
  apply set_eq. intros x.
  rewrite !elem_of_union, elem_of_list_to_set, !list_elem_of_In.
  cbn [In]. rewrite !elem_of_singleton. intuition congruence.
Qed.

(** [generateTest] in one equation, for a test name without separator
    and a category directory that is a name, in a project with a test
    structure where neither the base directory nor the directory of the
    category is a file: the run returns, having made the directory of
    the category if it was missing and written the text of the category
    to one path, the alternate one when the first is taken; that one
    must not be a directory. *)
Lemma generateTest_written cwd now testType testName appInfo fs basePath :
  basePathOf cwd fs = Some basePath ->
  isName (targetDirOf testType) = true ->
  Scanner.plainName testName = true ->
  let testDir := joinNames [basePath; targetDirOf testType] in
  let first :=
    joinNames [basePath; targetDirOf testType; fileNameOf testName] in
  let alt :=
    joinNames [basePath; targetDirOf testType; altFileNameOf now testName] in
  let target := if existsSync fs first then alt else first in
  files fs !! basePath = None ->
  files fs !! testDir = None ->
  bool_decide (target ∈ dirs fs) = false ->
  exists fs',
    generateTest cwd now testType testName appInfo fs = Returns fs'
    /\ files fs'
       = <[target := testTemplate testType testName appInfo]> (files fs)
    /\ dirs fs'
       = (if existsSync fs testDir then dirs fs
          else {[basePath; testDir]} ∪ dirs fs).
Proof.
  intros Hbase Hdir Hname testDir first alt target Hfb Hfd Htarget.
  unfold generateTest. rewrite Hbase.
  destruct (basePathOf_name cwd fs basePath Hbase) as [_ Hbn].
  cbv zeta. unfold workingDirectory.
  rewrite (pathJoin_name _ basePath Hbn). cbn [names].
  rewrite (pathJoin_name _ (targetDirOf testType) Hdir). cbn [names].
  rewrite <- app_assoc. cbn [app].
  rewrite existsPath_below. fold testDir.
  set (fs1 := if existsSync fs testDir then fs
              else {| dirs := {[basePath; testDir]} ∪ dirs fs;
                      files := files fs |}).
  assert (Hmk : (if existsSync fs testDir then Some fs
                 else mkdirSync cwd
                        {| names := cwd ++ [basePath; targetDirOf testType];
                           trailingSeparator := false |} fs)
                = Some fs1).
  { exact (category_directory_made cwd fs basePath (targetDirOf testType)
             Hfb Hfd). }
  rewrite Hmk.
  assert (Hfiles1 : files fs1 = files fs).
  { unfold fs1. now destruct (existsSync fs testDir). }
  assert (Hdirs1 : forall name,
             isName name = true ->
             bool_decide
               (joinNames [basePath; targetDirOf testType; name] ∈ dirs fs1)
             = bool_decide
                 (joinNames [basePath; targetDirOf testType; name]
                  ∈ dirs fs)).
  { intros name _. unfold fs1.
    destruct (existsSync fs testDir); [reflexivity|]. cbn [dirs].
    apply bool_decide_ext.
    rewrite !elem_of_union, !elem_of_singleton.
    pose proof (joinNames_three_not_two basePath (targetDirOf testType) name).
    pose proof (joinNames_longer basePath (targetDirOf testType) [name]).
    fold testDir in H. tauto. }
  assert (HdirIn : bool_decide (testDir ∈ dirs fs1) = true).
  { unfold fs1. destruct (existsSync fs testDir) eqn:E.
    - unfold existsSync in E. rewrite Hfd in E.
      rewrite (bool_decide_eq_false_2 (is_Some None)) in E;
        [|intros [? ?]; discriminate].
      now rewrite orb_false_r in E.
    - cbn [dirs]. apply bool_decide_eq_true.
      rewrite !elem_of_union, !elem_of_singleton. tauto. }
  pose proof (isName_fileNameOf testName Hname) as Hfn.
  pose proof (isName_altFileNameOf now testName Hname) as Han.
  rewrite (pathJoin_name _ (fileNameOf testName) Hfn).
  rewrite (pathJoin_name _ (altFileNameOf now testName) Han).
  cbn [names]. rewrite <- !app_assoc. cbn [app].
  rewrite existsPath_below.
  assert (Hex : existsSync fs1
                  (joinNames [basePath; targetDirOf testType;
                              fileNameOf testName])
                = existsSync fs first).
  { unfold existsSync. now rewrite (Hdirs1 _ Hfn), Hfiles1. }
  rewrite Hex.
  assert (Hwrite : forall name,
             isName name = true ->
             bool_decide
               (joinNames [basePath; targetDirOf testType; name] ∈ dirs fs)
             = false ->
             generateTestContent cwd
               {| names := cwd ++ [basePath; targetDirOf testType; name];
                  trailingSeparator := false |}
               testType testName appInfo fs1
             = Some (written
                       (joinNames [basePath; targetDirOf testType; name])
                       (testTemplate testType testName appInfo) fs1)).
  { intros name Hn Hnd. unfold generateTestContent, writeFileSync, parent.
    cbn [trailingSeparator names orb].
    rewrite isDirectory_below, (Hdirs1 name Hn), Hnd.
    rewrite List.removelast_app by discriminate.
    cbn [removelast]. rewrite isDirectory_below. fold testDir.
    rewrite HdirIn. now rewrite keyOf_below. }
  subst target.
  destruct (existsSync fs first);
    (rewrite Hwrite; [|assumption|exact Htarget]);
    eexists; (split; [reflexivity|]);
    unfold written; cbn [files dirs]; rewrite Hfiles1;
    (split; [reflexivity|]); unfold fs1;
    destruct (existsSync fs testDir); reflexivity.
Qed.

(** C6 as stated fails twice.  A name given in full is not slugged: with
    no file present, [Login.spec.js] is written as it is and no
    [login.spec.js.spec.ts] appears.  And the time-stamped file is
    written without asking whether it exists: a file of that name is
    overwritten. *)
Lemma generateTest_can_overwrite :
  (exists fs',
      generateTest projectDirectory 1700000000000 "e2e" "Login.spec.js" None
        freshProject
      = Returns fs'
      /\ files fs' !! "src/e2e/login.spec.js.spec.ts" = None
      /\ files fs' !! "src/e2e/Login.spec.js"
         = Some (testTemplate "e2e" "Login.spec.js" None))
  /\ (exists fs',
        generateTest projectDirectory 1700000000000 "e2e" "My Login Flow"
          None twiceGenerated
        = Returns fs'
        /\ files twiceGenerated
             !! "src/e2e/my-login-flow-1700000000000.spec.ts"
           = Some "second version"
        /\ files fs' !! "src/e2e/my-login-flow-1700000000000.spec.ts"
           = Some (testTemplate "e2e" "My Login Flow" None)
        /\ testTemplate "e2e" "My Login Flow" None <> "second version").
Proof.
  split; eexists; (split; [vm_compute; reflexivity|]); repeat split;
    try (vm_compute; reflexivity).
  intros H. apply (f_equal String.length) in H. vm_compute in H.
  discriminate.
Qed.

(** C6, amended.  For a test name without [.spec.] and without a path
    separator, in a project with a test structure where the directory
    of the category is a directory or can be made, and where the
    time-stamped path is no directory: [generateTest] returns, having
    written the text of the category to exactly one path.  When no file
    [<slug>.spec.ts] exists in the directory of the category, that path
    is [<slug>.spec.ts] and was free; when it exists, the path is
    [<slug>-<now>.spec.ts], a different one, so the first file keeps its
    content.  Every path other than the written one keeps its content.
    The slug is the name with each run of white space replaced by a
    hyphen, in lower case. *)
Theorem generateTest_keeps_first_file cwd now testType testName appInfo fs
    basePath :
  includes ".spec." testName = false ->
  Scanner.plainName testName = true ->
  isName (targetDirOf testType) = true ->
  basePathOf cwd fs = Some basePath ->
  let testDir := joinNames [basePath; targetDirOf testType] in
  let first :=
    joinNames [basePath; targetDirOf testType;
               slug testName +:+ ".spec.ts"] in
  let alt :=
    joinNames [basePath; targetDirOf testType;
               slug testName +:+ "-" +:+ decimal now +:+ ".spec.ts"] in
  let target := if existsSync fs first then alt else first in
  files fs !! basePath = None ->
  files fs !! testDir = None ->
  bool_decide (target ∈ dirs fs) = false ->
  exists fs',
    generateTest cwd now testType testName appInfo fs = Returns fs'
    /\ files fs'
       = <[target := testTemplate testType testName appInfo]> (files fs)
    /\ (forall path, path <> target -> files fs' !! path = files fs !! path)
    /\ (existsSync fs first = false -> files fs !! target = None)
    /\ (existsSync fs first = true ->
        target <> first /\ files fs' !! first = files fs !! first).
Proof.
  intros Hspec Hname Hdir Hbase testDir first alt target Hfb Hfd Htarget.
  pose proof (generateTest_written cwd now testType testName appInfo fs
                basePath Hbase Hdir Hname) as Hgen.
  cbv zeta in Hgen. unfold fileNameOf in Hgen. rewrite Hspec in Hgen.
  fold testDir first in Hgen.
  change (joinNames
            [basePath; targetDirOf testType; altFileNameOf now testName])
    with alt in Hgen.
  fold target in Hgen.
  destruct (Hgen Hfb Hfd Htarget) as (fs' & Hrun & Hfiles & _).
  assert (alt <> first) as Hfresh.
  { intros H. apply joinNames_three_inj in H.
    now apply (alt_name_fresh now testName). }
  exists fs'. split; [exact Hrun|]. split; [exact Hfiles|].
  rewrite Hfiles. repeat split.
  - intros path Hne. now rewrite lookup_insert_ne.
  - intros Hno. subst target. rewrite Hno.
    unfold existsSync in Hno. apply orb_false_elim in Hno as [_ Hno].
    apply bool_decide_eq_false in Hno.
    destruct (files fs !! first) eqn:E; [|reflexivity].
    exfalso. apply Hno. eauto.
  - subst target. now rewrite H.
  - subst target. rewrite H. now rewrite lookup_insert_ne.
Qed.

(** The scenario of the specification: [My Login Flow] is first written
    to [my-login-flow.spec.ts]; generated again at time [1700000000000]
    it goes to [my-login-flow-1700000000000.spec.ts]. *)
Lemma generateTest_keeps_first_file_witness :
  slug "My Login Flow" = "my-login-flow"
  /\ exists fs',
       generateTest projectDirectory 1700000000000 "e2e" "My Login Flow"
         None onceGenerated
       = Returns fs'
       /\ files fs'
          = <["src/e2e/my-login-flow-1700000000000.spec.ts" :=
               testTemplate "e2e" "My Login Flow" None]>
              (files onceGenerated)
       /\ files fs' !! "src/e2e/my-login-flow.spec.ts"
          = Some "first version".
Proof.
  split; [reflexivity|].
  destruct (generateTest_keeps_first_file projectDirectory 1700000000000
              "e2e" "My Login Flow" None onceGenerated "src"
              eq_refl eq_refl eq_refl eq_refl eq_refl eq_refl eq_refl)
    as (fs' & Hgen & Hfiles & _ & _ & Hkept).
  exists fs'. split; [exact Hgen|]. split; [exact Hfiles|].
  destruct (Hkept eq_refl) as [_ Hfirst]. exact Hfirst.
Defined.

(** C9.  A test name with [.spec.] in it is used as it is for the first
    file, but not when a file of that name exists: the file written then
    is named by the slug of the whole name, lower case and hyphens
    included, with the time stamp and a second [.spec.ts] after it. *)
Theorem spec_name_is_slugged_on_collision :
  includes ".spec." "Login Flow.spec.ts" = true
  /\ (exists fs',
        generateTest projectDirectory 1700000000000 "e2e"
          "Login Flow.spec.ts" None freshProject
        = Returns fs'
        /\ dom (files fs') = {["src/e2e/Login Flow.spec.ts"]})
  /\ exists fs',
       generateTest projectDirectory 1700000000000 "e2e"
         "Login Flow.spec.ts" None namedInFull
       = Returns fs'
       /\ files fs' !! "src/e2e/Login Flow.spec.ts" = Some "first version"
       /\ files fs' !! "src/e2e/login-flow.spec.ts-1700000000000.spec.ts"
          = Some (testTemplate "e2e" "Login Flow.spec.ts" None)
       /\ dom (files fs')
          = {["src/e2e/Login Flow.spec.ts";
              "src/e2e/login-flow.spec.ts-1700000000000.spec.ts"]}.
Proof.
  split; [reflexivity|].
  split; eexists; (split; [vm_compute; reflexivity|]);
    repeat split; vm_compute; reflexivity.
Qed.

End GenerateFacts.

(** ** Placeholder substitution *)

Module PlaceholderFacts.
Import Js Placeholders StringFacts.

(** *** Prefixes and suffixes *)

Lemma mismatch_startsWith a b s :
  mismatch a b = true -> startsWith a (b +:+ s) = false.
Proof.
  revert b. induction a as [|x a IH]; intros [|y b]; simpl; try easy.
  intros H. apply orb_prop in H as [H | H].
  - apply negb_true_iff in H. now rewrite H.
  - rewrite (IH _ H). apply andb_false_r.
Qed.

Lemma beginnings_in p r :
  p <> EmptyString -> r <> EmptyString -> In p (beginnings (p +:+ r)).
Proof.
  induction p as [|c p IH]; intros Hp Hr; [congruence|].
  destruct p as [|d p].
  - destruct r as [|e r]; [congruence|]. simpl. now left.
  - change (String c (String d p) +:+ r)
      with (String c (String d (p +:+ r))).
    cbn [beginnings]. right. apply in_map.
    apply (IH ltac:(discriminate) Hr).
Qed.

(** *** One pass of a global replacement *)

Lemma replaceFrom_ext (m1 m2 : string -> string -> option (nat * string)) :
  (forall b r, m1 b r = m2 b r) ->
  forall s pending before,
    replaceFrom m1 pending before s = replaceFrom m2 pending before s.
Proof.
  intros Hm. induction s as [|c s IH]; intros pending before;
    [reflexivity|].
  simpl. destruct pending as [|k]; [|apply IH].
  rewrite Hm. destruct (m2 before (String c s)) as [[len r]|];
    now rewrite IH.
Qed.

(** A value without a dollar sign is inserted as it is. *)
Lemma GetSubstitution_plain matched before after value :
  every (fun c => negb (Ascii.eqb c "$")) value = true ->
  GetSubstitution matched before after value = value.
Proof.
  induction value as [|c value IH]; [reflexivity|].
  cbn [every]. intros H. apply andb_prop in H as [Hc Hv].
  specialize (IH Hv).
  destruct c as [[] [] [] [] [] [] [] []];
    try discriminate Hc; cbn [GetSubstitution]; now rewrite IH.
Qed.

Section Scan.
(** A pattern whose matches do not depend on the text before them. *)
Variable m : string -> option (nat * string).

Lemma replaceFrom_before pending s :
  forall b b',
    replaceFrom (fun _ => m) pending b s
    = replaceFrom (fun _ => m) pending b' s.
Proof.
  revert pending. induction s as [|c s IH]; intros pending b b';
    [reflexivity|].
  simpl. destruct pending as [|k]; [|apply IH].
  destruct (m (String c s)) as [[len r]|]; f_equal; apply IH.
Qed.

Lemma replaceFrom_pending s :
  forall pending b,
    replaceFrom (fun _ => m) pending b s = scan m (drop pending s).
Proof.
  induction s as [|c s IH]; intros [|k] b; try reflexivity.
  - apply replaceFrom_before.
  - simpl. apply IH.
Qed.

Lemma scan_nil : scan m EmptyString = EmptyString.
Proof. reflexivity. Qed.

Lemma scan_match c s len r :
  m (String c s) = Some (len, r) ->
  scan m (String c s) = r +:+ scan m (drop (len - 1) s).
Proof.
  intros H. unfold scan at 1, replaceGlobal. simpl. rewrite H.
  now rewrite replaceFrom_pending.
Qed.

Lemma scan_keep c s :
  m (String c s) = None -> scan m (String c s) = String c (scan m s).
Proof.
  intros H. unfold scan at 1, replaceGlobal. simpl. rewrite H.
  f_equal. apply replaceFrom_before.
Qed.

(** A match of a whole non-empty prefix. *)
Lemma scan_token t s r :
  t <> EmptyString ->
  m (t +:+ s) = Some (String.length t, r) ->
  scan m (t +:+ s) = r +:+ scan m s.
Proof.
  destruct t as [|c t]; [congruence|]. intros _ H.
  change (String c t +:+ s) with (String c (t +:+ s)) in *.
  rewrite (scan_match _ _ _ _ H). simpl. rewrite Nat.sub_0_r.
  now rewrite drop_append.
Qed.
End Scan.

(** *** The table of tokens *)

Lemma tokenAt_snoc table t v rest :
  tokenAt (table ++ [(t, v)]) rest
  = match tokenAt table rest with
    | Some found => Some found
    | None => if startsWith t rest then Some (String.length t, v) else None
    end.
Proof.
  induction table as [|[T val] table IH]; simpl; [reflexivity|].
  destruct (startsWith T rest); [reflexivity | apply IH].
Qed.

Lemma tokenAt_found table rest len value :
  tokenAt table rest = Some (len, value) ->
  exists T, In (T, value) table /\ len = String.length T
            /\ startsWith T rest = true.
Proof.
  induction table as [|[T val] table IH]; simpl; [discriminate|].
  destruct (startsWith T rest) eqn:E.
  - intros [= <- <-]. exists T. auto.
  - intros H. destruct (IH H) as (T' & Hin & Hlen & Hs). exists T'. auto.
Qed.

Lemma tokenAt_mismatch table x s :
  forallb (fun T => mismatch T x) (map fst table) = true ->
  tokenAt table (x +:+ s) = None.
Proof.
  induction table as [|[T val] table IH]; simpl; [reflexivity|].
  intros H. apply andb_prop in H as [HT Htable].
  now rewrite (mismatch_startsWith _ _ s HT), IH.
Qed.

(** Text that no token of the table can start in is kept. *)
Lemma scan_inside table x s :
  noneInside (map fst table) x = true ->
  scan (tokenAt table) (x +:+ s) = x +:+ scan (tokenAt table) s.
Proof.
  induction x as [|c x IH]; [reflexivity|].
  cbn [noneInside]. intros H. apply andb_prop in H as [Hc Hx].
  change (String c x +:+ s) with (String c (x +:+ s)).
  rewrite scan_keep.
  - now rewrite (IH Hx).
  - apply (tokenAt_mismatch table (String c x) s Hc).
Qed.

(** *** A pass after the passes before it *)

Lemma replaceLiteral_plain t v s :
  plainValue v = true -> replaceLiteral t v s = scan (lit t v) s.
Proof.
  intros Hv. unfold replaceLiteral, scan, replaceGlobal.
  apply replaceFrom_ext. intros b r. unfold literalAt, lit.
  destruct (startsWith t r); [|reflexivity].
  rewrite GetSubstitution_plain; [reflexivity|].
  clear -Hv. unfold plainValue in Hv.
  induction v as [|c v IH]; [reflexivity|]. cbn [every] in *.
  apply andb_prop in Hv as [Hc Hv]. apply andb_prop in Hc as [Hc _].
  now rewrite Hc, IH.
Qed.

Lemma plainValue_no_brace v :
  plainValue v = true ->
  every (fun c => negb (Ascii.eqb c "{")) v = true.
Proof.
  unfold plainValue. induction v as [|c v IH]; [reflexivity|].
  cbn [every]. intros H. apply andb_prop in H as [Hc Hv].
  apply andb_prop in Hc as [_ Hc]. now rewrite Hc, IH.
Qed.

(** A token that starts with a brace does not start in brace-free text. *)
Lemma scan_lit_value t v x s :
  startsWith "{" t = true ->
  every (fun c => negb (Ascii.eqb c "{")) x = true ->
  scan (lit t v) (x +:+ s) = x +:+ scan (lit t v) s.
Proof.
  intros Ht. induction x as [|c x IH]; [reflexivity|].
  cbn [every]. intros H. apply andb_prop in H as [Hc Hx].
  change (String c x +:+ s) with (String c (x +:+ s)).
  rewrite scan_keep; [now rewrite (IH Hx)|].
  unfold lit. destruct t as [|d t]; [discriminate|].
  cbn [startsWith] in Ht. rewrite andb_true_r in Ht.
  apply Ascii.eqb_eq in Ht as <-.
  cbn [startsWith]. apply negb_true_iff in Hc.
  rewrite Ascii.eqb_sym in Hc. now rewrite Hc.
Qed.

Lemma braced_cons t :
  startsWith "{" t = true -> exists r, t = String "{" r.
Proof.
  destruct t as [|d r]; [discriminate|]. cbn [startsWith].
  rewrite andb_true_r. intros H. apply Ascii.eqb_eq in H as <-.
  now exists r.
Qed.

Lemma braced_length t s rest :
  startsWith "{" t = true ->
  s = t +:+ rest -> String.length rest < String.length s.
Proof.
  intros Ht ->. destruct (braced_cons t Ht) as [r ->].
  rewrite length_append. simpl. lia.
Qed.

Lemma braced_nonempty t : startsWith "{" t = true -> t <> EmptyString.
Proof. intros Ht. destruct (braced_cons t Ht) as [r ->]. discriminate. Qed.

Lemma wellPlacedFrom_append toks x :
  forall before s,
    wellPlacedFrom toks before (x +:+ s) = true ->
    wellPlacedFrom toks (before +:+ x) s = true.
Proof.
  induction x as [|c x IH]; intros before s H.
  - now rewrite append_nil_r.
  - change (String c x +:+ s) with (String c (x +:+ s)) in H.
    cbn [wellPlacedFrom] in H. apply andb_prop in H as [_ H].
    apply IH in H. now rewrite append_assoc in H.
Qed.

Section Pass.
Variable toks : list string.
Variable table : list (string * string).
Variables t v : string.

Hypothesis table_tokens : forall T val, In (T, val) table -> In T toks.
Hypothesis table_braced :
  forall T val, In (T, val) table -> startsWith "{" T = true.
Hypothesis table_plain :
  forall T val, In (T, val) table -> plainValue val = true.
Hypothesis t_token : In t toks.
Hypothesis t_braced : startsWith "{" t = true.
Hypothesis t_apart : noneInside (map fst table) t = true.

(** Substituting the tokens of the table cannot complete [t]: if the
    end of [t] shows up after its beginning in the substituted text, it
    was there before. *)
Lemma no_completion r :
  forall p before u,
    p +:+ r = t ->
    p <> EmptyString ->
    endsWith p before = true ->
    wellPlacedFrom toks before u = true ->
    startsWith r (scan (tokenAt table) u) = true ->
    startsWith r u = true.
Proof.
  induction r as [|x r IH]; intros p before u Hpr Hp Hend Hwp Hr;
    [reflexivity|].
  destruct u as [|c u]; [discriminate Hr|].
  cbn [wellPlacedFrom] in Hwp. apply andb_prop in Hwp as [Hhere Hwp].
  destruct (tokenAt table (String c u)) as [[len val]|] eqn:Hat.
  - exfalso.
    apply tokenAt_found in Hat as (T & Hin & _ & HT).
    apply negb_true_iff, andb_false_iff in Hhere as [Hno | Hno].
    + apply not_true_iff_false in Hno. apply Hno.
      apply List.existsb_exists. exists T. eauto.
    + apply not_true_iff_false in Hno. apply Hno.
      apply List.existsb_exists. exists p. split; [|exact Hend].
      apply in_flat_map. exists t. split; [exact t_token|].
      rewrite <- Hpr. apply beginnings_in; [exact Hp | discriminate].
  - rewrite (scan_keep _ _ _ Hat) in Hr. simpl in Hr |- *.
    apply andb_prop in Hr as [Hx Hr]. rewrite Hx. simpl.
    apply (IH (p +:+ String c EmptyString)
             (before +:+ String c EmptyString)).
    + apply Ascii.eqb_eq in Hx as ->.
      now rewrite append_assoc.
    + destruct p; discriminate.
    + now apply endsWith_extend.
    + exact Hwp.
    + exact Hr.
Qed.

(** The pass for [t] over the text in which the tokens of the table
    are substituted substitutes [t] as well. *)
Lemma pass_after_table n :
  forall s before,
    String.length s <= n ->
    wellPlacedFrom toks before s = true ->
    plainValue v = true ->
    scan (lit t v) (scan (tokenAt table) s)
    = scan (tokenAt (table ++ [(t, v)])) s.
Proof.
  induction n as [|n IH]; intros s before Hlen Hwp Hv.
  { destruct s; [reflexivity | simpl in Hlen; lia]. }
  destruct s as [|c s]; [reflexivity|].
  cbn [String.length] in Hlen.
  destruct (tokenAt table (String c s)) as [[len val]|] eqn:Hat.
  - (* a token of the table *)
    pose proof Hat as Hfound.
    apply tokenAt_found in Hfound as (T & Hin & -> & HT).
    pose proof (table_braced _ _ Hin) as HTb.
    apply startsWith_split in HT.
    set (rest := drop (String.length T) (String c s)) in *.
    pose proof (braced_length T _ rest HTb HT) as Hshort.
    cbn [String.length] in Hshort.
    pose proof (braced_nonempty T HTb) as HTne.
    rewrite HT in Hat, Hwp |- *.
    rewrite (scan_token _ _ _ _ HTne Hat).
    rewrite (scan_token (tokenAt (table ++ [(t, v)])) T rest val HTne).
    2:{ rewrite tokenAt_snoc. now rewrite Hat. }
    rewrite scan_lit_value;
      [|exact t_braced
       |apply plainValue_no_brace; eapply table_plain; eauto].
    f_equal. apply (IH rest (before +:+ T)); [lia| |exact Hv].
    now apply wellPlacedFrom_append.
  - destruct (startsWith t (String c s)) eqn:Ht.
    + (* the token of this pass *)
      apply startsWith_split in Ht.
      set (rest := drop (String.length t) (String c s)) in *.
      pose proof (braced_length t _ rest t_braced Ht) as Hshort.
      cbn [String.length] in Hshort.
      pose proof (braced_nonempty t t_braced) as Htne.
      rewrite Ht in Hat, Hwp |- *.
      rewrite (scan_inside table t rest t_apart).
      rewrite (scan_token (lit t v) t _ v Htne).
      2:{ unfold lit. now rewrite startsWith_append. }
      rewrite (scan_token (tokenAt (table ++ [(t, v)])) t rest v Htne).
      2:{ rewrite tokenAt_snoc, Hat. now rewrite startsWith_append. }
      f_equal. apply (IH rest (before +:+ t)); [lia| |exact Hv].
      now apply wellPlacedFrom_append.
    + (* text *)
      rewrite (scan_keep _ _ _ Hat).
      rewrite (scan_keep (tokenAt (table ++ [(t, v)]))).
      2:{ rewrite tokenAt_snoc, Hat. now rewrite Ht. }
      cbn [wellPlacedFrom] in Hwp. apply andb_prop in Hwp as [_ Hwp].
      rewrite scan_keep.
      * f_equal.
        apply (IH s (before +:+ String c EmptyString));
          [simpl in Hlen; lia | exact Hwp | exact Hv].
      * unfold lit.
        destruct (startsWith t (String c (scan (tokenAt table) s)))
          eqn:Hnew; [|reflexivity].
        exfalso. destruct (braced_cons t t_braced) as [r Heq].
        rewrite Heq in Hnew, Ht. cbn [startsWith] in Hnew, Ht.
        apply andb_prop in Hnew as [Hd Hr].
        assert (startsWith r s = true) as Hold.
        { apply (no_completion r (String "{" EmptyString)
                   (before +:+ String c EmptyString) s);
            [symmetry; exact Heq | discriminate | | exact Hwp | exact Hr].
          apply Ascii.eqb_eq in Hd as <-. apply endsWith_last. }
        rewrite Hd, Hold in Ht. discriminate.
Qed.
End Pass.

(** *** The chain of passes *)

Lemma replacePlaceholders_chain projectName options content :
  replacePlaceholders projectName options content
  = chain (replacements projectName options) content.
Proof. reflexivity. Qed.

Lemma scan_nothing s : scan (tokenAt []) s = s.
Proof.
  induction s as [|c s IH]; [reflexivity|].
  rewrite scan_keep; [now rewrite IH | reflexivity].
Qed.

(** The passes over the rest of the table, run on the text in which the
    tokens done so far are substituted, substitute the whole table. *)
Lemma chain_after toks rest :
  forall done content,
    (forall T val, In (T, val) (done ++ rest) ->
                   In T toks /\ startsWith "{" T = true
                   /\ plainValue val = true) ->
    chainApart (map fst done) (map fst rest) = true ->
    wellPlacedFrom toks EmptyString content = true ->
    chain rest (scan (tokenAt done) content)
    = scan (tokenAt (done ++ rest)) content.
Proof.
  induction rest as [|[t v] rest IH]; intros done content Hall Hapart Hwp.
  - now rewrite app_nil_r.
  - cbn [map fst chainApart] in Hapart.
    apply andb_prop in Hapart as [Ht Hrest].
    destruct (Hall t v) as (Htok & Hbr & Hpl);
      [apply in_or_app; right; now left|].
    cbn [chain fold_left]. fold (chain rest).
    rewrite (replaceLiteral_plain t v _ Hpl).
    rewrite (pass_after_table toks done t v) with
      (n := String.length content) (before := EmptyString); auto.
    + replace (done ++ (t, v) :: rest) with ((done ++ [(t, v)]) ++ rest)
        by now rewrite <- app_assoc.
      apply IH; [| now rewrite map_app | exact Hwp].
      intros T val Hin. apply Hall. now rewrite <- app_assoc in Hin.
    + intros T val Hin. apply (Hall T val). apply in_or_app. now left.
    + intros T val Hin. apply (Hall T val). apply in_or_app. now left.
    + intros T val Hin. apply (Hall T val). apply in_or_app. now left.
Qed.

Lemma replacements_tokens projectName options :
  map fst (replacements projectName options) = tokens.
Proof. reflexivity. Qed.

(** C7 as stated fails in two ways that have nothing to do with the
    dollar sign.  A value that contains a later token is substituted
    again: a project named [{{apiUrl}}] comes out as the API URL.  And
    text around a token can close up to a new token: with the project
    name [base], the content [{{{{projectName}}Url}}] comes out as the
    base URL, although it holds the project-name token once and text
    that is no token. *)
Lemma chained_passes_substitute_again :
  processed "package.json" = true
  /\ processFile "{{apiUrl}}" defaultOptions "package.json"
       "{{projectName}}"
     = "http://localhost:3000/api"
  /\ substituteAll (replacements "{{apiUrl}}" defaultOptions)
       "{{projectName}}"
     = "{{apiUrl}}"
  /\ processFile "base" defaultOptions "package.json"
       "{{{{projectName}}Url}}"
     = "http://localhost:3000"
  /\ substituteAll (replacements "base" defaultOptions)
       "{{{{projectName}}Url}}"
     = "{{baseUrl}}".
Proof. repeat split; vm_compute; reflexivity. Qed.

(** C7, amended.  For a file with one of the seven extensions, when no
    configuration value contains a dollar sign or an opening brace and no
    token of the content stands directly behind the beginning of a
    token, the content the file is given is the content with every
    occurrence of each of the seven tokens replaced by its value, found
    in one pass from left to right, and all other text, unrecognized
    tokens included, as it was. *)
Theorem processFile_substitutes_all projectName options file content :
  processed file = true ->
  forallb plainValue
    [ projectName; baseUrl options; apiUrl options;
      orEmpty (adminEmail options); orEmpty (adminPassword options);
      orEmpty (userEmail options); orEmpty (userPassword options) ] = true ->
  wellPlaced content = true ->
  processFile projectName options file content
  = substituteAll (replacements projectName options) content.
Proof.
  intros Hfile Hplain Hwp. unfold processFile. rewrite Hfile.
  rewrite replacePlaceholders_chain.
  rewrite <- (scan_nothing content) at 1.
  apply (chain_after tokens (replacements projectName options) []).
  - cbn [forallb] in Hplain.
    repeat (apply andb_prop in Hplain as [? Hplain]).
    intros T val Hin. simpl in Hin.
    repeat (destruct Hin as [Hin | Hin];
            [injection Hin as <- <-;
             split; [simpl; tauto | split; [reflexivity | assumption]]|]).
    contradiction.
  - reflexivity.
  - exact Hwp.
Qed.

(** The environment example of the project templates with the default
    answers: both occurrences of the base-URL token are replaced, and
    the token that is none of the seven stays. *)
Lemma processFile_substitutes_all_witness :
  processed ".env.example" = true
  /\ wellPlaced "BASE_URL={{baseUrl}}
LOGIN={{baseUrl}}/login?as={{adminEmail}}
TITLE={{title}} for {{projectName}}" = true
  /\ processFile "demo" defaultOptions ".env.example"
       "BASE_URL={{baseUrl}}
LOGIN={{baseUrl}}/login?as={{adminEmail}}
TITLE={{title}} for {{projectName}}"
     = substituteAll (replacements "demo" defaultOptions)
         "BASE_URL={{baseUrl}}
LOGIN={{baseUrl}}/login?as={{adminEmail}}
TITLE={{title}} for {{projectName}}"
  /\ substituteAll (replacements "demo" defaultOptions)
       "BASE_URL={{baseUrl}}
LOGIN={{baseUrl}}/login?as={{adminEmail}}
TITLE={{title}} for {{projectName}}"
     = "BASE_URL=http://localhost:3000
LOGIN=http://localhost:3000/login?as=admin@example.com
TITLE={{title}} for demo".
Proof.
  split; [reflexivity|]. split; [reflexivity|].
  split; [|reflexivity].
  apply (processFile_substitutes_all "demo" defaultOptions ".env.example");
    reflexivity.
Defined.

(** A pass whose token does not occur changes nothing, whatever its
    value is. *)
Lemma replaceLiteral_absent t v s :
  tokenFree [t] s = true -> replaceLiteral t v s = s.
Proof.
  unfold replaceLiteral, replaceGlobal. generalize EmptyString.
  induction s as [|c s IH]; intros before; [reflexivity|].
  cbn [tokenFree atToken existsb]. rewrite orb_false_r.
  intros H. apply andb_prop in H as [Hc Hs]. apply negb_true_iff in Hc.
  cbn [replaceFrom]. unfold literalAt at 1. rewrite Hc.
  f_equal. now apply IH.
Qed.

Lemma tokenFree_each toks t s :
  In t toks -> tokenFree toks s = true -> tokenFree [t] s = true.
Proof.
  intros Hin. induction s as [|c s IH]; cbn [tokenFree atToken existsb];
    rewrite orb_false_r; intros H; apply andb_prop in H as [Hc Hs];
    apply negb_true_iff in Hc;
    (assert (startsWith t _ = false) as ->;
     [ destruct (startsWith t _) eqn:E; [|reflexivity];
       rewrite <- Hc; symmetry; apply List.existsb_exists; eauto
     | ]).
  - reflexivity.
  - simpl. now apply IH.
Qed.

(** Content in which none of the seven tokens occurs is left as it is,
    unrecognized tokens and all, whatever the configuration values are. *)
Lemma processFile_token_free projectName options file content :
  tokenFree tokens content = true ->
  processFile projectName options file content = content.
Proof.
  intros Hfree. unfold processFile. destruct (processed file); [|reflexivity].
  rewrite replacePlaceholders_chain.
  assert (forall table,
             (forall t v, In (t, v) table -> In t tokens) ->
             chain table content = content) as Hchain.
  { induction table as [|[t v] table IH]; intros Hin; [reflexivity|].
    cbn [chain fold_left]. fold (chain table).
    rewrite replaceLiteral_absent.
    - apply IH. intros t' v' H. apply (Hin t' v'). now right.
    - apply (tokenFree_each tokens); [|exact Hfree].
      apply (Hin t v). now left. }
  apply Hchain. intros t v Hin. rewrite <- (replacements_tokens projectName options).
  apply (in_map fst) in Hin. exact Hin.
Qed.

(** A file with another extension keeps its content. *)
Lemma processFile_other_extension projectName options file content :
  processed file = false ->
  processFile projectName options file content = content.
Proof. intros H. unfold processFile. now rewrite H. Qed.

(** *** Dollar signs in values *)

(** C10, at a password with two dollar signs.  The replacement text of
    [replace] is read as a pattern: [$$] stands for one dollar sign and
    [$&] for the matched token.  The example file of the templates gets
    [pa$word] for the password [pa$$word], and a URL ending in [$&] gets
    the token back; the [.env] file, written by the same function from
    the same options through a template literal, holds the password as
    it was typed. *)
Theorem dollar_patterns_are_expanded :
  processFile "demo" dollarOptions ".env.example"
    "ADMIN_PASSWORD={{adminPassword}}"
  = "ADMIN_PASSWORD=pa$word"
  /\ includes "ADMIN_PASSWORD=pa$$word
" (envContent dollarOptions) = true
  /\ replaceLiteral PLACEHOLDERS.API_URL "http://localhost/$&"
       "API_URL={{apiUrl}}"
     = "API_URL=http://localhost/{{apiUrl}}".
Proof. repeat split; vm_compute; reflexivity. Qed.

End PlaceholderFacts.

(** ** Loops over patterns with the [g] flag *)

Module MatchingFacts.
Import Js Scanner Matching StringFacts WebSocketFacts.

Lemma includes_unfold needle hay :
  includes needle hay
  = startsWith needle hay
    || match hay with
       | EmptyString => false
       | String _ hay' => includes needle hay'
       end.
Proof. now destruct hay. Qed.

Lemma includes_spec needle hay :
  includes needle hay = true
  <-> exists head tail, hay = head +:+ needle +:+ tail.
Proof.
  split.
  - induction hay as [|c hay IH]; rewrite includes_unfold; intros H;
      apply orb_prop in H as [H | H]; try discriminate.
    + apply startsWith_split in H. now exists EmptyString, (drop (String.length needle) EmptyString).
    + apply startsWith_split in H.
      now exists EmptyString, (drop (String.length needle) (String c hay)).
    + destruct (IH H) as (head & tail & ->). now exists (String c head), tail.
  - intros (head & tail & ->). induction head as [|c head IH].
    + rewrite includes_unfold. change (EmptyString +:+ needle +:+ tail) with (needle +:+ tail).
      now rewrite startsWith_append.
    + rewrite includes_unfold. change (String c head +:+ needle +:+ tail) with (String c (head +:+ needle +:+ tail)).
      cbv beta iota. rewrite IH. apply orb_true_r.
Qed.

Lemma includes_prefix p q hay :
  includes (p +:+ q) hay = true -> includes p hay = true.
Proof.
  intros H. apply includes_spec in H as (head & tail & ->).
  apply includes_spec. exists head, (q +:+ tail).
  now rewrite append_assoc.
Qed.

Lemma drop_split n s : exists head, s = head +:+ drop n s.
Proof.
  revert n. induction s as [|c s IH]; intros [|n]; simpl.
  - now exists EmptyString.
  - now exists EmptyString.
  - now exists EmptyString.
  - destruct (IH n) as [head Hh]. exists (String c head). simpl. congruence.
Qed.

Lemma includes_drop needle n s :
  includes needle (drop n s) = true -> includes needle s = true.
Proof.
  intros H. apply includes_spec in H as (head & tail & H).
  destruct (drop_split n s) as [h0 Hs]. apply includes_spec.
  exists (h0 +:+ head), tail. rewrite Hs at 1. rewrite H.
  now rewrite append_assoc.
Qed.

Lemma literal_split p :
  forall s r, literal p s = Some r -> s = p +:+ r.
Proof.
  induction p as [|a p IH]; intros [|b s] r; simpl; try easy.
  - now intros [= <-].
  - now intros [= <-].
  - destruct (Ascii.eqb a b) eqn:E; [|discriminate].
    apply Ascii.eqb_eq in E as ->. intros H. now rewrite (IH _ _ H).
Qed.

Lemma skipSpaces_split s : exists spaces, s = spaces +:+ skipSpaces s.
Proof.
  induction s as [|c s IH]; simpl.
  - now exists EmptyString.
  - destruct (isSpace c).
    + destruct IH as [sp Hs]. exists (String c sp). simpl. congruence.
    + now exists EmptyString.
Qed.

Lemma someSpaces_split s r :
  someSpaces s = Some r -> exists spaces, s = spaces +:+ r.
Proof.
  destruct s as [|c s]; simpl; [discriminate|].
  destruct (isSpace c); [|discriminate]. intros [= <-].
  destruct (skipSpaces_split s) as [sp Hs]. exists (String c sp).
  simpl. congruence.
Qed.

Lemma someSpaces_length s r :
  someSpaces s = Some r -> String.length r < String.length s.
Proof.
  destruct s as [|c s]; simpl; [discriminate|].
  destruct (isSpace c); [|discriminate]. intros [= <-].
  pose proof (skipSpaces_length s). lia.
Qed.

Lemma untilQuote_split s :
  s = fst (untilQuote s) +:+ snd (untilQuote s)
  /\ every (fun c => negb (isQuote c)) (fst (untilQuote s)) = true.
Proof.
  induction s as [|c s [IH1 IH2]]; simpl; [easy|].
  destruct (isQuote c) eqn:E; simpl; [easy|].
  destruct (untilQuote s) as [u r]. simpl in *. rewrite E. simpl.
  split; congruence.
Qed.

(** A quoted path is what the subject holds between two quotes: it
    starts with a slash and has no quote inside. *)
Lemma quotedPath_spec s after path :
  quotedPath s = Some (after, path) ->
  startsWith "/" path = true
  /\ every (fun c => negb (isQuote c)) path = true
  /\ (exists q1 q2, s = String q1 (path +:+ String q2 after))
  /\ String.length after < String.length s.
Proof.
  unfold quotedPath.
  destruct (quote s) as [r1|] eqn:H1; [|discriminate].
  cbn [mbind option_bind].
  destruct (literal "/" r1) as [r2|] eqn:H2; [|discriminate].
  cbn [mbind option_bind].
  destruct (untilQuote_split r2) as [H3 H3']. pose proof (untilQuote_length r2) as H3l.
  destruct (untilQuote r2) as [tail r3]. cbn [fst snd] in *.
  destruct (quote r3) as [r4|] eqn:H4; [|discriminate].
  cbn [mbind option_bind]. intros [= <- <-].
  apply literal_split in H2.
  destruct s as [|q1 s]; [discriminate|]. simpl in H1.
  destruct (isQuote q1); [|discriminate]. injection H1 as <-.
  destruct r3 as [|q2 r3]; [discriminate|]. simpl in H4.
  destruct (isQuote q2); [|discriminate]. injection H4 as <-.
  subst. split; [reflexivity|]. split; [exact H3'|]. split.
  - now exists q1, q2.
  - cbn [String.append String.length]. rewrite length_append.
    cbn [String.length]. lia.
Qed.

Section Loop.
Context {G A : Type}.
Variable m : Matcher G.

Lemma search_bounds :
  advancing G m ->
  forall rest prev idx i len g,
    search G m prev rest idx = Some (i, len, g) ->
    idx < i + len <= idx + String.length rest.
Proof.
  intros Hm. induction rest as [|c rest IH]; intros prev idx i len g;
    cbn [search].
  - destruct (m prev EmptyString) as [[l g']|] eqn:E; [|discriminate].
    intros [= <- <- <-]. apply Hm in E. simpl in *. lia.
  - destruct (m prev (String c rest)) as [[l g']|] eqn:E.
    + intros [= <- <- <-]. apply Hm in E. simpl in *. lia.
    + intros H. apply IH in H. simpl. lia.
Qed.

(** What [search] finds is a match of the pattern at some position. *)
Lemma search_found :
  forall rest prev idx i len g,
    search G m prev rest idx = Some (i, len, g) ->
    exists prev' k, m prev' (drop k rest) = Some (len, g).
Proof.
  induction rest as [|c rest IH]; intros prev idx i len g; cbn [search].
  - destruct (m prev EmptyString) as [[l g']|] eqn:E; [|discriminate].
    intros [= <- <- <-]. now exists prev, 0.
  - destruct (m prev (String c rest)) as [[l g']|] eqn:E.
    + intros [= <- <- <-]. now exists prev, 0.
    + intros H. destruct (IH _ _ _ _ _ H) as (prev' & k & Hk).
      now exists prev', (S k).
Qed.

Lemma execGlobal_advances content lastIndex g lastIndex' :
  advancing G m ->
  execGlobal G m content lastIndex = (Some g, lastIndex') ->
  lastIndex < lastIndex' <= String.length content.
Proof.
  intros Hm. unfold execGlobal.
  destruct (String.length content <? lastIndex) eqn:Hlen; [discriminate|].
  apply Nat.ltb_ge in Hlen.
  destruct (search G m (charBefore lastIndex content)
              (drop lastIndex content) lastIndex)
    as [[[i len] g']|] eqn:Hs; [|discriminate].
  intros [= <- <-]. apply (search_bounds Hm) in Hs.
  rewrite length_of_drop in Hs. lia.
Qed.

Lemma execGlobal_found content lastIndex g lastIndex' :
  execGlobal G m content lastIndex = (Some g, lastIndex') ->
  exists prev k len, m prev (drop k content) = Some (len, g).
Proof.
  unfold execGlobal.
  destruct (String.length content <? lastIndex); [discriminate|].
  destruct (search G m (charBefore lastIndex content)
              (drop lastIndex content) lastIndex)
    as [[[i len] g']|] eqn:Hs; [|discriminate].
  intros [= <- <-]. destruct (search_found _ _ _ _ _ _ Hs) as (prev & k & Hk).
  exists prev, (lastIndex + k), len.
  replace (drop (lastIndex + k) content) with (drop k (drop lastIndex content)); [exact Hk|].
  clear. revert lastIndex. induction content as [|c s IH]; intros [|n]; simpl; auto.
  - now destruct k.
Qed.

Variable body : G -> list A -> list A.

(** The loop returns once [fuel] exceeds what is left of the content. *)
Lemma execWhile_returns content :
  advancing G m ->
  forall fuel lastIndex acc,
    S (String.length content) - lastIndex < fuel ->
    exists acc', execWhile G A fuel m body content lastIndex acc = Some acc'.
Proof.
  intros Hm. induction fuel as [|fuel IH]; intros lastIndex acc Hfuel; [lia|].
  cbn [execWhile].
  destruct (execGlobal G m content lastIndex) as [[g|] lastIndex'] eqn:He.
  - apply (execGlobal_advances _ _ _ _ Hm) in He. apply IH. lia.
  - now exists acc.
Qed.

(** What holds of the list before the loop and is kept by the body on
    every match of the pattern in the content holds after the loop. *)
Lemma execWhile_invariant (P : list A -> Prop) content :
  (forall prev k len g acc,
      m prev (drop k content) = Some (len, g) -> P acc -> P (body g acc)) ->
  forall fuel lastIndex acc acc',
    P acc ->
    execWhile G A fuel m body content lastIndex acc = Some acc' ->
    P acc'.
Proof.
  intros Hbody. induction fuel as [|fuel IH]; intros lastIndex acc acc' Hacc;
    cbn [execWhile]; [discriminate|].
  destruct (execGlobal G m content lastIndex) as [[g|] lastIndex'] eqn:He.
  - destruct (execGlobal_found _ _ _ _ He) as (prev & k & len & Hk).
    apply IH. now apply (Hbody prev k len).
  - now intros [= <-].
Qed.

End Loop.

End MatchingFacts.

(** ** API endpoints *)

Module ApiScanFacts.
Import Js Scanner Templates Matching ApiScan.
Import StringFacts WebSocketFacts MatchingFacts.

Lemma firstAlternative_found {R : Type} alternatives rest
    (k : string -> string -> option R) found :
  firstAlternative alternatives rest k = Some found ->
  exists a r,
    In a alternatives /\ literal a rest = Some r /\ k a r = Some found.
Proof.
  induction alternatives as [|a alternatives IH]; cbn [firstAlternative];
    [discriminate|].
  destruct (literal a rest) as [r|] eqn:Hl; cbn [mbind option_bind].
  - destruct (k a r) as [f|] eqn:Hk.
    + intros [= <-]. exists a, r. repeat split; auto. now left.
    + intros H. destruct (IH H) as (a' & r' & Hin & H1 & H2).
      exists a', r'. repeat split; auto. now right.
  - intros H. destruct (IH H) as (a' & r' & Hin & H1 & H2).
    exists a', r'. repeat split; auto. now right.
Qed.

Lemma includes_append_r head needle :
  forall s, includes needle s = true -> includes needle (head +:+ s) = true.
Proof.
  intros s H. apply includes_spec in H as (h & t & ->).
  apply includes_spec. exists (head +:+ h), t. now rewrite append_assoc.
Qed.

Lemma routeArgument_spec s after path :
  routeArgument s = Some (after, path) ->
  startsWith "/" path = true
  /\ every (fun c => negb (isQuote c)) path = true
  /\ includes path s = true
  /\ String.length after < String.length s.
Proof.
  unfold routeArgument.
  destruct (literal "(" (skipSpaces s)) as [r1|] eqn:H1; [|discriminate].
  cbn [mbind option_bind]. intros H.
  apply quotedPath_spec in H as (Hs & Hq & (q1 & q2 & Hr) & Hlen).
  pose proof (skipSpaces_length s) as L1.
  pose proof (skipSpaces_length r1) as L2.
  pose proof (literal_length _ _ _ H1) as L3. simpl in L3.
  apply literal_split in H1.
  destruct (skipSpaces_split s) as [sp1 E1].
  destruct (skipSpaces_split r1) as [sp2 E2].
  repeat split; auto; [|lia].
  rewrite E1. apply includes_append_r. rewrite H1.
  apply includes_append_r. rewrite E2. apply includes_append_r.
  rewrite Hr. apply includes_spec.
  now exists (String q1 EmptyString), (String q2 after).
Qed.

(** A match of either route pattern: the method is one of the five, the
    path starts with a slash, has no quote and is text of the subject,
    and the match is not empty. *)
Lemma routesPattern_spec (at_ : string) (names : list string) rest len
    verb path :
  (r1 ← literal at_ rest;
   firstAlternative names r1
     (fun verb r2 =>
        '(after, path) ← routeArgument r2;
        Some (matchLength rest after, (verb, path))))
  = Some (len, (verb, path)) ->
  In verb names
  /\ startsWith "/" path = true
  /\ every (fun c => negb (isQuote c)) path = true
  /\ includes path rest = true
  /\ 1 <= len <= String.length rest.
Proof.
  destruct (literal at_ rest) as [r1|] eqn:H1; [|discriminate].
  cbn [mbind option_bind]. intros H.
  apply firstAlternative_found in H as (a & r2 & Hin & H2 & H3).
  destruct (routeArgument r2) as [[after p]|] eqn:H4; [|discriminate].
  cbn [mbind option_bind] in H3. injection H3 as <- <- <-.
  apply routeArgument_spec in H4 as (Hs & Hq & Hi & Hl).
  pose proof (literal_length _ _ _ H1) as L1.
  pose proof (literal_length _ _ _ H2) as L2.
  apply literal_split in H1, H2.
  repeat split; auto.
  - rewrite H1. apply includes_append_r. rewrite H2.
    now apply includes_append_r.
  - unfold matchLength. lia.
  - unfold matchLength. lia.
Qed.

Lemma expressRoutesPattern_spec prev rest len verb path :
  expressRoutesPattern prev rest = Some (len, (verb, path)) ->
  In (toUpperCase verb) verbs
  /\ startsWith "/" path = true
  /\ every (fun c => negb (isQuote c)) path = true
  /\ includes path rest = true
  /\ 1 <= len <= String.length rest.
Proof.
  intros H. apply routesPattern_spec in H as (Hin & H).
  split; [|exact H]. cbn [In] in Hin.
  repeat (destruct Hin as [<- | Hin]; [vm_compute; tauto|]).
  contradiction.
Qed.

Lemma nestRoutesPattern_spec prev rest len verb path :
  nestRoutesPattern prev rest = Some (len, (verb, path)) ->
  In (toUpperCase verb) verbs
  /\ startsWith "/" path = true
  /\ every (fun c => negb (isQuote c)) path = true
  /\ includes path rest = true
  /\ 1 <= len <= String.length rest.
Proof.
  intros H. apply routesPattern_spec in H as (Hin & H).
  split; [|exact H]. cbn [In] in Hin.
  repeat (destruct Hin as [<- | Hin]; [vm_compute; tauto|]).
  contradiction.
Qed.

Lemma expressRoutesPattern_advancing : advancing _ expressRoutesPattern.
Proof.
  intros prev rest len [verb path] H.
  now apply expressRoutesPattern_spec in H.
Qed.

Lemma nestRoutesPattern_advancing : advancing _ nestRoutesPattern.
Proof.
  intros prev rest len [verb path] H.
  now apply nestRoutesPattern_spec in H.
Qed.

Section Invariant.
Variable files : list (string * string).

(** An endpoint read from one of [files]. *)
Let fromFiles (e : Endpoint) : Prop :=
  In (endpointMethod e) verbs
  /\ startsWith "/" (endpointPath e) = true
  /\ every (fun c => negb (isQuote c)) (endpointPath e) = true
  /\ exists file content,
       In (file, content) files
       /\ endpointFile e = Some file
       /\ includes (endpointPath e) content = true.

Lemma scanApiFile_fromFiles fuel found file content found' :
  In (file, content) files ->
  Forall fromFiles (endpoints found) ->
  scanApiFile fuel found file content = Some found' ->
  Forall fromFiles (endpoints found').
Proof.
  intros Hin Hacc. unfold scanApiFile.
  destruct (execWhile _ _ fuel expressRoutesPattern (pushEndpoint file)
              content 0 (endpoints found)) as [express|] eqn:H1;
    [|discriminate].
  cbn [mbind option_bind].
  destruct (execWhile _ _ fuel nestRoutesPattern (pushEndpoint file)
              content 0 express) as [nest|] eqn:H2; [|discriminate].
  cbn [mbind option_bind]. intros [= <-]. cbn [endpoints].
  assert (Hpush : forall verb path k acc,
             In (toUpperCase verb) verbs
             /\ startsWith "/" path = true
             /\ every (fun c => negb (isQuote c)) path = true
             /\ includes path (drop k content) = true
             /\ 1 <= 0 + 1 ->
             Forall fromFiles acc ->
             Forall fromFiles (pushEndpoint file (verb, path) acc)).
  { intros verb path k acc (Hv & Hs & Hq & Hi & _) Ha. unfold pushEndpoint.
    apply List.Forall_app. split; [exact Ha|].
    apply List.Forall_cons; [|apply List.Forall_nil].
    unfold fromFiles. cbn [endpointMethod endpointPath endpointFile fst snd].
    repeat split; auto. exists file, content. repeat split; auto.
    now apply (includes_drop path k). }
  apply (execWhile_invariant nestRoutesPattern (pushEndpoint file)
           (Forall fromFiles) content) with (3 := H2).
  - intros prev k len [verb path] acc Hm. apply (Hpush verb path k).
    apply nestRoutesPattern_spec in Hm. intuition lia.
  - apply (execWhile_invariant expressRoutesPattern (pushEndpoint file)
             (Forall fromFiles) content) with (3 := H1); [|exact Hacc].
    intros prev k len [verb path] acc Hm. apply (Hpush verb path k).
    apply expressRoutesPattern_spec in Hm. intuition lia.
Qed.

Lemma scanApiFiles_fromFiles fuel :
  forall some found found',
    (forall f, In f some -> In f files) ->
    Forall fromFiles (endpoints found) ->
    scanApiFiles fuel some found = Some found' ->
    Forall fromFiles (endpoints found').
Proof.
  induction some as [|[file content] some IH]; intros found found' Hsub Hacc;
    cbn [scanApiFiles].
  - now intros [= <-].
  - destruct (scanApiFile fuel found file content) as [found1|] eqn:H1;
      [|discriminate].
    cbn [mbind option_bind]. apply IH.
    + intros f Hf. apply Hsub. now right.
    + apply (scanApiFile_fromFiles fuel found file content found1); auto.
      apply Hsub. now left.
Qed.

End Invariant.

(** Every endpoint the scan reports was read from a scanned file: its
    method is one of [GET], [POST], [PUT], [DELETE] and [PATCH] in upper
    case, its path starts with a slash, has no quote of either kind and
    is text of the file it is reported for. *)
Theorem endpoints_are_read_from_files fuel files found :
  analyzeApiEndpoints fuel files = Some found ->
  forall e,
    In e (endpoints found) ->
    In (endpointMethod e) verbs
    /\ startsWith "/" (endpointPath e) = true
    /\ every (fun c => negb (isQuote c)) (endpointPath e) = true
    /\ exists file content,
         In (file, content) files
         /\ endpointFile e = Some file
         /\ includes (endpointPath e) content = true.
Proof.
  intros H e He.
  apply (scanApiFiles_fromFiles files) in H;
    [|auto|apply List.Forall_nil].
  rewrite List.Forall_forall in H. apply (H e He).
Qed.

Lemma endpoints_are_read_from_files_witness :
  In "POST" verbs
  /\ startsWith "/" "/users" = true
  /\ every (fun c => negb (isQuote c)) "/users" = true
  /\ exists file content,
       In (file, content) [("routes.js", usersRoutes)]
       /\ Some "routes.js" = Some file
       /\ includes "/users" content = true.
Proof.
  apply (endpoints_are_read_from_files 40 [("routes.js", usersRoutes)]
           {| endpoints :=
                [{| endpointMethod := "GET"; endpointPath := "/users";
                    endpointFile := Some "routes.js" |};
                 {| endpointMethod := "POST"; endpointPath := "/users";
                    endpointFile := Some "routes.js" |}];
              hasAuthentication := false |}
           eq_refl
           {| endpointMethod := "POST"; endpointPath := "/users";
              endpointFile := Some "routes.js" |}).
  simpl. tauto.
Defined.

Lemma scanApiFile_returns fuel found file content :
  String.length content + 2 <= fuel ->
  exists found', scanApiFile fuel found file content = Some found'.
Proof.
  intros Hfuel. unfold scanApiFile.
  destruct (execWhile_returns expressRoutesPattern (pushEndpoint file)
              content expressRoutesPattern_advancing fuel 0
              (endpoints found)) as [express ->]; [lia|].
  cbn [mbind option_bind].
  destruct (execWhile_returns nestRoutesPattern (pushEndpoint file)
              content nestRoutesPattern_advancing fuel 0 express)
    as [nest ->]; [lia|].
  cbn [mbind option_bind]. eauto.
Qed.

Lemma scanApiFiles_returns fuel :
  forall files found,
    (forall file content,
        In (file, content) files -> String.length content + 2 <= fuel) ->
    exists found', scanApiFiles fuel files found = Some found'.
Proof.
  induction files as [|[file content] files IH]; intros found Hfuel;
    cbn [scanApiFiles]; [eauto|].
  destruct (scanApiFile_returns fuel found file content) as [found1 ->].
  { apply (Hfuel file content). now left. }
  cbn [mbind option_bind]. apply IH.
  intros f c Hin. apply (Hfuel f c). now right.
Qed.

(** The endpoint scan returns for every list of files: both route
    patterns have the [g] flag and match no empty text, so each loop
    makes at most one call of [exec] per code unit of the content and a
    last one that fails.  (The websocket scan does not have this
    property.) *)
Theorem analyzeApiEndpoints_returns files :
  exists found, analyzeApiEndpoints (scanFuel files) files = Some found.
Proof.
  apply scanApiFiles_returns. intros file content Hin.
  apply (scanFuel_enough files file content Hin).
Qed.

Lemma mentionsAuthentication_short content :
  mentionsAuthentication content
  = includes "login" content || includes "signin" content
    || includes "auth" content.
Proof.
  unfold mentionsAuthentication.
  destruct (includes "authenticate" content) eqn:E.
  - apply (includes_prefix "auth" "enticate") in E. rewrite E.
    now rewrite !orb_true_r.
  - now rewrite orb_false_r.
Qed.

Lemma scanApiFiles_flag fuel :
  forall files found found',
    scanApiFiles fuel files found = Some found' ->
    hasAuthentication found'
    = hasAuthentication found
      || existsb (fun f => mentionsAuthentication (snd f)) files.
Proof.
  induction files as [|[file content] files IH]; intros found found';
    cbn [scanApiFiles existsb].
  - intros [= <-]. now rewrite orb_false_r.
  - destruct (scanApiFile fuel found file content) as [found1|] eqn:H1;
      [|discriminate].
    cbn [mbind option_bind]. intros H. rewrite (IH _ _ H).
    unfold scanApiFile in H1.
    destruct (execWhile _ _ fuel expressRoutesPattern (pushEndpoint file)
                content 0 (endpoints found)) as [express|]; [|discriminate].
    cbn [mbind option_bind] in H1.
    destruct (execWhile _ _ fuel nestRoutesPattern (pushEndpoint file)
                content 0 express) as [nest|]; [|discriminate].
    cbn [mbind option_bind] in H1. injection H1 as <-.
    cbn [hasAuthentication snd].
    destruct (mentionsAuthentication content), (hasAuthentication found);
      reflexivity.
Qed.

(** [hasAuthentication] is set exactly when the text of some scanned
    file has [login], [signin] or [auth] somewhere in it, inside a longer
    word too; the check for [authenticate] decides nothing, the word
    having [auth] in it. *)
Theorem hasAuthentication_by_substring fuel files found :
  analyzeApiEndpoints fuel files = Some found ->
  hasAuthentication found
  = existsb (fun f => includes "login" (snd f) || includes "signin" (snd f)
                      || includes "auth" (snd f)) files.
Proof.
  intros H. apply scanApiFiles_flag in H. rewrite H. cbn [hasAuthentication].
  rewrite orb_false_l. clear H.
  induction files as [|f files IH]; [reflexivity|].
  cbn [existsb]. now rewrite mentionsAuthentication_short, IH.
Qed.

Lemma hasAuthentication_by_substring_witness :
  true
  = existsb (fun f => includes "login" (snd f) || includes "signin" (snd f)
                      || includes "auth" (snd f))
      [("books.js", "app.get('/books', byAuthor);
const authors = [];")].
Proof.
  apply (hasAuthentication_by_substring 60
           [("books.js", "app.get('/books', byAuthor);
const authors = [];")]
           {| endpoints :=
                [{| endpointMethod := "GET"; endpointPath := "/books";
                    endpointFile := Some "books.js" |}];
              hasAuthentication := true |}).
  reflexivity.
Defined.

End ApiScanFacts.

(** ** UI components and routes *)

Module UiScanFacts.
Import Js Scanner Templates Matching UiScan Framework.
Import StringFacts WebSocketFacts MatchingFacts ApiScanFacts.

Lemma alphanumericRun_split s :
  s = fst (alphanumericRun s) +:+ snd (alphanumericRun s)
  /\ every isAlphanumeric (fst (alphanumericRun s)) = true.
Proof.
  induction s as [|c s [IH1 IH2]]; cbn [alphanumericRun]; [easy|].
  destruct (isAlphanumeric c) eqn:E; [|easy].
  destruct (alphanumericRun s) as [run rest]. cbn [fst snd] in *.
  cbn [every]. rewrite E. simpl. split; congruence.
Qed.

Lemma capitalizedName_spec s name after :
  capitalizedName s = Some (name, after) ->
  capitalized name = true /\ s = name +:+ after.
Proof.
  destruct s as [|c s]; cbn [capitalizedName]; [discriminate|].
  destruct (isCapital c) eqn:E; [|discriminate].
  destruct (alphanumericRun_split s) as [H1 H2].
  destruct (alphanumericRun s) as [run rest]. cbn [fst snd] in *.
  intros [= <- <-]. split.
  - cbn [capitalized]. now rewrite E, H2.
  - simpl. congruence.
Qed.

Lemma exportedName_spec s name after :
  exportedName s = Some (name, after) ->
  capitalized name = true /\ exists head, s = head +:+ name +:+ after.
Proof.
  unfold exportedName.
  destruct (firstAlternative ["function"; "const"; "class"] s
              (fun _ r => someSpaces r ≫= capitalizedName))
    as [found|] eqn:H.
  - intros [= ->].
    apply firstAlternative_found in H as (a & r & _ & H1 & H2).
    destruct (someSpaces r) as [r'|] eqn:H3; [|discriminate].
    cbn [mbind option_bind] in H2.
    apply capitalizedName_spec in H2 as [Hn ->].
    apply literal_split in H1 as ->.
    apply someSpaces_split in H3 as [sp ->].
    split; [exact Hn|]. exists (a +:+ sp). now rewrite append_assoc.
  - intros H1. apply capitalizedName_spec in H1 as [Hn ->].
    split; [exact Hn|]. now exists EmptyString.
Qed.

Lemma length_inside head name after :
  String.length after
  <= String.length (head +:+ name +:+ after) - String.length name.
Proof. rewrite !length_append. lia. Qed.

Lemma componentPattern_spec prev rest len name :
  componentPattern prev rest = Some (len, name) ->
  capitalized name = true
  /\ includes name rest = true
  /\ 1 <= len <= String.length rest.
Proof.
  unfold componentPattern.
  destruct (literal "export" rest) as [r1|] eqn:H1; [|discriminate].
  cbn [mbind option_bind].
  destruct (someSpaces r1) as [r2|] eqn:H2; [|discriminate].
  cbn [mbind option_bind].
  pose proof (literal_length _ _ _ H1) as L1. simpl in L1.
  pose proof (someSpaces_length _ _ H2) as L2.
  apply literal_split in H1 as ->. apply someSpaces_split in H2 as [sp1 ->].
  assert (Hname : forall s found,
             exportedName s = Some found ->
             (exists head, r2 = head +:+ s) ->
             capitalized (fst found) = true
             /\ includes (fst found) r2 = true
             /\ String.length (snd found) <= String.length r2).
  { intros s [n after] Hs [h0 ->]. cbn [fst snd].
    apply exportedName_spec in Hs as [Hn [head ->]].
    split; [exact Hn|]. split.
    - apply includes_append_r. apply includes_spec. now exists head, after.
    - rewrite !length_append. lia. }
  assert (Hfound : forall found,
             capitalized (fst found) = true
             /\ includes (fst found) r2 = true
             /\ String.length (snd found) <= String.length r2 ->
             Some (matchLength ("export" +:+ sp1 +:+ r2) (snd found),
                   fst found) = Some (len, name) ->
             capitalized name = true
             /\ includes name ("export" +:+ sp1 +:+ r2) = true
             /\ 1 <= len <= String.length ("export" +:+ sp1 +:+ r2)).
  { intros [n after] (Hn & Hi & Hl). cbn [fst snd]. intros [= <- <-].
    split; [exact Hn|]. split.
    - now do 2 apply includes_append_r.
    - unfold matchLength. cbn [fst snd] in Hl.
      pose proof (length_append sp1 r2).
      cbn [String.append String.length]. lia. }
  destruct ((literal "default" r2 ≫= someSpaces) ≫= exportedName)
    as [found|] eqn:Hd.
  - destruct found as [n after]. cbn [mbind option_bind]. intros H.
    apply (Hfound (n, after)); [|exact H].
    destruct (literal "default" r2) as [r3|] eqn:H3; [|discriminate].
    cbn [mbind option_bind] in Hd.
    destruct (someSpaces r3) as [r4|] eqn:H4; [|discriminate].
    cbn [mbind option_bind] in Hd.
    apply (Hname r4 (n, after) Hd).
    apply literal_split in H3 as ->. apply someSpaces_split in H4 as [sp ->].
    exists ("default" +:+ sp). now rewrite append_assoc.
  - destruct (exportedName r2) as [[n after]|] eqn:He; [|discriminate].
    cbn [mbind option_bind]. intros H.
    apply (Hfound (n, after)); [|exact H].
    apply (Hname r2 (n, after) He). now exists EmptyString.
Qed.

Lemma routePattern_spec prev rest len path :
  routePattern prev rest = Some (len, path) ->
  startsWith "/" path = true
  /\ every (fun c => negb (isQuote c)) path = true
  /\ includes path rest = true
  /\ 1 <= len <= String.length rest.
Proof.
  unfold routePattern.
  destruct (literal "<Route" rest) as [r1|] eqn:H1; [|discriminate].
  cbn [mbind option_bind].
  destruct (someSpaces r1) as [r2|] eqn:H2; [|discriminate].
  cbn [mbind option_bind].
  destruct (literal "path=" r2) as [r3|] eqn:H3; [|discriminate].
  cbn [mbind option_bind].
  destruct (quotedPath r3) as [[after p]|] eqn:H4; [|discriminate].
  cbn [mbind option_bind]. intros [= <- <-].
  apply quotedPath_spec in H4 as (Hs & Hq & (q1 & q2 & Hr) & Hl).
  pose proof (literal_length _ _ _ H1) as L1.
  pose proof (someSpaces_length _ _ H2) as L2.
  pose proof (literal_length _ _ _ H3) as L3.
  apply literal_split in H1 as ->. apply someSpaces_split in H2 as [sp ->].
  apply literal_split in H3 as ->.
  repeat split; auto.
  - do 3 apply includes_append_r. rewrite Hr. apply includes_spec.
    now exists (String q1 EmptyString), (String q2 after).
  - unfold matchLength. lia.
  - unfold matchLength. lia.
Qed.

Lemma nextRoutePattern_spec prev rest len path :
  nextRoutePattern prev rest = Some (len, path) ->
  startsWith "/" path = true
  /\ every (fun c => negb (isQuote c)) path = true
  /\ includes path rest = true
  /\ 1 <= len <= String.length rest.
Proof.
  unfold nextRoutePattern.
  destruct (someSpaces rest) as [r1|] eqn:H1; [|discriminate].
  cbn [mbind option_bind].
  destruct (literal "path:" r1) as [r2|] eqn:H2; [|discriminate].
  cbn [mbind option_bind].
  destruct (quotedPath (skipSpaces r2)) as [[after p]|] eqn:H4;
    [|discriminate].
  cbn [mbind option_bind]. intros [= <- <-].
  apply quotedPath_spec in H4 as (Hs & Hq & (q1 & q2 & Hr) & Hl).
  pose proof (someSpaces_length _ _ H1) as L1.
  pose proof (literal_length _ _ _ H2) as L2.
  pose proof (skipSpaces_length r2) as L3.
  apply someSpaces_split in H1 as [sp ->]. apply literal_split in H2 as ->.
  destruct (skipSpaces_split r2) as [sp2 E2].
  repeat split; auto.
  - do 2 apply includes_append_r. rewrite E2. apply includes_append_r.
    rewrite Hr. apply includes_spec.
    now exists (String q1 EmptyString), (String q2 after).
  - unfold matchLength. lia.
  - unfold matchLength. lia.
Qed.

Lemma componentPattern_advancing : advancing _ componentPattern.
Proof.
  intros prev rest len name H. now apply componentPattern_spec in H.
Qed.

Lemma routePattern_advancing : advancing _ routePattern.
Proof. intros prev rest len p H. now apply routePattern_spec in H. Qed.

Lemma nextRoutePattern_advancing : advancing _ nextRoutePattern.
Proof. intros prev rest len p H. now apply nextRoutePattern_spec in H. Qed.

Section Invariant.
Variable files : list (string * string).

Let component (c : Component) : Prop :=
  capitalized (componentName c) = true
  /\ exists content,
       In (componentFile c, content) files
       /\ includes (componentName c) content = true.

Let route (r : Route) : Prop :=
  startsWith "/" (routePath r) = true
  /\ every (fun c => negb (isQuote c)) (routePath r) = true
  /\ exists content,
       In (routeFile r, content) files
       /\ includes (routePath r) content = true.

Lemma scanComponents_spec fuel :
  forall some found found',
    (forall f, In f some -> In f files) ->
    Forall component (components found) ->
    scanComponents fuel some found = Some found' ->
    Forall component (components found') /\ routes found' = routes found.
Proof.
  induction some as [|[file content] some IH]; intros found found' Hsub Hacc;
    cbn [scanComponents].
  - now intros [= <-].
  - destruct (execWhile _ _ fuel componentPattern (pushComponent file)
                content 0 (components found)) as [names|] eqn:H1;
      [|discriminate].
    cbn [mbind option_bind]. intros H.
    apply IH in H; [exact H | intros f Hf; apply Hsub; now right |].
    cbn [components].
    apply (execWhile_invariant componentPattern (pushComponent file)
             (Forall component) content) with (3 := H1); [|exact Hacc].
    intros prev k len name acc Hm Ha.
    apply componentPattern_spec in Hm as (Hn & Hi & _).
    unfold pushComponent. destruct (truthy (Some name)); [|exact Ha].
    apply List.Forall_app. split; [exact Ha|].
    apply List.Forall_cons; [|apply List.Forall_nil].
    split; [exact Hn|]. exists content. split.
    + apply Hsub. now left.
    + now apply (includes_drop name k).
Qed.

Lemma scanRoutes_spec fuel :
  forall some found found',
    (forall f, In f some -> In f files) ->
    Forall route (routes found) ->
    scanRoutes fuel some found = Some found' ->
    Forall route (routes found')
    /\ components found' = components found
    /\ hasForms found' = hasForms found.
Proof.
  induction some as [|[file content] some IH]; intros found found' Hsub Hacc;
    cbn [scanRoutes].
  - now intros [= <-].
  - destruct (execWhile _ _ fuel routePattern (pushRoute file)
                content 0 (routes found)) as [router|] eqn:H1;
      [|discriminate].
    cbn [mbind option_bind].
    destruct (execWhile _ _ fuel nextRoutePattern (pushRoute file)
                content 0 router) as [config|] eqn:H2; [|discriminate].
    cbn [mbind option_bind]. intros H.
    apply IH in H; [exact H | intros f Hf; apply Hsub; now right |].
    cbn [routes].
    assert (Hpush : forall path k acc,
               startsWith "/" path = true
               /\ every (fun c => negb (isQuote c)) path = true
               /\ includes path (drop k content) = true
               /\ 1 <= 0 + 1 ->
               Forall route acc -> Forall route (pushRoute file path acc)).
    { intros path k acc (Hs & Hq & Hi & _) Ha. unfold pushRoute.
      apply List.Forall_app. split; [exact Ha|].
      apply List.Forall_cons; [|apply List.Forall_nil].
      repeat split; auto. exists content. split.
      - apply Hsub. now left.
      - now apply (includes_drop path k). }
    apply (execWhile_invariant nextRoutePattern (pushRoute file)
             (Forall route) content) with (3 := H2).
    + intros prev k len path acc Hm. apply (Hpush path k).
      apply nextRoutePattern_spec in Hm. intuition lia.
    + apply (execWhile_invariant routePattern (pushRoute file)
               (Forall route) content) with (3 := H1); [|exact Hacc].
      intros prev k len path acc Hm. apply (Hpush path k).
      apply routePattern_spec in Hm. intuition lia.
Qed.

End Invariant.

Lemma pageRoutes_slash pagesDir :
  forall pageFiles r,
    In r (pageRoutes pagesDir pageFiles) ->
    startsWith "/" (routePath r) = true.
Proof.
  induction pageFiles as [|file pageFiles IH]; intros r; cbn [pageRoutes];
    [contradiction|].
  intros Hin. apply in_app_or in Hin as [Hin | Hin]; [|now apply IH].
  destruct (negb (String.eqb (pageRoute (pathRelative pagesDir file)) "/"));
    [|contradiction].
  destruct Hin as [<- | []]. reflexivity.
Qed.

(** Every component the scan reports has a name made of a capital letter
    followed by letters and digits, and the name is text of the file it
    is reported for, one of the scanned files. *)
Theorem components_are_capitalized_names fuel framework files pagesDir
    pagesListing found :
  analyzeUiStructure fuel framework files pagesDir pagesListing
  = Some found ->
  forall c,
    In c (components found) ->
    capitalized (componentName c) = true
    /\ exists content,
         In (componentFile c, content) files
         /\ includes (componentName c) content = true.
Proof.
  unfold analyzeUiStructure.
  destruct (String.eqb framework "React" || String.eqb framework "Next.js").
  - destruct (scanComponents fuel files _) as [found1|] eqn:H1;
      [|discriminate].
    cbn [mbind option_bind].
    destruct (scanRoutes fuel files found1) as [found2|] eqn:H2;
      [|discriminate].
    cbn [mbind option_bind]. intros [= <-] c. cbn [components].
    apply (scanComponents_spec files) in H1 as [H1 Hr];
      [|auto|apply List.Forall_nil].
    apply (scanRoutes_spec files) in H2 as (_ & H2 & _);
      [|auto|rewrite Hr; apply List.Forall_nil].
    rewrite H2. rewrite List.Forall_forall in H1. apply H1.
  - intros [= <-] c [].
Qed.

Lemma components_are_capitalized_names_witness :
  capitalized "LoginForm" = true
  /\ exists content,
       In ("Login.tsx", content)
         [("Login.tsx", "export default function LoginForm() {}")]
       /\ includes "LoginForm" content = true.
Proof.
  apply (components_are_capitalized_names 40 "React"
           [("Login.tsx", "export default function LoginForm() {}")]
           "pages" None
           {| components :=
                [{| componentName := "LoginForm";
                    componentFile := "Login.tsx" |}];
              routes := []; hasForms := false |}
           eq_refl
           {| componentName := "LoginForm"; componentFile := "Login.tsx" |}).
  now left.
Defined.

(** Every route the scan reports starts with a slash.  It comes from the
    pages directory, or it was read from a scanned file, the file it is
    reported for: then it has no quote of either kind and is text of
    that file. *)
Theorem routes_start_with_a_slash fuel framework files pagesDir
    pagesListing found :
  analyzeUiStructure fuel framework files pagesDir pagesListing
  = Some found ->
  forall r,
    In r (routes found) ->
    startsWith "/" (routePath r) = true
    /\ (In r (scanPages pagesDir pagesListing)
        \/ (every (fun c => negb (isQuote c)) (routePath r) = true
            /\ exists content,
                 In (routeFile r, content) files
                 /\ includes (routePath r) content = true)).
Proof.
  unfold analyzeUiStructure.
  destruct (String.eqb framework "React" || String.eqb framework "Next.js").
  - destruct (scanComponents fuel files _) as [found1|] eqn:H1;
      [|discriminate].
    cbn [mbind option_bind].
    destruct (scanRoutes fuel files found1) as [found2|] eqn:H2;
      [|discriminate].
    cbn [mbind option_bind]. intros [= <-] r. cbn [routes].
    apply (scanComponents_spec files) in H1 as [_ Hr];
      [|auto|apply List.Forall_nil].
    apply (scanRoutes_spec files) in H2 as (H2 & _);
      [|auto|rewrite Hr; apply List.Forall_nil].
    intros Hin. apply in_app_or in Hin as [Hin | Hin].
    + rewrite List.Forall_forall in H2.
      destruct (H2 r Hin) as (Hs & Hq & Hc). auto.
    + split; [|now left]. apply (pageRoutes_slash _ _ _ Hin).
  - intros [= <-] r [].
Qed.

Lemma routes_start_with_a_slash_witness :
  startsWith "/" "/login" = true
  /\ (In {| routePath := "/login"; routeFile := "App.tsx" |}
        (scanPages "pages" (Some [FileEnt "about.tsx"]))
      \/ (every (fun c => negb (isQuote c)) "/login" = true
          /\ exists content,
               In ("App.tsx", content)
                 [("App.tsx", "<Route path='/login' />")]
               /\ includes "/login" content = true)).
Proof.
  apply (routes_start_with_a_slash 30 "Next.js"
           [("App.tsx", "<Route path='/login' />")]
           "pages" (Some [FileEnt "about.tsx"])
           {| components := [];
              routes := [{| routePath := "/login"; routeFile := "App.tsx" |};
                         {| routePath := "/about";
                            routeFile := "pages/about.tsx" |}];
              hasForms := false |}
           eq_refl
           {| routePath := "/login"; routeFile := "App.tsx" |}).
  now left.
Defined.

Lemma scanComponents_returns fuel :
  forall files found,
    (forall file content,
        In (file, content) files -> String.length content + 2 <= fuel) ->
    exists found', scanComponents fuel files found = Some found'.
Proof.
  induction files as [|[file content] files IH]; intros found Hfuel;
    cbn [scanComponents]; [eauto|].
  destruct (execWhile_returns componentPattern (pushComponent file)
              content componentPattern_advancing fuel 0
              (components found)) as [names ->].
  { specialize (Hfuel file content (or_introl eq_refl)). lia. }
  cbn [mbind option_bind]. apply IH.
  intros f c Hin. apply (Hfuel f c). now right.
Qed.

Lemma scanRoutes_returns fuel :
  forall files found,
    (forall file content,
        In (file, content) files -> String.length content + 2 <= fuel) ->
    exists found', scanRoutes fuel files found = Some found'.
Proof.
  induction files as [|[file content] files IH]; intros found Hfuel;
    cbn [scanRoutes]; [eauto|].
  pose proof (Hfuel file content (or_introl eq_refl)) as Hlen.
  destruct (execWhile_returns routePattern (pushRoute file)
              content routePattern_advancing fuel 0 (routes found))
    as [router ->]; [lia|].
  cbn [mbind option_bind].
  destruct (execWhile_returns nextRoutePattern (pushRoute file)
              content nextRoutePattern_advancing fuel 0 router)
    as [config ->]; [lia|].
  cbn [mbind option_bind]. apply IH.
  intros f c Hin. apply (Hfuel f c). now right.
Qed.

(** The scan for components and routes returns for every framework,
    list of files and pages directory: its three patterns have the [g]
    flag and match no empty text. *)
Theorem analyzeUiStructure_returns framework files pagesDir pagesListing :
  exists found,
    analyzeUiStructure (scanFuel files) framework files pagesDir pagesListing
    = Some found.
Proof.
  unfold analyzeUiStructure.
  destruct (String.eqb framework "React" || String.eqb framework "Next.js");
    [|eauto].
  destruct (scanComponents_returns (scanFuel files) files
              {| components := []; routes := []; hasForms := false |})
    as [found1 ->].
  { intros file content Hin. apply (scanFuel_enough files file content Hin). }
  cbn [mbind option_bind].
  destruct (scanRoutes_returns (scanFuel files) files found1)
    as [found2 ->].
  { intros file content Hin. apply (scanFuel_enough files file content Hin). }
  cbn [mbind option_bind]. eauto.
Qed.

(** The scan runs for the frameworks [React] and [Next.js] alone, and
    [detectFramework] asks for [vue], [angular] and [express] before it
    asks for [next]: a project without [react] among its dependencies is
    scanned only if it lists [next] and none of those three.  Any other
    project gets no component, no route and no form, whatever its files
    and its pages directory hold. *)
Theorem ui_scan_needs_react_or_next fuel dependencies files pagesDir
    pagesListing found :
  listed dependencies "react" = false ->
  listed dependencies "next" = false
  \/ listed dependencies "vue" || listed dependencies "angular"
     || listed dependencies "express" = true ->
  analyzeUiStructure fuel (detectFramework dependencies) files pagesDir
    pagesListing = Some found ->
  components found = [] /\ routes found = [] /\ hasForms found = false.
Proof.
  intros Hreact Hother. unfold detectFramework. rewrite Hreact.
  assert (Hskip : forall framework,
             String.eqb framework "React" || String.eqb framework "Next.js"
             = false ->
             analyzeUiStructure fuel framework files pagesDir pagesListing
             = Some found ->
             components found = [] /\ routes found = []
             /\ hasForms found = false).
  { intros framework Hf. unfold analyzeUiStructure. rewrite Hf.
    now intros [= <-]. }
  destruct (listed dependencies "vue"); [now apply Hskip|].
  destruct (listed dependencies "angular"); [now apply Hskip|].
  destruct (listed dependencies "express"); [now apply Hskip|].
  destruct Hother as [Hnext | Hother]; [|discriminate].
  rewrite Hnext.
  destruct (listed dependencies "nuxt"); [now apply Hskip|].
  destruct (listed dependencies "nest"); [now apply Hskip|].
  destruct (listed dependencies "@nestjs/core"); now apply Hskip.
Qed.

Lemma ui_scan_needs_react_or_next_witness :
  components {| components := []; routes := []; hasForms := false |} = []
  /\ routes {| components := []; routes := []; hasForms := false |} = []
  /\ hasForms {| components := []; routes := []; hasForms := false |}
     = false.
Proof.
  apply (ui_scan_needs_react_or_next 40
           (allDependencies (<["express" := "4.18.2"]> ∅)
              (<["next" := "14.1.0"]> ∅))
           [("Login.tsx", "export default function LoginForm() {}")]
           "pages" (Some [FileEnt "about.tsx"])).
  - reflexivity.
  - right. reflexivity.
  - reflexivity.
Defined.

End UiScanFacts.

(** ** The URLs offered after the websocket scan *)

Module SocketUrlFacts.
Import Js Scanner SocketUrls.

Lemma existsb_eqb v seen :
  existsb (String.eqb v) seen = true <-> In v seen.
Proof.
  rewrite List.existsb_exists. split.
  - intros (x & Hin & Hx). apply String.eqb_eq in Hx. now subst.
  - intros Hin. exists v. split; [exact Hin | apply String.eqb_refl].
Qed.

Lemma setValues_spec :
  forall values seen,
    List.NoDup (setValues seen values)
    /\ forall u,
         In u (setValues seen values) <-> In u values /\ ~ In u seen.
Proof.
  induction values as [|v values IH]; intros seen; cbn [setValues].
  - split; [constructor|]. intros u. simpl. tauto.
  - destruct (existsb (String.eqb v) seen) eqn:E.
    + apply existsb_eqb in E. destruct (IH seen) as [Hnd Hin].
      split; [exact Hnd|]. intros u. rewrite Hin. simpl.
      split; [tauto|]. intros [[<- | Hu] Hs]; tauto.
    + assert (Hv : ~ In v seen).
      { intros Hv. apply existsb_eqb in Hv. congruence. }
      destruct (IH (v :: seen)) as [Hnd Hin]. split.
      * constructor; [|exact Hnd]. rewrite Hin. simpl. tauto.
      * intros u. simpl. rewrite Hin. simpl.
        destruct (String.eqb_spec v u) as [-> | Hne]; tauto.
Qed.

(** The loops push an implementation only with a URL that is not empty. *)
Lemma execLoop_urls pattern file content :
  forall fuel lastIndex impls impls',
    Forall (fun impl => truthy (implUrl impl) = true) impls ->
    execLoop fuel pattern file content lastIndex impls = Some impls' ->
    Forall (fun impl => truthy (implUrl impl) = true) impls'.
Proof.
  induction fuel as [|fuel IH]; intros lastIndex impls impls' Hacc;
    cbn [execLoop]; [discriminate|].
  destruct (exec pattern content lastIndex) as [[g1|] lastIndex'].
  - apply IH. destruct (truthy (Some g1)) eqn:E; [|exact Hacc].
    apply List.Forall_app. split; [exact Hacc|].
    apply List.Forall_cons; [exact E | apply List.Forall_nil].
  - now intros [= <-].
Qed.

Lemma scanPatterns_urls fuel file content :
  forall patterns st st',
    Forall (fun impl => truthy (implUrl impl) = true)
      (socketImplementations st) ->
    scanPatterns fuel file content patterns st = Some st' ->
    Forall (fun impl => truthy (implUrl impl) = true)
      (socketImplementations st').
Proof.
  induction patterns as [|pattern patterns IH]; intros st st' Hacc;
    cbn [scanPatterns].
  - now intros [= <-].
  - unfold scanPattern. cbn [hasExecMethod].
    destruct (execLoop fuel pattern file content 0
                (socketImplementations st)) as [impls|] eqn:H1;
      [|discriminate].
    cbn [mbind option_bind]. apply IH. cbn [socketImplementations].
    apply (execLoop_urls _ _ _ _ _ _ _ Hacc H1).
Qed.

Lemma scanFiles_urls fuel :
  forall files st st',
    Forall (fun impl => truthy (implUrl impl) = true)
      (socketImplementations st) ->
    scanFiles fuel files st = Some st' ->
    Forall (fun impl => truthy (implUrl impl) = true)
      (socketImplementations st').
Proof.
  induction files as [|[file content] files IH]; intros st st' Hacc;
    cbn [scanFiles].
  - now intros [= <-].
  - destruct (scanPatterns fuel file content socketPatterns st)
      as [st1|] eqn:H1; [|discriminate].
    cbn [mbind option_bind]. apply IH.
    apply (scanPatterns_urls _ _ _ _ _ _ Hacc H1).
Qed.

Lemma uniqueUrls_spec impls :
  List.NoDup (uniqueUrls impls)
  /\ forall u,
       In u (uniqueUrls impls)
       <-> exists impl,
             In impl impls /\ truthy (implUrl impl) = true
             /\ implUrl impl = Some u.
Proof.
  unfold uniqueUrls.
  destruct (setValues_spec
              (map (fun impl => orEmpty (implUrl impl))
                 (List.filter (fun impl => truthy (implUrl impl)) impls)) [])
    as [Hnd Hin].
  split; [exact Hnd|]. intros u. rewrite Hin, List.in_map_iff. split.
  - intros [(impl & Hu & Hi) _]. apply List.filter_In in Hi as [Hi Ht].
    exists impl. repeat split; auto.
    destruct (implUrl impl) as [url|]; [|discriminate]. simpl in Hu.
    congruence.
  - intros (impl & Hi & Ht & Hu). split; [|tauto].
    exists impl. split; [now rewrite Hu|]. apply List.filter_In. auto.
Qed.

(** After a scan that returns, the URLs offered for selection are the
    URLs of the implementations found, each one once.  They are offered
    whenever an implementation was found: the question for a URL typed
    by hand, asked after a scan that found implementations but no URL,
    is never reached. *)
Theorem found_urls_are_offered fuel files result :
  analyzeWebSockets fuel files = Some result ->
  List.NoDup (uniqueUrls (socketImplementations result))
  /\ (forall u,
         In u (uniqueUrls (socketImplementations result))
         <-> exists impl,
               In impl (socketImplementations result)
               /\ implUrl impl = Some u)
  /\ urlQuestion (socketImplementations result)
     = match socketImplementations result with
       | [] => EnterUrl "ws://localhost:3000/ws"
       | _ :: _ => SelectUrl (uniqueUrls (socketImplementations result))
       end.
Proof.
  intros H. apply scanFiles_urls in H; [|apply List.Forall_nil].
  cbn [socketImplementations] in H.
  destruct (uniqueUrls_spec (socketImplementations result)) as [Hnd Hin].
  rewrite List.Forall_forall in H.
  split; [exact Hnd|]. split.
  - intros u. rewrite Hin. split.
    + intros (impl & Hi & _ & Hu). now exists impl.
    + intros (impl & Hi & Hu). exists impl. auto.
  - unfold urlQuestion.
    destruct (socketImplementations result) as [|impl impls];
      [reflexivity|].
    cbn [List.length Nat.ltb Nat.leb].
    destruct (uniqueUrls (impl :: impls)) as [|u us]; [|reflexivity].
    exfalso. pose proof (H impl (or_introl eq_refl)) as Ht.
    destruct (implUrl impl) as [url|] eqn:Eurl; [|discriminate].
    apply (proj2 (Hin url)). exists impl.
    split; [now left|]. split; [now rewrite Eurl | exact Eurl].
Qed.

Lemma found_urls_are_offered_witness :
  List.NoDup (uniqueUrls [{| implFile := "a.js"; implUrl := Some "/live" |};
                          {| implFile := "b.js"; implUrl := Some "/live" |}])
  /\ (forall u,
         In u (uniqueUrls
                 [{| implFile := "a.js"; implUrl := Some "/live" |};
                  {| implFile := "b.js"; implUrl := Some "/live" |}])
         <-> exists impl,
               In impl [{| implFile := "a.js"; implUrl := Some "/live" |};
                        {| implFile := "b.js"; implUrl := Some "/live" |}]
               /\ implUrl impl = Some u)
  /\ urlQuestion [{| implFile := "a.js"; implUrl := Some "/live" |};
                  {| implFile := "b.js"; implUrl := Some "/live" |}]
     = SelectUrl ["/live"].
Proof.
  apply (found_urls_are_offered 20
           [("a.js", "io('/live')"); ("b.js", "io ( '/live'")]
           {| hasWebSockets := false;
              socketImplementations :=
                [{| implFile := "a.js"; implUrl := Some "/live" |};
                 {| implFile := "b.js"; implUrl := Some "/live" |}] |}).
  reflexivity.
Defined.

End SocketUrlFacts.

(** ** What the substitution leaves behind *)

Module SubstitutionFacts.
Import Js Placeholders StringFacts PlaceholderFacts.

Lemma tokenFree_unfold toks s :
  tokenFree toks s
  = negb (atToken toks s)
    && match s with
       | EmptyString => true
       | String _ s' => tokenFree toks s'
       end.
Proof. now destruct s. Qed.

(** A text without an opening brace in front of a text without tokens
    starts no token. *)
Lemma tokenFree_behind_value toks :
  (forall t, In t toks -> startsWith "{" t = true) ->
  forall value s,
    every (fun c => negb (Ascii.eqb c "{")) value = true ->
    tokenFree toks s = true ->
    tokenFree toks (value +:+ s) = true.
Proof.
  intros Hbraced. induction value as [|c value IH]; intros s Hv Hs;
    [exact Hs|].
  cbn [every] in Hv. apply andb_prop in Hv as [Hc Hv].
  change (String c value +:+ s) with (String c (value +:+ s)).
  rewrite tokenFree_unfold. rewrite (IH s Hv Hs), andb_true_r.
  apply negb_true_iff, not_true_iff_false. intros Hat.
  apply List.existsb_exists in Hat as (t & Hin & Ht).
  destruct (braced_cons t (Hbraced t Hin)) as [r ->].
  cbn [startsWith] in Ht. apply andb_prop in Ht as [Hb _].
  apply Ascii.eqb_eq in Hb as <-. discriminate Hc.
Qed.

Lemma tokenFree_nil toks :
  (forall t, In t toks -> startsWith "{" t = true) ->
  tokenFree toks EmptyString = true.
Proof.
  intros Hbraced. cbn [tokenFree]. rewrite andb_true_r.
  apply negb_true_iff, not_true_iff_false. intros Hat.
  apply List.existsb_exists in Hat as (t & Hin & Ht).
  destruct (braced_cons t (Hbraced t Hin)) as [r ->]. discriminate Ht.
Qed.

Section Left.
Variable toks : list string.
Variable table : list (string * string).

Hypothesis table_tokens : forall T val, In (T, val) table -> In T toks.
Hypothesis table_plain :
  forall T val, In (T, val) table -> plainValue val = true.
Hypothesis toks_braced : forall t, In t toks -> startsWith "{" t = true.
Hypothesis toks_table :
  forall t rest,
    In t toks -> startsWith t rest = true -> tokenAt table rest <> None.

(** One pass that substitutes every token of the table leaves no token
    in the text, when no token of the text stood behind the beginning of
    a token. *)
Lemma scan_leaves_no_token n :
  forall s before,
    String.length s <= n ->
    wellPlacedFrom toks before s = true ->
    tokenFree toks (scan (tokenAt table) s) = true.
Proof.
  induction n as [|n IH]; intros s before Hlen Hwp.
  { destruct s; [now apply tokenFree_nil | simpl in Hlen; lia]. }
  destruct s as [|c s]; [now apply tokenFree_nil|].
  cbn [String.length] in Hlen.
  destruct (tokenAt table (String c s)) as [[len val]|] eqn:Hat.
  - pose proof Hat as Hfound.
    apply tokenAt_found in Hfound as (T & Hin & -> & HT).
    pose proof (toks_braced T (table_tokens _ _ Hin)) as HTb.
    apply startsWith_split in HT.
    set (rest := drop (String.length T) (String c s)) in *.
    pose proof (braced_length T _ rest HTb HT) as Hshort.
    cbn [String.length] in Hshort.
    pose proof (braced_nonempty T HTb) as HTne.
    rewrite HT in Hat, Hwp |- *.
    rewrite (scan_token _ _ _ _ HTne Hat).
    apply (tokenFree_behind_value toks toks_braced).
    + apply plainValue_no_brace. eapply table_plain; eauto.
    + apply (IH rest (before +:+ T)); [lia|].
      now apply wellPlacedFrom_append.
  - rewrite (scan_keep _ _ _ Hat).
    cbn [wellPlacedFrom] in Hwp. apply andb_prop in Hwp as [_ Hwp].
    rewrite tokenFree_unfold.
    rewrite (IH s (before +:+ String c EmptyString));
      [|simpl in Hlen; lia | exact Hwp].
    rewrite andb_true_r.
    apply negb_true_iff, not_true_iff_false. intros Hnew.
    apply List.existsb_exists in Hnew as (t & Hin & Ht).
    destruct (braced_cons t (toks_braced t Hin)) as [r Heq].
    rewrite Heq in Ht. cbn [startsWith] in Ht.
    apply andb_prop in Ht as [Hd Hr].
    assert (startsWith r s = true) as Hold.
    { apply (no_completion toks table t table_tokens Hin r
               (String "{" EmptyString)
               (before +:+ String c EmptyString) s);
        [symmetry; exact Heq | discriminate | | exact Hwp | exact Hr].
      apply Ascii.eqb_eq in Hd as <-. apply endsWith_last. }
    apply (toks_table t (String c s) Hin); [|exact Hat].
    rewrite Heq. cbn [startsWith]. now rewrite Hd, Hold.
Qed.

End Left.

Lemma tokenAt_tokens table :
  forall t rest,
    In t (map fst table) -> startsWith t rest = true ->
    tokenAt table rest <> None.
Proof.
  induction table as [|[T val] table IH]; intros t rest Hin Ht;
    [contradiction|].
  cbn [tokenAt]. destruct (startsWith T rest) eqn:E; [discriminate|].
  destruct Hin as [Heq | Hin]; [|now apply (IH t)].
  simpl in Heq. subst T. congruence.
Qed.

(** With values that have neither a dollar sign nor an opening brace,
    and content in which no token stands directly behind the beginning
    of a token, a processed file has none of the seven tokens left, and
    processing it once more changes nothing. *)
Theorem processFile_leaves_no_token projectName options file content :
  processed file = true ->
  forallb plainValue
    [ projectName; baseUrl options; apiUrl options;
      orEmpty (adminEmail options); orEmpty (adminPassword options);
      orEmpty (userEmail options); orEmpty (userPassword options) ] = true ->
  wellPlaced content = true ->
  tokenFree tokens (processFile projectName options file content) = true
  /\ processFile projectName options file
       (processFile projectName options file content)
     = processFile projectName options file content.
Proof.
  intros Hfile Hplain Hwp.
  assert (Htable : forall T val,
             In (T, val) (replacements projectName options) ->
             In T tokens /\ startsWith "{" T = true
             /\ plainValue val = true).
  { cbn [forallb] in Hplain.
    repeat (apply andb_prop in Hplain as [? Hplain]).
    intros T val Hin. simpl in Hin.
    repeat (destruct Hin as [Hin | Hin];
            [injection Hin as <- <-;
             split; [simpl; tauto | split; [reflexivity | assumption]]|]).
    contradiction. }
  assert (Hfree : tokenFree tokens
                    (processFile projectName options file content) = true).
  { unfold processFile. rewrite Hfile. rewrite replacePlaceholders_chain.
    rewrite <- (scan_nothing content) at 1.
    rewrite (chain_after tokens (replacements projectName options) []
               content); [|exact Htable | reflexivity | exact Hwp].
    apply (scan_leaves_no_token tokens (replacements projectName options))
      with (n := String.length content) (before := EmptyString);
      [| | | |lia|exact Hwp].
    - intros T val Hin. apply (Htable T val Hin).
    - intros T val Hin. apply (Htable T val Hin).
    - intros t Hin. simpl in Hin.
      repeat (destruct Hin as [<- | Hin]; [reflexivity|]). contradiction.
    - intros t rest Hin. apply tokenAt_tokens.
      now rewrite replacements_tokens. }
  split; [exact Hfree|]. now apply processFile_token_free.
Qed.

Lemma processFile_leaves_no_token_witness :
  tokenFree tokens
    (processFile "demo" defaultOptions "README.md"
       "# {{projectName}} runs against {{baseUrl}} as {{adminEmail}}")
  = true
  /\ processFile "demo" defaultOptions "README.md"
       (processFile "demo" defaultOptions "README.md"
          "# {{projectName}} runs against {{baseUrl}} as {{adminEmail}}")
     = processFile "demo" defaultOptions "README.md"
         "# {{projectName}} runs against {{baseUrl}} as {{adminEmail}}".
Proof.
  apply (processFile_leaves_no_token "demo" defaultOptions "README.md"
           "# {{projectName}} runs against {{baseUrl}} as {{adminEmail}}");
    reflexivity.
Defined.

End SubstitutionFacts.

(** ** File names and categories of generated tests *)

Module NamingFacts.
Import Js Templates Generate StringFacts MatchingFacts GenerateFacts.

Lemma toLowerCaseChar_idempotent c :
  toLowerCaseChar (toLowerCaseChar c) = toLowerCaseChar c.
Proof. destruct c as [[] [] [] [] [] [] [] []]; reflexivity. Qed.

Lemma isUpper_toLowerCaseChar c : isUpper (toLowerCaseChar c) = false.
Proof. destruct c as [[] [] [] [] [] [] [] []]; reflexivity. Qed.

Lemma toLowerCase_idempotent s : toLowerCase (toLowerCase s) = toLowerCase s.
Proof.
  induction s as [|c s IH]; [reflexivity|].
  cbn [toLowerCase]. now rewrite toLowerCaseChar_idempotent, IH.
Qed.

Lemma spaceRun_zero c s : spaceRun (String c s) = 0 -> isSpace c = false.
Proof. cbn [spaceRun]. now destruct (isSpace c). Qed.

(** The replacement of white space leaves none. *)
Lemma replace_spaces_leaves_none s :
  forall pending before,
    every (fun c => negb (isSpace c))
      (replaceFrom spacesAt pending before s) = true.
Proof.
  induction s as [|c s IH]; intros pending before; [reflexivity|].
  cbn [replaceFrom]. destruct pending as [|k]; [|apply IH].
  unfold spacesAt. destruct (spaceRun (String c s)) as [|n] eqn:E.
  - apply spaceRun_zero in E. cbn [every]. now rewrite E, IH.
  - change ("-" +:+ ?x) with (String "-" x). cbn [every]. now rewrite IH.
Qed.

(** It changes nothing in a text without white space. *)
Lemma replace_spaces_nothing s :
  every (fun c => negb (isSpace c)) s = true ->
  forall before, replaceFrom spacesAt 0 before s = s.
Proof.
  induction s as [|c s IH]; intros Hs before; [reflexivity|].
  cbn [every] in Hs. apply andb_prop in Hs as [Hc Hs].
  apply negb_true_iff in Hc.
  cbn [replaceFrom]. unfold spacesAt. cbn [spaceRun]. rewrite Hc.
  f_equal. now apply IH.
Qed.

Lemma toLowerCase_every_space s :
  every (fun c => negb (isSpace c)) s = true ->
  every (fun c => negb (isSpace c) && negb (isUpper c)) (toLowerCase s)
  = true.
Proof.
  induction s as [|c s IH]; [reflexivity|].
  cbn [every toLowerCase]. intros H. apply andb_prop in H as [Hc Hs].
  now rewrite isSpace_toLowerCaseChar, Hc, isUpper_toLowerCaseChar, IH.
Qed.

Lemma every_weaken (P Q : ascii -> bool) s :
  (forall c, P c = true -> Q c = true) ->
  every P s = true -> every Q s = true.
Proof.
  intros HPQ. induction s as [|c s IH]; [reflexivity|].
  cbn [every]. intros H. apply andb_prop in H as [Hc Hs].
  now rewrite (HPQ c Hc), IH.
Qed.

(** The slug of a test name has no white space and no upper-case
    letter, and the slug of a slug is the slug itself: names that are
    already in this form are kept. *)
Theorem slug_is_clean testName :
  every (fun c => negb (isSpace c) && negb (isUpper c)) (slug testName)
  = true
  /\ slug (slug testName) = slug testName.
Proof.
  assert (Hclean : every (fun c => negb (isSpace c) && negb (isUpper c))
                     (slug testName) = true).
  { apply toLowerCase_every_space. apply replace_spaces_leaves_none. }
  split; [exact Hclean|].
  unfold slug at 1. unfold replaceGlobal.
  rewrite replace_spaces_nothing.
  - unfold slug. apply toLowerCase_idempotent.
  - apply (every_weaken _ _ _ (fun c H => proj1 (andb_prop _ _ H)) Hclean).
Qed.

Lemma includes_spec_ts name : includes ".spec." (name +:+ ".spec.ts") = true.
Proof. apply includes_spec. now exists name, "ts". Qed.

(** The name of the file is a spec name: it has [.spec.] in it, and
    giving the file name as the test name gives the same file name. *)
Lemma fileNameOf_spec testName :
  includes ".spec." (fileNameOf testName) = true
  /\ fileNameOf (fileNameOf testName) = fileNameOf testName.
Proof.
  assert (H : includes ".spec." (fileNameOf testName) = true).
  { unfold fileNameOf. destruct (includes ".spec." testName) eqn:E;
      [exact E | apply includes_spec_ts]. }
  split; [exact H|]. unfold fileNameOf at 1. now rewrite H.
Qed.

Lemma append_cancel_r a b c : a +:+ c = b +:+ c -> a = b.
Proof.
  revert b. induction a as [|x a IH]; intros [|y b] H.
  - reflexivity.
  - apply (f_equal String.length) in H. simpl in H.
    rewrite length_append in H. lia.
  - apply (f_equal String.length) in H. simpl in H.
    rewrite length_append in H. lia.
  - simpl in H. injection H as -> H. now rewrite (IH b H).
Qed.

Lemma decimal_inj a b : decimal a = decimal b -> a = b.
Proof.
  unfold decimal. intros H.
  apply (f_equal NilEmpty.uint_of_string) in H.
  rewrite !NilEmpty.usu in H. injection H as H.
  apply (f_equal N.of_uint) in H.
  now rewrite !DecimalN.Unsigned.of_to in H.
Qed.

(** The segments of a text that ends in a text without separator: the
    last segment gets longer. *)
Lemma segments_nonempty a : Scanner.segments a <> [].
Proof.
  induction a as [|c a IH]; cbn [Scanner.segments]; [discriminate|].
  destruct (Ascii.eqb c "/"); [discriminate|].
  destruct (Scanner.segments a); discriminate.
Qed.

Lemma segments_append a b :
  Scanner.plainName b = true ->
  Scanner.segments (a +:+ b)
  = removelast (Scanner.segments a)
    ++ [List.last (Scanner.segments a) EmptyString +:+ b].
Proof.
  intros Hb. induction a as [|c a IH].
  - cbn [String.append Scanner.segments removelast List.last app].
    now apply plainName_segments.
  - cbn [String.append]. cbn [Scanner.segments]. rewrite IH.
    pose proof (segments_nonempty a) as Hne.
    destruct (Scanner.segments a) as [|s0 [|s1 rest]]; [contradiction| |].
    + destruct (Ascii.eqb c "/"); reflexivity.
    + destruct (Ascii.eqb c "/"); reflexivity.
Qed.

Lemma enter_long stack segment :
  3 <= String.length segment -> enter stack segment = segment :: stack.
Proof.
  intros H. unfold enter.
  destruct (String.eqb_spec segment EmptyString) as [E|_];
    [rewrite E in H; simpl in H; lia|].
  destruct (String.eqb_spec segment ".") as [E|_];
    [rewrite E in H; simpl in H; lia|].
  destruct (String.eqb_spec segment "..") as [E|_];
    [rewrite E in H; simpl in H; lia|].
  reflexivity.
Qed.

(** Where an argument that ends in a long text without separator leads:
    the last name is the last segment. *)
Lemma pathJoin_last dir a b :
  Scanner.plainName b = true ->
  3 <= String.length b ->
  names (pathJoin dir (a +:+ b))
  = rev (fold_left enter (removelast (Scanner.segments a))
           (rev (names dir)))
    ++ [List.last (Scanner.segments a) EmptyString +:+ b].
Proof.
  intros Hb Hlen. unfold pathJoin.
  destruct (a +:+ b) as [|c s] eqn:E.
  { apply (f_equal String.length) in E. rewrite length_append in E.
    simpl in E. lia. }
  rewrite <- E. cbn [names]. unfold resolve.
  rewrite (segments_append a b Hb), fold_left_app. cbn [fold_left].
  rewrite enter_long; [reflexivity|]. rewrite length_append. lia.
Qed.

(** Alternate files of one test name written at different times have
    different paths. *)
Theorem alternate_paths_differ_in_time dir testName now now' :
  now <> now' ->
  pathJoin dir (altFileNameOf now testName)
  <> pathJoin dir (altFileNameOf now' testName).
Proof.
  intros Hne H. apply Hne. apply (f_equal names) in H.
  unfold altFileNameOf in H.
  assert (Htail : forall t,
             Scanner.plainName ("-" +:+ decimal t +:+ ".spec.ts") = true
             /\ 3 <= String.length ("-" +:+ decimal t +:+ ".spec.ts")).
  { intros t. split.
    - change ("-" +:+ decimal t +:+ ".spec.ts")
        with (String "-" (decimal t +:+ ".spec.ts")).
      unfold Scanner.plainName. cbn [every].
      fold (Scanner.plainName (decimal t +:+ ".spec.ts")).
      now rewrite plainName_append, plainName_decimal.
    - change ("-" +:+ decimal t +:+ ".spec.ts")
        with (String "-" (decimal t +:+ ".spec.ts")).
      cbn [String.length]. rewrite length_append. simpl. lia. }
  destruct (Htail now) as [Hp Hl]. destruct (Htail now') as [Hp' Hl'].
  rewrite (pathJoin_last dir (slug testName) _ Hp Hl) in H.
  rewrite (pathJoin_last dir (slug testName) _ Hp' Hl') in H.
  apply app_inv_head in H. injection H as H.
  apply append_cancel_l in H. apply (append_cancel_l "-") in H.
  apply append_cancel_r in H. now apply decimal_inj.
Qed.

Lemma alternate_paths_differ_in_time_witness :
  pathJoin (pathJoin (workingDirectory projectDirectory) "src/e2e")
    (altFileNameOf 1700000000000 "My Login Flow")
  <> pathJoin (pathJoin (workingDirectory projectDirectory) "src/e2e")
       (altFileNameOf 1700000000001 "My Login Flow").
Proof.
  apply (alternate_paths_differ_in_time
           (pathJoin (workingDirectory projectDirectory) "src/e2e")
           "My Login Flow" 1700000000000 1700000000001).
  lia.
Defined.

(** For a test name without separator, in a project with a test
    structure where the directory of the category is a directory or
    can be made: [generateTest] returns, having written one file and
    changed no other.  The file has [.spec.] in its name and stands in
    the directory of the category, below [src] if [src/e2e] exists and
    below [tests] otherwise.  The directory exists afterwards, and no
    directory is removed. *)
Theorem generateTest_writes_one_spec_file cwd now testType testName appInfo
    fs basePath :
  basePathOf cwd fs = Some basePath ->
  isName (targetDirOf testType) = true ->
  Scanner.plainName testName = true ->
  files fs !! basePath = None ->
  files fs !! joinNames [basePath; targetDirOf testType] = None ->
  bool_decide
    (joinNames [basePath; targetDirOf testType;
                if existsSync fs
                     (joinNames [basePath; targetDirOf testType;
                                 fileNameOf testName])
                then altFileNameOf now testName
                else fileNameOf testName] ∈ dirs fs) = false ->
  exists name fs',
    generateTest cwd now testType testName appInfo fs = Returns fs'
    /\ basePath = (if existsSync fs "src/e2e" then "src" else "tests")
    /\ includes ".spec." name = true
    /\ files fs'
       = <[joinNames [basePath; targetDirOf testType; name] :=
             testTemplate testType testName appInfo]> (files fs)
    /\ joinNames [basePath; targetDirOf testType] ∈ dirs fs'
    /\ dirs fs ⊆ dirs fs'.
Proof.
  intros Hbase Hdir Hname Hfb Hfd Htarget.
  pose proof (generateTest_written cwd now testType testName appInfo fs
                basePath Hbase Hdir Hname) as Hgen.
  cbv zeta in Hgen.
  assert (Hpick : forall (b : bool) x y,
             joinNames [basePath; targetDirOf testType; if b then x else y]
             = if b
               then joinNames [basePath; targetDirOf testType; x]
               else joinNames [basePath; targetDirOf testType; y]).
  { now intros []. }
  rewrite Hpick in Htarget.
  destruct (Hgen Hfb Hfd Htarget) as (fs' & Hrun & Hfiles & Hdirs).
  rewrite <- Hpick in Hfiles.
  exists (if existsSync fs
               (joinNames [basePath; targetDirOf testType;
                           fileNameOf testName])
          then altFileNameOf now testName else fileNameOf testName), fs'.
  split; [exact Hrun|].
  split.
  { rewrite basePathOf_keys in Hbase.
    destruct (existsSync fs "src/e2e"); [now injection Hbase|].
    destruct (existsSync fs "tests/e2e"); [now injection Hbase|discriminate]. }
  split.
  { destruct (existsSync fs _).
    - unfold altFileNameOf. rewrite <- !append_assoc. apply includes_spec_ts.
    - apply fileNameOf_spec. }
  split; [exact Hfiles|]. rewrite Hdirs.
  destruct (existsSync fs (joinNames [basePath; targetDirOf testType]))
    eqn:E.
  - split; [|reflexivity]. unfold existsSync in E. rewrite Hfd in E.
    rewrite (bool_decide_eq_false_2 (is_Some None)) in E;
      [|intros [? ?]; discriminate].
    rewrite orb_false_r in E. now apply bool_decide_eq_true in E.
  - split; [|apply union_subseteq_r].
    rewrite !elem_of_union, !elem_of_singleton. tauto.
Qed.

Lemma generateTest_writes_one_spec_file_witness :
  exists name fs',
    generateTest projectDirectory 1700000000000 "API" "Users" None
      freshProject = Returns fs'
    /\ "src" = (if existsSync freshProject "src/e2e" then "src" else "tests")
    /\ includes ".spec." name = true
    /\ files fs'
       = <[joinNames ["src"; targetDirOf "API"; name] :=
             testTemplate "API" "Users" None]> (files freshProject)
    /\ joinNames ["src"; targetDirOf "API"] ∈ dirs fs'
    /\ dirs freshProject ⊆ dirs fs'.
Proof.
  apply (generateTest_writes_one_spec_file projectDirectory 1700000000000
           "API" "Users" None freshProject "src");
    reflexivity.
Defined.

Lemma endsWith_separator_append x leaf :
  leaf <> EmptyString ->
  endsWith "/" (x +:+ leaf) = endsWith "/" leaf.
Proof.
  intros Hleaf. induction x as [|c x IH]; [reflexivity|].
  cbn [String.append endsWith]. rewrite IH.
  destruct (x +:+ leaf) as [|d rest] eqn:E.
  - exfalso. apply Hleaf. destruct x; [exact E | discriminate E].
  - cbn [String.eqb]. now destruct (Ascii.eqb "/" c).
Qed.

(** A test name with a separator names a file in a directory below the
    one of the category, and that directory is not made: when it is
    missing, and the file with it, [generateTest] throws at the write
    and no file is written or changed. *)
Theorem generateTest_throws_in_missing_directory cwd now testType testName
    appInfo fs basePath sub leaf :
  basePathOf cwd fs = Some basePath ->
  isName (targetDirOf testType) = true ->
  fileNameOf testName = sub +:+ "/" +:+ leaf ->
  isName sub = true ->
  isName leaf = true ->
  files fs !! basePath = None ->
  files fs !! joinNames [basePath; targetDirOf testType] = None ->
  existsSync fs (joinNames [basePath; targetDirOf testType; sub]) = false ->
  existsSync fs (joinNames [basePath; targetDirOf testType; sub; leaf])
  = false ->
  exists fs',
    generateTest cwd now testType testName appInfo fs = Throws fs'
    /\ files fs' = files fs.
Proof.
  intros Hbase Hdir Hfile Hsub Hleaf Hfb Hfd Hnosub Hnofile.
  unfold generateTest. rewrite Hbase.
  destruct (basePathOf_name cwd fs basePath Hbase) as [_ Hbn].
  cbv zeta. unfold workingDirectory.
  rewrite (pathJoin_name _ basePath Hbn). cbn [names].
  rewrite (pathJoin_name _ (targetDirOf testType) Hdir). cbn [names].
  rewrite <- app_assoc. cbn [app]. rewrite existsPath_below.
  set (testDir := joinNames [basePath; targetDirOf testType]) in *.
  set (fs1 := if existsSync fs testDir then fs
              else {| dirs := {[basePath; testDir]} ∪ dirs fs;
                      files := files fs |}).
  assert (Hmk : (if existsSync fs testDir then Some fs
                 else mkdirSync cwd
                        {| names := cwd ++ [basePath; targetDirOf testType];
                           trailingSeparator := false |} fs)
                = Some fs1).
  { exact (category_directory_made cwd fs basePath (targetDirOf testType)
             Hfb Hfd). }
  rewrite Hmk.
  assert (Hfiles1 : files fs1 = files fs).
  { unfold fs1. now destruct (existsSync fs testDir). }
  assert (Hsame : forall rest,
             existsSync fs1
               (joinNames (basePath :: targetDirOf testType :: sub :: rest))
             = existsSync fs
                 (joinNames
                    (basePath :: targetDirOf testType :: sub :: rest))).
  { intros rest. unfold existsSync. rewrite Hfiles1. f_equal.
    unfold fs1. destruct (existsSync fs testDir); [reflexivity|].
    cbn [dirs]. apply bool_decide_ext.
    rewrite !elem_of_union, !elem_of_singleton.
    pose proof (joinNames_longer basePath (targetDirOf testType)
                  (sub :: rest)) as H1.
    assert (joinNames (basePath :: targetDirOf testType :: sub :: rest)
            <> testDir) as H2.
    { unfold testDir. cbn [joinNames]. intros H.
      apply (f_equal String.length) in H.
      destruct rest; rewrite !length_append in H; simpl in H; lia. }
    tauto. }
  assert (Hpath : pathJoin
                    {| names := cwd ++ [basePath; targetDirOf testType];
                       trailingSeparator := false |} (fileNameOf testName)
                  = {| names := cwd ++ [basePath; targetDirOf testType;
                                        sub; leaf];
                       trailingSeparator := false |}).
  { rewrite Hfile.
    apply isName_parts in Hsub as (Hps & Hs0 & Hs1 & Hs2).
    apply isName_parts in Hleaf as (Hpl & Hl0 & Hl1 & Hl2).
    unfold pathJoin. destruct (sub +:+ "/" +:+ leaf) eqn:E.
    { apply (f_equal String.length) in E. rewrite !length_append in E.
      simpl in E. lia. }
    rewrite <- E. unfold resolve. cbn [names].
    rewrite (ScannerFacts.segments_join sub leaf Hps).
    rewrite (plainName_segments leaf Hpl). cbn [fold_left].
    unfold enter. rewrite Hs0, Hs1, Hs2, Hl0, Hl1, Hl2. cbn [orb rev].
    rewrite rev_involutive, <- !app_assoc. cbn [app].
    assert (endsWith "/" (sub +:+ "/" +:+ leaf) = false) as ->.
    { rewrite <- append_assoc, endsWith_separator_append.
      - apply (plainName_no_end leaf Hpl).
      - intros ->. discriminate Hl0. }
    reflexivity. }
  rewrite Hpath. rewrite existsPath_below, (Hsame [leaf]), Hnofile.
  unfold generateTestContent, writeFileSync, parent.
  cbn [trailingSeparator names orb].
  rewrite isDirectory_below.
  assert (bool_decide
            (joinNames [basePath; targetDirOf testType; sub; leaf]
             ∈ dirs fs1) = false) as ->.
  { pose proof (Hsame [leaf]) as H. rewrite Hnofile in H.
    unfold existsSync in H. now apply orb_false_elim in H as [H _]. }
  rewrite List.removelast_app by discriminate. cbn [removelast].
  rewrite isDirectory_below.
  assert (bool_decide
            (joinNames [basePath; targetDirOf testType; sub] ∈ dirs fs1)
          = false) as ->.
  { pose proof (Hsame []) as H. rewrite Hnosub in H.
    unfold existsSync in H. now apply orb_false_elim in H as [H _]. }
  exists fs1. split; [reflexivity | exact Hfiles1].
Qed.

Lemma generateTest_throws_in_missing_directory_witness :
  exists fs',
    generateTest projectDirectory 1700000000000 "e2e" "auth/Login.spec.ts"
      None freshProject = Throws fs'
    /\ files fs' = files freshProject.
Proof.
  apply (generateTest_throws_in_missing_directory projectDirectory
           1700000000000 "e2e" "auth/Login.spec.ts" None freshProject
           "src" "auth" "Login.spec.ts");
    reflexivity.
Defined.

(** The category of a test is matched without regard to case: the text
    written for a type is the text written for the type in lower case.
    The directory is the same too, unless it is the type as given, which
    is the case for a type that is none of the known names. *)
Theorem category_is_case_insensitive testType testName appInfo :
  testTemplate (toLowerCase testType) testName appInfo
  = testTemplate testType testName appInfo
  /\ (targetDirOf (toLowerCase testType) = targetDirOf testType
      \/ targetDirOf testType = testType).
Proof.
  split.
  - unfold testTemplate. now rewrite toLowerCase_idempotent.
  - unfold targetDirOf. rewrite toLowerCase_idempotent.
    destruct (String.eqb (toLowerCase testType) "api"); [now left|].
    destruct (String.eqb (toLowerCase testType) "e2e"
              || String.eqb (toLowerCase testType) "ui"); [now left|].
    destruct (String.eqb (toLowerCase testType) "websocket"
              || String.eqb (toLowerCase testType) "ws"); [now left|].
    destruct (String.eqb (toLowerCase testType) "performance"
              || String.eqb (toLowerCase testType) "perf"); [now left|].
    destruct (String.eqb (toLowerCase testType) "visual"); [now left|].
    now right.
Qed.

End NamingFacts.

(** ** Routes of the pages directory *)

Module PageRouteFacts.
Import Js Scanner StringFacts ScannerFacts PagesFacts.

Lemma pageExtension_length s :
  pageExtension s = true -> String.length s = 3 \/ String.length s = 4.
Proof.
  unfold pageExtension. intros H.
  repeat (apply orb_prop in H as [H | H]);
    apply String.eqb_eq in H; subst s; simpl; auto.
Qed.

Lemma replaceAtEnd_unfold X s :
  replaceAtEnd X s
  = if X s then EmptyString
    else match s with
         | EmptyString => EmptyString
         | String c s' => String c (replaceAtEnd X s')
         end.
Proof. now destruct s. Qed.

(** Cutting the extension off gives back what stands before it. *)
Lemma cut_extension ext :
  In ext [".js"; ".jsx"; ".ts"; ".tsx"] ->
  forall s, replaceAtEnd pageExtension (s +:+ ext) = s.
Proof.
  intros Hext. induction s as [|c s IH].
  - rewrite replaceAtEnd_unfold.
    cbn [In] in Hext.
    now repeat (destruct Hext as [<- | Hext]; [reflexivity|]).
  - change (String c s +:+ ext) with (String c (s +:+ ext)).
    rewrite replaceAtEnd_unfold.
    destruct (pageExtension (String c (s +:+ ext))) eqn:E.
    + exfalso. pose proof (pageExtension_length _ E) as Hlen.
      cbn [String.length] in Hlen. rewrite length_append in Hlen.
      cbn [In] in Hext.
      repeat (destruct Hext as [<- | Hext];
              [simpl in Hlen;
               try lia;
               (destruct s; [|simpl in Hlen; lia]);
               unfold pageExtension in E; simpl in E;
               destruct c as [[] [] [] [] [] [] [] []]; discriminate E|]).
      contradiction.
    + now rewrite IH.
Qed.

Lemma cut_index d : replaceAtEnd (String.eqb "/index") (d +:+ "/index") = d.
Proof.
  induction d as [|c d IH]; [reflexivity|].
  change (String c d +:+ "/index") with (String c (d +:+ "/index")).
  rewrite replaceAtEnd_unfold.
  destruct (String.eqb "/index" (String c (d +:+ "/index"))) eqn:E.
  - apply String.eqb_eq in E. apply (f_equal String.length) in E.
    cbn [String.length] in E. rewrite length_append in E. simpl in E. lia.
  - now rewrite IH.
Qed.

Lemma endsWith_unfold suf s :
  endsWith suf s
  = String.eqb suf s
    || match s with
       | EmptyString => false
       | String _ s' => endsWith suf s'
       end.
Proof. now destruct s. Qed.

Lemma keep_without_index d :
  endsWith "/index" d = false ->
  replaceAtEnd (String.eqb "/index") d = d.
Proof.
  induction d as [|c d IH]; [reflexivity|].
  rewrite endsWith_unfold. intros H. apply orb_false_iff in H as [H1 H2].
  rewrite replaceAtEnd_unfold, H1. now rewrite IH.
Qed.

Lemma bracketParamAt_other before c s :
  Ascii.eqb c "[" = false -> bracketParamAt before (String c s) = None.
Proof.
  intros H. unfold bracketParamAt.
  destruct c as [[] [] [] [] [] [] [] []]; try reflexivity.
  discriminate H.
Qed.

Lemma keep_without_bracket d :
  every (fun c => negb (Ascii.eqb c "[")) d = true ->
  forall before, replaceFrom bracketParamAt 0 before d = d.
Proof.
  induction d as [|c d IH]; intros Hd before; [reflexivity|].
  cbn [every] in Hd. apply andb_prop in Hd as [Hc Hd].
  apply negb_true_iff in Hc. cbn [replaceFrom].
  rewrite (bracketParamAt_other before c d Hc). f_equal. now apply IH.
Qed.

(** A page [d.ext] and the index page [d/index.ext] of a directory of
    the same name both get the route [/d], for every path [d] without an
    opening bracket. *)
Theorem page_and_nested_index_share_route d ext :
  In ext [".js"; ".jsx"; ".ts"; ".tsx"] ->
  every (fun c => negb (Ascii.eqb c "[")) d = true ->
  pageRoute (d +:+ "/index" +:+ ext) = "/" +:+ d
  /\ (endsWith "/index" d = false -> pageRoute (d +:+ ext) = "/" +:+ d).
Proof.
  intros Hext Hd. unfold pageRoute, replaceGlobal. split.
  - rewrite <- append_assoc, (cut_extension ext Hext), cut_index.
    now rewrite keep_without_bracket.
  - intros Hindex. rewrite (cut_extension ext Hext).
    rewrite (keep_without_index d Hindex).
    now rewrite keep_without_bracket.
Qed.

Lemma page_and_nested_index_share_route_witness :
  pageRoute ("blog/posts" +:+ "/index" +:+ ".tsx") = "/" +:+ "blog/posts"
  /\ (endsWith "/index" "blog/posts" = false ->
      pageRoute ("blog/posts" +:+ ".tsx") = "/" +:+ "blog/posts").
Proof.
  apply (page_and_nested_index_share_route "blog/posts" ".tsx").
  - simpl. tauto.
  - reflexivity.
Defined.

Lemma replaceAtEnd_prefix X s :
  exists tail, s = replaceAtEnd X s +:+ tail.
Proof.
  induction s as [|c s [tail IH]]; rewrite replaceAtEnd_unfold.
  - destruct (X EmptyString); now exists EmptyString.
  - destruct (X (String c s)); [now exists (String c s)|].
    exists tail. simpl. congruence.
Qed.

(** The route of a relative path is the root only for an empty path, a
    path that is an extension and nothing else, or a path that starts
    with a separator. *)
Lemma pageRoute_not_root rel :
  rel <> EmptyString ->
  startsWith "/" rel = false ->
  pageExtension rel = false ->
  pageRoute rel <> "/".
Proof.
  intros Hne Hslash Hext Hroute. unfold pageRoute in Hroute.
  injection Hroute as Hroute. apply bracket_rewrite_empty in Hroute.
  destruct (replaceAtEnd_empty (String.eqb "/index") _ Hroute)
    as [Hcut | Hindex]; clear Hroute.
  - destruct (replaceAtEnd_empty pageExtension _ Hcut); congruence.
  - apply (proj1 (String.eqb_eq _ _)) in Hindex.
    destruct (replaceAtEnd_prefix pageExtension rel) as [tail Htail].
    rewrite <- Hindex in Htail. rewrite Htail in Hslash.
    discriminate Hslash.
Qed.

Lemma pageRoutes_complete pagesDir file :
  forall pageFiles,
    In file pageFiles ->
    pageRoute (pathRelative pagesDir file) <> "/" ->
    In {| routePath := pageRoute (pathRelative pagesDir file);
          routeFile := file |} (pageRoutes pagesDir pageFiles).
Proof.
  induction pageFiles as [|f pageFiles IH]; intros Hin Hroute;
    [contradiction|].
  cbn [pageRoutes]. apply in_or_app. destruct Hin as [-> | Hin].
  - left.
    destruct (String.eqb_spec (pageRoute (pathRelative pagesDir file)) "/")
      as [E | E]; [contradiction|]. now left.
  - right. now apply IH.
Qed.

(** No page is left out: every file of the pages directory with one of
    the four extensions, outside the skipped directories, gets a route,
    the index page at the top too.  The test that drops the route [/]
    only ever drops a file at the top whose whole name is an extension.
    (Names of directory entries are not empty, so a relative path does
    not start with a separator.) *)
Theorem every_page_gets_a_route pagesDir entries dirNames name :
  FileAt entries dirNames name ->
  Forall (fun d => ~ In d excludedNames) dirNames ->
  hasExtension [".js"; ".jsx"; ".ts"; ".tsx"] name = true ->
  startsWith "/" (relativeOf dirNames name) = false ->
  pageExtension (relativeOf dirNames name) = false ->
  In {| routePath := pageRoute (relativeOf dirNames name);
        routeFile := pathOf pagesDir dirNames name |}
    (scanPages pagesDir (Some entries)).
Proof.
  intros Hat Hdirs Hname Hslash Hext. unfold scanPages.
  pose proof (findFiles_complete pagesDir entries _ dirNames name
                Hat Hdirs Hname) as Hfound.
  assert (Hrel : pathRelative pagesDir (pathOf pagesDir dirNames name)
                 = relativeOf dirNames name).
  { now rewrite pathOf_relative, pathRelative_pathJoin. }
  rewrite <- Hrel at 1.
  apply pageRoutes_complete; [exact Hfound|].
  rewrite Hrel. apply pageRoute_not_root; auto.
  intros E. destruct dirNames as [|d dirNames].
  - cbn [relativeOf] in E. subst name. discriminate Hname.
  - cbn [relativeOf] in E. apply (f_equal String.length) in E.
    rewrite !length_append in E. simpl in E. lia.
Qed.

Lemma every_page_gets_a_route_witness :
  In {| routePath := "/index"; routeFile := "pages/index.tsx" |}
    (scanPages "pages"
       (Some [FileEnt "index.tsx"; DirEnt "users" [FileEnt "[id].tsx"]])).
Proof.
  apply (every_page_gets_a_route "pages"
           [FileEnt "index.tsx"; DirEnt "users" [FileEnt "[id].tsx"]]
           [] "index.tsx").
  - apply FileHere. simpl. tauto.
  - apply List.Forall_nil.
  - reflexivity.
  - reflexivity.
  - reflexivity.
Defined.

End PageRouteFacts.

(** ** A project after its set-up *)

Module ProjectFacts.
Import Js Templates Generate Placeholders Project.
Import StringFacts MatchingFacts GenerateFacts SocketUrlFacts.










End ProjectFacts.

(** ** The scans and the generator together *)

Module CoverageFacts.
Import Js Scanner Templates Matching ApiScan Placeholders.
Import StringFacts ScannerFacts WebSocketFacts PlaceholderFacts.
Import MatchingFacts ApiScanFacts.

(** [findFiles] returns exactly the files with one of the extensions
    that are reached from the directory through directories that are not
    skipped; files, that is: an entry that is neither a file nor a
    directory is left out whatever its name. *)
Theorem findFiles_characterised dir entries extensions p :
  In p (findFiles dir (Some entries) extensions)
  <-> exists dirNames name,
        FileAt entries dirNames name
        /\ Forall (fun d => ~ In d excludedNames) dirNames
        /\ hasExtension extensions name = true
        /\ p = pathOf dir dirNames name.
Proof.
  split.
  - cbn [findFiles]. intros Hin.
    apply in_flat_map in Hin as (e & He & Hp).
    apply findFilesEntry_sound in Hp as (dirNames & name & Hat & H).
    exists dirNames, name. split; [|exact H].
    now apply (FileAt_weaken e).
  - intros (dirNames & name & Hat & Hdirs & Hext & ->).
    now apply findFiles_complete.
Qed.

Lemma analyzeWebSockets_returns_without_presence_witness :
  exists result,
    analyzeWebSockets
      (scanFuel [("client.js", "const s = io('http://localhost:3000');")])
      [("client.js", "const s = io('http://localhost:3000');")]
    = Some result.
Proof.
  apply (analyzeWebSockets_returns_without_presence
           [("client.js", "const s = io('http://localhost:3000');")]).
  intros file content [[= <- <-] | []]. reflexivity.
Defined.

(** A file that is not processed, and content in which none of the
    seven tokens occurs, come out as they went in, whatever the values
    are, dollar signs and braces included. *)
Theorem processFile_keeps_other_content projectName options file content :
  processed file = false \/ tokenFree tokens content = true ->
  processFile projectName options file content = content.
Proof.
  intros [H | H].
  - now apply processFile_other_extension.
  - now apply processFile_token_free.
Qed.

Lemma processFile_keeps_other_content_witness :
  processFile "pa$$" dollarOptions "README.md" "Run {{command}} for ${HOME}"
  = "Run {{command}} for ${HOME}".
Proof.
  apply (processFile_keeps_other_content "pa$$" dollarOptions "README.md").
  right. reflexivity.
Defined.

(** The request of a generated test, found by its position in the text
    generated for the empty path. *)
Ltac request_at m n :=
  first
    [ exists (take n (generateApiTestForMethod m EmptyString));
      do 2 eexists; intros path; split; lazy; reflexivity
    | request_at m (S n) ].

Ltac request_shape :=
  lazymatch goal with
  | |- context [generateApiTestForMethod (toLowerCase ?v)] =>
      let m := eval vm_compute in (toLowerCase v) in
      change (toLowerCase v) with m; request_at m O
  end.

(** An endpoint the scan reports is requested by its own method in the
    test written for it: the scan gives the method in upper case, the
    generator lowers it, and for each of the five methods neither
    [switch] takes its default, which would request with [get]. *)
Theorem scanned_endpoint_is_requested_by_its_method fuel files found e :
  analyzeApiEndpoints fuel files = Some found ->
  In e (endpoints found) ->
  exists pre post errorPost,
    forall path,
      generateApiTestForMethod (toLowerCase (endpointMethod e)) path
      = pre +:+ "axios." +:+ toLowerCase (endpointMethod e)
        +:+ "(`${baseUrl}" +:+ path +:+ post
      /\ generateApiErrorTestForMethod (toLowerCase (endpointMethod e)) path
         = "await axios." +:+ toLowerCase (endpointMethod e)
           +:+ "(`${baseUrl}" +:+ path +:+ errorPost.
Proof.
  intros H He.
  apply (scanApiFiles_fromFiles files) in H;
    [|auto|apply List.Forall_nil].
  rewrite List.Forall_forall in H. destruct (H e He) as [Hm _].
  unfold verbs in Hm. cbn [In] in Hm.
  repeat (destruct Hm as [<- | Hm]; [request_shape|]).
  contradiction.
Qed.

Lemma scanned_endpoint_is_requested_by_its_method_witness :
  exists pre post errorPost,
    forall path,
      generateApiTestForMethod (toLowerCase "POST") path
      = pre +:+ "axios." +:+ toLowerCase "POST"
        +:+ "(`${baseUrl}" +:+ path +:+ post
      /\ generateApiErrorTestForMethod (toLowerCase "POST") path
         = "await axios." +:+ toLowerCase "POST"
           +:+ "(`${baseUrl}" +:+ path +:+ errorPost.
Proof.
  apply (scanned_endpoint_is_requested_by_its_method 40
           [("routes.js", usersRoutes)]
           {| endpoints :=
                [{| endpointMethod := "GET"; endpointPath := "/users";
                    endpointFile := Some "routes.js" |};
                 {| endpointMethod := "POST"; endpointPath := "/users";
                    endpointFile := Some "routes.js" |}];
              hasAuthentication := false |}
           {| endpointMethod := "POST"; endpointPath := "/users";
              endpointFile := Some "routes.js" |}
           eq_refl).
  simpl. tauto.
Defined.

End CoverageFacts.

(** ** What every generated test file has *)

Module DescribeFacts.
Import Js Scanner Templates StringFacts.

(** The title of the [describe] block: the text before the test name
    is cut where the block starts. *)
Ltac describe_shape testName :=
  lazymatch goal with
  | |- exists head tail, String.append ?L (String.append testName ?R) = _ =>
      let rec go n :=
        let b :=
          eval vm_compute in (startsWith "test.describe('" (drop n L)) in
        lazymatch b with
        | true =>
            let H := eval vm_compute in (take n L) in
            exists H, R; reflexivity
        | false => go (S n)
        end in
      go O
  end.

(** Whatever the type and the analysis result are, the text written is
    a Playwright test file: it starts with the import of [test] and
    [expect] and has a [describe] block whose title starts with the
    test name, put between the apostrophes as it was typed. *)
Theorem every_test_file_describes_its_name testType testName appInfo :
  startsWith "import { test, expect } from '@playwright/test';"
    (testTemplate testType testName appInfo) = true
  /\ exists head tail,
       testTemplate testType testName appInfo
       = head +:+ "test.describe('" +:+ testName +:+ tail.
Proof.
  unfold testTemplate. cbv zeta.
  repeat match goal with
         | |- context [if ?b then _ else _] => destruct b
         | |- context [match ?o with Some _ => _ | None => _ end] =>
             destruct o
         end;
    (split;
     [ reflexivity
     | unfold apiEndpointTemplate, apiGenericTemplate, routeTemplate,
         componentTemplate, formTemplate, urlTemplate,
         generateGenericUITest, socketUrlTemplate, socketDefaultTemplate,
         performanceTemplate, visualTemplate, fallbackTemplate;
       cbv zeta; describe_shape testName ]).
Qed.

End DescribeFacts.
